(** * svsh: the supervisor adapters of [pkg/svsh] (Runit and S6)

    A shallow embedding of the Go package [svsh]: the status model
    ([Status], [Service]), the helpers of [svsh.go] ([findLogFile],
    [serviceDirs], [mapStrings]) and the two adapters [Runit] and [S6];
    and, of the shell in [main.go], [parseSignal], the command [signal]
    and the completion of service names.

    Go strings and byte slices are both byte sequences; they are modelled by
    [string] (a list of 8-bit [ascii]).  Go's [int], [int64] and
    [time.Duration] are modelled by [Z]; the places where the Go library
    checks a 64-bit range are written out.  The operating system (directory
    reads, symbolic links, subprocesses) is an oracle answering each call
    from the history of the calls made so far, and every function that
    talks to it threads that history explicitly. *)

From Stdlib Require Import Strings.String Strings.Ascii.
From Stdlib Require Import ZArith List Bool Lia.
From Stdlib Require Import Sorting.Sorted Sorting.Permutation.
Import ListNotations.

Open Scope string_scope.
Open Scope Z_scope.

(* ================================================================= *)
(** ** Bytes *)

Definition byteVal (c : ascii) : Z := Z.of_N (N_of_ascii c).

Definition isDigit (c : ascii) : bool :=
  (48 <=? byteVal c) && (byteVal c <=? 57).

Definition digitVal (c : ascii) : Z := byteVal c - 48.

Definition eqb_byte (a b : ascii) : bool := Ascii.eqb a b.

(** The number a string of decimal digits writes, after the digits of
    [x]. *)
Fixpoint decimal (d : string) (x : Z) : Z :=
  match d with
  | EmptyString => x
  | String c d' => decimal d' (x * 10 + digitVal c)
  end.

(** [strings.HasPrefix]. *)
Fixpoint HasPrefix (s p : string) : bool :=
  match p, s with
  | EmptyString, _ => true
  | String a p', String b s' => eqb_byte a b && HasPrefix s' p'
  | String _ _, EmptyString => false
  end.

(** [s[len(p):]] when [p] is a prefix of [s]. *)
Fixpoint TrimPrefix (p s : string) : option string :=
  match p, s with
  | EmptyString, _ => Some s
  | String a p', String b s' => if eqb_byte a b then TrimPrefix p' s' else None
  | String _ _, EmptyString => None
  end.

(** Go's [len(x) > 0] on a string or a byte slice (a nil slice has
    length 0). *)
Definition nonEmpty (s : string) : bool :=
  match s with EmptyString => false | String _ _ => true end.

(* ================================================================= *)
(** ** Errors

    An [error] value keeps the format string of the [fmt.Errorf] call that
    built it together with its arguments, so a statement can say which text
    an error carries without modelling the formatting verbs. *)

Inductive error : Type :=
| errors_New (msg : string)
| os_error (msg : string)
| strconv_NumError (func num : string) (err : error)
| fmt_Errorf (format : string) (args : list fmtArg)
with fmtArg : Type :=
| ArgString (s : string)
| ArgBytes (b : string)
| ArgError (e : option error).

Definition ErrUnsupportedCommand : error :=
  errors_New "command is not supported by the supervisor".
Definition ErrUnsupportedSignal : error :=
  errors_New "sending this signal is unsupported by the supervisor".

(* ================================================================= *)
(** ** strconv *)

Module strconv.

(** The two sentinel errors [ErrSyntax] and [ErrRange]. *)
Inductive sentinel : Type := Syntax | Range.

Definition ErrSyntax : error := errors_New "invalid syntax".
Definition ErrRange : error := errors_New "value out of range".

Definition sentinel_error (k : sentinel) : error :=
  match k with Syntax => ErrSyntax | Range => ErrRange end.

Definition maxUint64 : Z := 2 ^ 64 - 1.
Definition maxInt64 : Z := 2 ^ 63 - 1.
Definition minInt64 : Z := - 2 ^ 63.

(** The digit loop of [ParseUint(s, 10, 64)]: a byte that is no decimal
    digit is a syntax error; an overflow is reported at the digit where it
    happens, with the largest value. *)
Fixpoint parseUintLoop (s : string) (n : Z) : Z * option sentinel :=
  match s with
  | EmptyString => (n, None)
  | String c s' =>
      if negb (isDigit c) then (0, Some Syntax)
      else if n >=? maxUint64 / 10 + 1 then (maxUint64, Some Range)
      else
        let n1 := n * 10 + digitVal c in
        if n1 >? maxUint64 then (maxUint64, Some Range)
        else parseUintLoop s' n1
  end.

Definition ParseUint (s : string) : Z * option sentinel :=
  match s with
  | EmptyString => (0, Some Syntax)
  | _ => parseUintLoop s 0
  end.

(** [ParseInt(s, 10, 0)]: an optional sign, then [ParseUint]; a range error
    keeps the nearest 64-bit value. *)
Definition ParseInt (s : string) : Z * option sentinel :=
  match s with
  | EmptyString => (0, Some Syntax)
  | String c rest =>
      let neg := eqb_byte c "-" in
      let body := if eqb_byte c "+" || eqb_byte c "-" then rest else s in
      match ParseUint body with
      | (_, Some Syntax) => (0, Some Syntax)
      | (un, _) =>
          if negb neg && (un >=? 2 ^ 63) then (maxInt64, Some Range)
          else if neg && (un >? 2 ^ 63) then (minInt64, Some Range)
          else (if neg then - un else un, None)
      end
  end.

(** [strconv.Atoi] on a 64-bit platform.  Its fast path (fewer than 19
    bytes) computes what [ParseInt] computes on the same input. *)
Definition Atoi (s : string) : Z * option error :=
  match ParseInt s with
  | (i, Some k) => (i, Some (strconv_NumError "Atoi" s (sentinel_error k)))
  | (i, None) => (i, None)
  end.

(** Decimal digits of a positive number, most significant first. *)
Fixpoint digitsFuel (fuel : nat) (n : Z) (acc : string) : string :=
  match fuel with
  | O => acc
  | S fuel' =>
      let acc' := String (ascii_of_N (Z.to_N (48 + n mod 10))) acc in
      if n <? 10 then acc' else digitsFuel fuel' (n / 10) acc'
  end.

(** [strconv.Itoa]. *)
Definition Itoa (i : Z) : string :=
  if i <? 0 then String "-" (digitsFuel 20 (- i) EmptyString)
  else digitsFuel 20 i EmptyString.

End strconv.

(* ================================================================= *)
(** ** time *)

Module time.

Definition Nanosecond : Z := 1.
Definition Microsecond : Z := 1000 * Nanosecond.
Definition Millisecond : Z := 1000 * Microsecond.
Definition Second : Z := 1000 * Millisecond.
Definition Minute : Z := 60 * Second.
Definition Hour : Z := 60 * Minute.

Definition maxInt64 : Z := 2 ^ 63 - 1.

(** The micro sign U+00B5 and the Greek mu U+03BC, in UTF-8. *)
Definition micro_us : string :=
  String (ascii_of_nat 194) (String (ascii_of_nat 181) "s").
Definition mu_us : string :=
  String (ascii_of_nat 206) (String (ascii_of_nat 188) "s").

Definition unitMap (u : string) : option Z :=
  if String.eqb u "ns" then Some Nanosecond
  else if String.eqb u "us" then Some Microsecond
  else if String.eqb u micro_us then Some Microsecond
  else if String.eqb u mu_us then Some Microsecond
  else if String.eqb u "ms" then Some Millisecond
  else if String.eqb u "s" then Some Second
  else if String.eqb u "m" then Some Minute
  else if String.eqb u "h" then Some Hour
  else None.

(** [leadingInt]: consumes the leading [[0-9]*]; [None] on overflow. *)
Fixpoint leadingInt (s : string) (x : Z) : option (Z * string) :=
  match s with
  | EmptyString => Some (x, s)
  | String c s' =>
      if negb (isDigit c) then Some (x, s)
      else if x >? maxInt64 / 10 then None
      else
        let x' := x * 10 + digitVal c in
        if x' >? maxInt64 then None else leadingInt s' x'
  end.

(** [leadingFraction]: skips the leading [[0-9]*] and tells whether any
    of the digits is not zero. *)
Fixpoint leadingFraction (s : string) (nonzero : bool) : bool * string :=
  match s with
  | EmptyString => (nonzero, s)
  | String c s' =>
      if isDigit c then leadingFraction s' (nonzero || negb (eqb_byte c "0"))
      else (nonzero, s)
  end.

(** The unit scan: the bytes up to the next ['.'] or digit. *)
Fixpoint spanUnit (s : string) : string * string :=
  match s with
  | EmptyString => (EmptyString, s)
  | String c s' =>
      if eqb_byte c "." || isDigit c then (EmptyString, s)
      else let '(u, r) := spanUnit s' in (String c u, r)
  end.

Definition invalidDuration (orig : string) : error :=
  errors_New ("time: invalid duration " ++ orig).
Definition missingUnit (orig : string) : error :=
  errors_New ("time: missing unit in duration " ++ orig).
Definition unknownUnit (u orig : string) : error :=
  errors_New ("time: unknown unit " ++ u ++ " in duration " ++ orig).
(** A term with a non-zero fractional part is scaled in [float64] by the
    library; that arithmetic is outside this model, which stops there with
    this value.  No pattern of the package captures a ['.']: the tokens
    handed to [ParseDuration] are digits, or digits followed by [s]. *)
Definition fractionalDuration (orig : string) : error :=
  errors_New ("time: fractional duration " ++ orig).

(** The loop [for s != "" { ... }] of [ParseDuration]; every round consumes
    at least one byte, so the length of the input bounds the rounds. *)
Fixpoint parseTerms (fuel : nat) (orig s : string) (d : Z) : Z * option error :=
  match fuel with
  | O => (d, None)
  | S fuel' =>
      match s with
      | EmptyString => (d, None)
      | String c _ =>
          if negb (eqb_byte c "." || isDigit c) then (0, Some (invalidDuration orig))
          else
            match leadingInt s 0 with
            | None => (0, Some (invalidDuration orig))
            | Some (v, s1) =>
                let pre := negb (Nat.eqb (String.length s) (String.length s1)) in
                let '(post, f, s2) :=
                  match s1 with
                  | String c1 s1' =>
                      if eqb_byte c1 "." then
                        let '(nz, r) := leadingFraction s1' false in
                        (negb (Nat.eqb (String.length s1') (String.length r)), nz, r)
                      else (false, false, s1)
                  | EmptyString => (false, false, s1)
                  end in
                if negb pre && negb post then (0, Some (invalidDuration orig))
                else
                  let '(u, s3) := spanUnit s2 in
                  match u with
                  | EmptyString => (0, Some (missingUnit orig))
                  | _ =>
                      match unitMap u with
                      | None => (0, Some (unknownUnit u orig))
                      | Some unit =>
                          if v >? maxInt64 / unit then (0, Some (invalidDuration orig))
                          else if f then (0, Some (fractionalDuration orig))
                          else
                            let d' := d + v * unit in
                            if d' >? maxInt64 then (0, Some (invalidDuration orig))
                            else parseTerms fuel' orig s3 d'
                      end
                  end
            end
      end
  end.

(** [time.ParseDuration]; the result is in nanoseconds, and is 0 whenever
    an error is returned. *)
Definition ParseDuration (orig : string) : Z * option error :=
  let '(neg, s) :=
    match orig with
    | String c r =>
        if eqb_byte c "-" || eqb_byte c "+" then (eqb_byte c "-", r)
        else (false, orig)
    | EmptyString => (false, orig)
    end in
  if String.eqb s "0" then (0, None)
  else
    match s with
    | EmptyString => (0, Some (invalidDuration orig))
    | _ =>
        match parseTerms (String.length s) orig s 0 with
        | (d, None) => (if neg then - d else d, None)
        | (_, Some e) => (0, Some e)
        end
    end.

End time.

(* ================================================================= *)
(** ** path/filepath (Unix) *)

Module filepath.

Definition isSlash (c : ascii) : bool := eqb_byte c "/".

(** The elements of a path between its slashes. *)
Fixpoint splitSlash (s : string) (cur : string) : list string :=
  match s with
  | EmptyString => [cur]
  | String c s' =>
      if isSlash c then cur :: splitSlash s' EmptyString
      else splitSlash s' (cur ++ String c EmptyString)
  end.

Fixpoint joinSlash (elems : list string) : string :=
  match elems with
  | [] => EmptyString
  | [e] => e
  | e :: rest => e ++ "/" ++ joinSlash rest
  end.

(** One element of [Clean]: an empty element and ["."] are dropped;
    [".."] removes the element before it, is dropped at the root and is kept
    at the start of a relative path.  [out] is kept in reverse. *)
Definition cleanStep (rooted : bool) (out : list string) (e : string) : list string :=
  if String.eqb e "" || String.eqb e "." then out
  else if String.eqb e ".." then
    match out with
    | [] => if rooted then out else [e]
    | last :: out' => if String.eqb last ".." then e :: out else out'
    end
  else e :: out.

(** [filepath.Clean]: the shortest path naming the same file, by the
    lexical rules of the library's documentation. *)
Definition Clean (path : string) : string :=
  match path with
  | EmptyString => "."
  | String c _ =>
      let rooted := isSlash c in
      let out := rev (fold_left (cleanStep rooted) (splitSlash path EmptyString) []) in
      let body := joinSlash out in
      if rooted then String "/" body
      else match body with EmptyString => "." | _ => body end
  end.

(** [filepath.Join]: empty elements are ignored, the rest is joined with
    slashes and cleaned; the empty string when nothing is left. *)
Definition Join (elems : list string) : string :=
  match filter nonEmpty elems with
  | [] => EmptyString
  | es => Clean (joinSlash es)
  end.

(** The bytes of [s] without its trailing slashes, in reverse. *)
Fixpoint dropSlashes (r : string) : string :=
  match r with
  | String c r' => if isSlash c then dropSlashes r' else r
  | EmptyString => r
  end.

(** The bytes after the last slash. *)
Fixpoint lastElem (s : string) (cur : string) : string :=
  match s with
  | EmptyString => cur
  | String c s' =>
      if isSlash c then lastElem s' EmptyString
      else lastElem s' (cur ++ String c EmptyString)
  end.

Fixpoint revString (s acc : string) : string :=
  match s with
  | EmptyString => acc
  | String c s' => revString s' (String c acc)
  end.

(** [filepath.Base]: the last element of the path, after its trailing
    slashes are removed; ["."] for the empty path, ["/"] for a path of
    slashes only. *)
Definition Base (path : string) : string :=
  match path with
  | EmptyString => "."
  | _ =>
      let stripped := revString (dropSlashes (revString path EmptyString)) EmptyString in
      match lastElem stripped EmptyString with
      | EmptyString => "/"
      | b => b
      end
  end.

End filepath.

(* ================================================================= *)
(** ** sort *)

Module sort.

(** Go compares strings byte by byte; so does [String.leb]. *)
Fixpoint insert (x : string) (l : list string) : list string :=
  match l with
  | [] => [x]
  | y :: l' => if String.leb x y then x :: l else y :: insert x l'
  end.

(** [sort.Strings] sorts in increasing order.  The order is total and
    antisymmetric, so the sorted arrangement of a list is unique and any
    sorting procedure returns it; insertion sort stands for the library's. *)
Definition Strings (l : list string) : list string :=
  fold_right insert [] l.

End sort.

(* ================================================================= *)
(** ** regexp

    The patterns of the package use literals, character classes, a class
    repeated one or more times, an optional group, an alternation, capture
    groups and the anchor [^].  A pattern is matched by backtracking in
    priority order (first alternative first, longest repetition first, an
    optional group taken first), which is the leftmost-first match the
    library returns.

    The library reads the text as UTF-8 runes, this model as bytes.  The
    literals and the bounds of the classes of the package's patterns are
    ASCII, a negated class takes any rune, and an ASCII byte is never part
    of a longer rune: both readings find the same match and the same
    groups. *)

Module regexp.

(** A character class: a list of byte ranges, possibly negated. *)
Record Class : Type := mkClass {
  negated : bool;
  ranges : list (ascii * ascii)
}.

Definition inRange (c : ascii) (r : ascii * ascii) : bool :=
  (byteVal (fst r) <=? byteVal c) && (byteVal c <=? byteVal (snd r)).

Definition inClass (cl : Class) (c : ascii) : bool :=
  xorb (negated cl) (existsb (inRange c) (ranges cl)).

Inductive Regexp : Type :=
| BeginText                             (* ^ *)
| Lit (s : string)                      (* literal bytes *)
| Plus (cl : Class)                     (* [..]+ *)
| Cat (r1 r2 : Regexp)                  (* r1r2 *)
| Alt (r1 r2 : Regexp)                  (* r1|r2 *)
| Quest (r : Regexp)                    (* (?:r)? *)
| Capture (i : nat) (r : Regexp).       (* the i-th parenthesised group *)

Fixpoint NumSubexp (r : Regexp) : nat :=
  match r with
  | BeginText | Lit _ | Plus _ => O
  | Cat r1 r2 | Alt r1 r2 => (NumSubexp r1 + NumSubexp r2)%nat
  | Quest r1 => NumSubexp r1
  | Capture _ r1 => S (NumSubexp r1)
  end.

(** The first [n] bytes of [s]. *)
Fixpoint take (n : nat) (s : string) : string :=
  match n, s with
  | S n', String c s' => String c (take n' s')
  | _, _ => EmptyString
  end.

Fixpoint setCap (i : nat) (v : string) (caps : list string) : list string :=
  match caps, i with
  | [], _ => []
  | _ :: rest, O => v :: rest
  | c :: rest, S i' => c :: setCap i' v rest
  end.

Section Run.
Variable R : Type.

(** [cl+], longest first: after one byte of the class, more bytes are
    tried before the continuation. *)
Fixpoint plus (cl : Class) (pos : nat) (s : string)
         (k : nat -> string -> option R) : option R :=
  match s with
  | EmptyString => None
  | String c s' =>
      if inClass cl c then
        match plus cl (S pos) s' k with
        | Some res => Some res
        | None => k (S pos) s'
        end
      else None
  end.

(** Matches [r] at offset [pos], where [s] is the rest of the text, and
    hands the offset, the rest and the captures reached to [k]; a [None]
    from [k] makes the match backtrack. *)
Fixpoint run (r : Regexp) (pos : nat) (s : string) (caps : list string)
         (k : nat -> string -> list string -> option R) : option R :=
  match r with
  | BeginText => if Nat.eqb pos 0 then k pos s caps else None
  | Lit l =>
      match TrimPrefix l s with
      | Some s' => k (pos + String.length l)%nat s' caps
      | None => None
      end
  | Plus cl => plus cl pos s (fun pos' s' => k pos' s' caps)
  | Cat r1 r2 =>
      run r1 pos s caps (fun pos' s' caps' => run r2 pos' s' caps' k)
  | Alt r1 r2 =>
      match run r1 pos s caps k with
      | Some res => Some res
      | None => run r2 pos s caps k
      end
  | Quest r1 =>
      match run r1 pos s caps k with
      | Some res => Some res
      | None => k pos s caps
      end
  | Capture i r1 =>
      run r1 pos s caps
          (fun pos' s' caps' => k pos' s' (setCap (i - 1) (take (pos' - pos) s) caps'))
  end.
End Run.

(** The leftmost match: the first offset at which [re] matches. *)
Fixpoint findFrom (re : Regexp) (pos : nat) (s : string) : list string :=
  match run (list string) re pos s (repeat EmptyString (NumSubexp re))
            (fun pos' _ caps => Some (take (pos' - pos) s :: caps)) with
  | Some m => m
  | None =>
      match s with
      | EmptyString => []
      | String _ s' => findFrom re (S pos) s'
      end
  end.

(** [Regexp.FindSubmatch]: the text of the leftmost match followed by
    the text of each capture group, or nil (here [[]]) when there is no
    match.  A group that took no part in the match is a nil slice, of
    length 0 (here the empty string). *)
Definition FindSubmatch (re : Regexp) (b : string) : list string :=
  findFrom re 0 b.

(** Every byte of [w] is in the class. *)
Fixpoint allIn (cl : Class) (w : string) : bool :=
  match w with
  | EmptyString => true
  | String c w' => inClass cl c && allIn cl w'
  end.

(** [Matches r pos s caps pos' s' caps']: the pattern [r] matches a prefix
    of [s], the text at offset [pos], leaving [s'] at offset [pos'], and
    turns the captures [caps] into [caps'].  This is what a pattern means,
    apart from the order in which [run] tries its matches. *)
Fixpoint Matches (r : Regexp) (pos : nat) (s : string) (caps : list string)
         (pos' : nat) (s' : string) (caps' : list string) : Prop :=
  match r with
  | BeginText => pos = O /\ pos' = pos /\ s' = s /\ caps' = caps
  | Lit l => s = l ++ s' /\ pos' = (pos + String.length l)%nat /\ caps' = caps
  | Plus cl =>
      exists w, w <> EmptyString /\ allIn cl w = true /\
                s = w ++ s' /\ pos' = (pos + String.length w)%nat /\ caps' = caps
  | Cat r1 r2 =>
      exists p1 s1 c1, Matches r1 pos s caps p1 s1 c1 /\ Matches r2 p1 s1 c1 pos' s' caps'
  | Alt r1 r2 =>
      Matches r1 pos s caps pos' s' caps' \/ Matches r2 pos s caps pos' s' caps'
  | Quest r1 =>
      Matches r1 pos s caps pos' s' caps' \/ (pos' = pos /\ s' = s /\ caps' = caps)
  | Capture i r1 =>
      exists c1, Matches r1 pos s caps pos' s' c1 /\
                 caps' = setCap (i - 1) (take (pos' - pos) s) c1
  end.

Definition digit : Class := mkClass false [("0", "9")]%char.
Definition notByte (c : ascii) : Class := mkClass true [(c, c)].

End regexp.

(* ================================================================= *)
(** ** The operating system

    Every call the package makes to the operating system is an [Event].
    An [OS] answers a call from the history of the calls made before it, so
    it may answer the same call differently at different times.  [M] is the
    state monad over that history. *)

(** [exec.Command(name, args...)] with its [Env] field ([None]: the
    environment of the caller). *)
Record Cmd : Type := mkCmd {
  cmd_Name : string;
  cmd_Args : list string;
  cmd_Env : option (list string)
}.

(** [os.FileInfo]: the name of a directory entry and its mode bits. *)
Record FileInfo : Type := mkFileInfo {
  fi_Name : string;
  fi_Mode : Z
}.

(** [os.ModeDir] and [os.ModeSymlink]. *)
Definition ModeDir : Z := Z.shiftl 1 (32 - 1 - 0).
Definition ModeSymlink : Z := Z.shiftl 1 (32 - 1 - 4).

Definition IsDir (f : FileInfo) : bool :=
  negb (Z.land (fi_Mode f) ModeDir =? 0).

Inductive Event : Type :=
| EvReadDir (path : string)
| EvReadlink (path : string)
| EvCombinedOutput (c : Cmd)
| EvStart (c : Cmd)
| EvWait (c : Cmd).

Definition Trace : Type := list Event.

Record OS : Type := mkOS {
  (** [ioutil.ReadDir] *)
  ioutil_ReadDir : Trace -> string -> list FileInfo * option error;
  (** [os.Readlink] *)
  os_Readlink : Trace -> string -> string * option error;
  (** [exec.Cmd.CombinedOutput]: the output and the outcome of a
      subprocess run to completion *)
  exec_CombinedOutput : Trace -> Cmd -> string * option error;
  (** [exec.Cmd.Start] *)
  exec_Start : Trace -> Cmd -> option error;
  (** [exec.Cmd.Wait]: the message of the error the subprocess ended
      with, if any *)
  exec_Wait : Trace -> Cmd -> option string
}.

Definition M (A : Type) : Type := Trace -> A * Trace.

Definition ret {A : Type} (a : A) : M A := fun tr => (a, tr).

Definition bind {A B : Type} (m : M A) (k : A -> M B) : M B :=
  fun tr => let '(a, tr') := m tr in k a tr'.

Declare Scope os_scope.
Delimit Scope os_scope with os.
Notation "x <- c ;; k" := (bind c (fun x => k))
  (at level 61, c at next level, right associativity) : os_scope.
Notation "' pat <- c ;; k" := (bind c (fun x => let pat := x in k))
  (at level 61, pat pattern, c at next level, right associativity) : os_scope.
Open Scope os_scope.

(** The subprocesses a history has launched, by [CombinedOutput] or by
    [Start]. *)
Fixpoint subprocesses (tr : Trace) : list Cmd :=
  match tr with
  | [] => []
  | EvCombinedOutput c :: tr' => c :: subprocesses tr'
  | EvStart c :: tr' => c :: subprocesses tr'
  | _ :: tr' => subprocesses tr'
  end.

(** A loop body either goes on to the next round ([continue], or the end
    of the body) with the loop's variables, or returns from the function. *)
Inductive Flow (S R : Type) : Type :=
| Continue (s : S)
| Return (r : R).
Arguments Continue {S R} s.
Arguments Return {S R} r.

(** [for _, x := range xs { body }]. *)
Fixpoint forRange {A S R : Type} (xs : list A) (body : A -> S -> M (Flow S R))
         (s : S) : M (Flow S R) :=
  match xs with
  | [] => ret (Continue s)
  | x :: xs' =>
      f <- body x s ;;
      match f with
      | Continue s' => forRange xs' body s'
      | Return r => ret (Return r)
      end
  end.

(** Straight-line code in which a statement may return from the function. *)
Definition andThen {S S' R : Type} (f : Flow S R) (k : S -> Flow S' R) : Flow S' R :=
  match f with
  | Continue s => k s
  | Return r => Return r
  end.

Notation "x <-- f ;;; k" := (andThen f (fun x => k))
  (at level 61, f at next level, right associativity) : os_scope.

Section WithOS.
Variable os : OS.

Definition ReadDir (path : string) : M (list FileInfo * option error) :=
  fun tr => (ioutil_ReadDir os tr path, (tr ++ [EvReadDir path])%list).

Definition Readlink (path : string) : M (string * option error) :=
  fun tr => (os_Readlink os tr path, (tr ++ [EvReadlink path])%list).

Definition CombinedOutput (c : Cmd) : M (string * option error) :=
  fun tr => (exec_CombinedOutput os tr c, (tr ++ [EvCombinedOutput c])%list).

Definition Start (c : Cmd) : M (option error) :=
  fun tr => (exec_Start os tr c, (tr ++ [EvStart c])%list).

Definition Wait (c : Cmd) : M (option string) :=
  fun tr => (exec_Wait os tr c, (tr ++ [EvWait c])%list).
End WithOS.

(* ================================================================= *)
(** ** syscall (linux/amd64) *)

Module syscall.
Definition Signal : Type := Z.
Definition SIGHUP : Signal := 1.
Definition SIGINT : Signal := 2.
Definition SIGQUIT : Signal := 3.
Definition SIGABRT : Signal := 6.
Definition SIGKILL : Signal := 9.
Definition SIGUSR1 : Signal := 10.
Definition SIGUSR2 : Signal := 12.
Definition SIGALRM : Signal := 14.
Definition SIGTERM : Signal := 15.
Definition SIGCONT : Signal := 18.
Definition SIGSTOP : Signal := 19.
Definition SIGWINCH : Signal := 28.
End syscall.

(** A value of the interface [os.Signal]: a [syscall.Signal], or a value of
    some other type implementing the interface.  A [case] of a [switch]
    over such a value is taken when the value is the [syscall.Signal] the
    case names. *)
Inductive os_Signal : Type :=
| ofSyscall (sig : syscall.Signal)
| otherSignal (name : string).

Definition isSignal (signal : os_Signal) (sig : syscall.Signal) : bool :=
  match signal with
  | ofSyscall n => n =? sig
  | otherSignal _ => false
  end.

(* ================================================================= *)
(** ** svsh.go *)

Inductive Status : Type :=
| StatusUp
| StatusDown
| StatusResetting
| StatusBackoff
| StatusDisabled
| StatusUnknown.

Definition statusNames (s : Status) : string :=
  match s with
  | StatusUp => "up"
  | StatusDown => "down"
  | StatusResetting => "resetting"
  | StatusBackoff => "backoff"
  | StatusDisabled => "disabled"
  | StatusUnknown => "unknown"
  end.

Record Service : Type := mkService {
  Service_Name : string;
  Service_Status : Status;
  Service_Pid : Z;
  Service_Duration : Z            (* time.Duration: nanoseconds *)
}.

Definition withStatus (svc : Service) (s : Status) : Service :=
  mkService (Service_Name svc) s (Service_Pid svc) (Service_Duration svc).
Definition withPid (svc : Service) (pid : Z) : Service :=
  mkService (Service_Name svc) (Service_Status svc) pid (Service_Duration svc).
Definition withDuration (svc : Service) (d : Z) : Service :=
  mkService (Service_Name svc) (Service_Status svc) (Service_Pid svc) d.

Definition isSome {A : Type} (o : option A) : bool :=
  match o with Some _ => true | None => false end.

Definition isLogger (exe : string) : bool :=
  String.eqb exe "tinylog" || String.eqb exe "s6-log" ||
  String.eqb exe "svlogd" || String.eqb exe "multilog".

Section Helpers.
Variable os : OS.

(** The loop of [findLogFile] over the entries of [/proc/<pid>/fd]. *)
Definition findLogFile_body (dir : string) (link : FileInfo) (_ : unit)
  : M (Flow unit (string * option error)) :=
  if negb (Z.land (fi_Mode link) (Z.shiftl 1 (32 - 1 - 4)) =? 0) then
    '(target, err) <- Readlink os (filepath.Join [dir; "fd"; fi_Name link]) ;;
    match err with
    | Some e =>
        ret (Return (EmptyString,
                     Some (fmt_Errorf "failed reading link %q: %w"
                                      [ArgString (fi_Name link); ArgError (Some e)])))
    | None =>
        if String.eqb (filepath.Base target) "current"
        then ret (Return (target, None))
        else ret (Continue tt)
    end
  else ret (Continue tt).

Definition findLogFile (pid : Z) : M (string * option error) :=
  let dir := filepath.Join ["/proc"; strconv.Itoa pid] in
  '(exe, err) <- Readlink os (filepath.Join [dir; "/exe"]) ;;
  match err with
  | Some e =>
      ret (EmptyString,
           Some (fmt_Errorf "failed reading symbolic link: %w" [ArgError (Some e)]))
  | None =>
      if isLogger (filepath.Base exe) then
        (* look for a link to a /current file under /proc/<pid>/fd *)
        let fd := filepath.Join [dir; "fd"] in
        '(links, err) <- ReadDir os fd ;;
        match err with
        | Some e =>
            ret (EmptyString,
                 Some (fmt_Errorf "failed reading fd directory %q: %w"
                                  [ArgString fd; ArgError (Some e)]))
        | None =>
            f <- forRange links (findLogFile_body dir) tt ;;
            match f with
            | Return r => ret r
            | Continue _ => ret (EmptyString, None)
            end
        end
      else ret (EmptyString, None)
  end.

Definition serviceDirs (baseDir : string) : M (list string * option error) :=
  '(files, err) <- ReadDir os baseDir ;;
  match err with
  | Some e =>
      ret ([], Some (fmt_Errorf "failed reading base directory %q: %w"
                                [ArgString baseDir; ArgError (Some e)]))
  | None =>
      let dirs := map fi_Name (filter IsDir files) in
      ret (sort.Strings dirs, None)
  end.
End Helpers.

Definition mapStrings (input : list string) (fn : string -> string) : list string :=
  map fn input.

Notation "r1 +> r2" := (regexp.Cat r1 r2) (at level 60, right associativity).

(** The element of a submatch slice at an index the code has checked. *)
Definition at_ (matches : list string) (i : nat) : string :=
  nth i matches EmptyString.

(* ================================================================= *)
(** ** s6.go *)

Record S6 : Type := mkS6 {
  S6_BaseDir : string;
  S6_DebugMode : bool
}.

Definition S6_fullService (o : S6) (s : string) : string :=
  filepath.Join [S6_BaseDir o; s].

(** [(up|down) \(([^\)]+)\) (\d+)/] *)
Definition s6StatusRegexp : regexp.Regexp :=
  regexp.Capture 1 (regexp.Alt (regexp.Lit "up") (regexp.Lit "down")) +>
  regexp.Lit " (" +>
  regexp.Capture 2 (regexp.Plus (regexp.notByte ")")) +>
  regexp.Lit ") " +>
  regexp.Capture 3 (regexp.Plus regexp.digit) +>
  regexp.Lit "/".

(** [pid (\d+)] *)
Definition s6PidRegexp : regexp.Regexp :=
  regexp.Lit "pid " +> regexp.Capture 1 (regexp.Plus regexp.digit).

Section S6.
Variable os : OS.

Definition S6_runCmd (o : S6) (cmdName subCmd : string) (args : list string)
  : M (string * option error) :=
  CombinedOutput os (mkCmd cmdName (subCmd :: args) None).

(** The statements of the loop of [Status] after the status text is
    read. *)
Definition S6_Status_parse (o : S6) (svcName raw : string) (svcs : list Service)
  : Flow (list Service) (list Service * option error) :=
  let matches := regexp.FindSubmatch s6StatusRegexp raw in
  if negb (Nat.eqb (List.length matches) 4) then
    if S6_DebugMode o then
      Return (svcs, Some (fmt_Errorf "failed parsing %q status output: %q"
                                     [ArgString svcName; ArgBytes raw]))
    else Continue svcs
  else
    let svc := mkService svcName StatusUp 0 0 in
    svc <-- (if String.eqb (at_ matches 1) "up" then Continue (withStatus svc StatusUp)
             else if String.eqb (at_ matches 1) "down" then Continue (withStatus svc StatusDown)
             else if S6_DebugMode o then
               Return (svcs, Some (fmt_Errorf "failed parsing %q status: %q"
                                              [ArgString svcName; ArgBytes (at_ matches 1)]))
             else Continue (withStatus svc StatusUnknown)) ;;;
    svc <-- (if nonEmpty (at_ matches 2) then
               let pm := regexp.FindSubmatch s6PidRegexp (at_ matches 2) in
               if Nat.eqb (List.length pm) 2 then
                 let '(pid, err) := strconv.Atoi (at_ pm 1) in
                 let svc := withPid svc pid in
                 if isSome err && S6_DebugMode o then
                   Return (svcs, Some (fmt_Errorf "failed parsing %q pid %q: %s"
                                                  [ArgString svcName; ArgBytes (at_ pm 1); ArgError err]))
                 else Continue svc
               else Continue svc
             else Continue svc) ;;;
    svc <-- (if nonEmpty (at_ matches 3) then
               let '(d, err) := time.ParseDuration (at_ matches 3) in
               let svc := withDuration svc d in
               if isSome err && S6_DebugMode o then
                 Return (svcs, Some (fmt_Errorf "failed parsing %q duration %q: %s"
                                                [ArgString svcName; ArgBytes (at_ matches 3); ArgError err]))
               else Continue svc
             else Continue svc) ;;;
    Continue (svcs ++ [svc])%list.

Definition S6_Status_body (o : S6) (dir : string) (svcs : list Service)
  : M (Flow (list Service) (list Service * option error)) :=
  let svcName := filepath.Base dir in
  '(raw, err) <- S6_runCmd o "s6-svstat" (filepath.Join [S6_BaseDir o; dir]) [] ;;
  match err with
  | Some e =>
      if S6_DebugMode o then
        ret (Return (svcs, Some (fmt_Errorf "failed reading status of %q: %w"
                                            [ArgString svcName; ArgError (Some e)])))
      else ret (Continue svcs)
  | None => ret (S6_Status_parse o svcName raw svcs)
  end.

Definition S6_Status (o : S6) : M (list Service * option error) :=
  '(dirs, err) <- serviceDirs os (S6_BaseDir o) ;;
  match err with
  | Some e =>
      ret ([], Some (fmt_Errorf "failed finding service directories: %w"
                                [ArgError (Some e)]))
  | None =>
      f <- forRange dirs (S6_Status_body o) [] ;;
      match f with
      | Return r => ret r
      | Continue svcs => ret (svcs, None)
      end
  end.

(** The [switch] of [Signal]: the flag of [s6-svc] for a signal. *)
Definition S6_signals (signal : os_Signal) : option string :=
  if isSignal signal syscall.SIGALRM then Some "-a"
  else if isSignal signal syscall.SIGABRT then Some "-b"
  else if isSignal signal syscall.SIGQUIT then Some "-q"
  else if isSignal signal syscall.SIGHUP then Some "-h"
  else if isSignal signal syscall.SIGKILL then Some "-k"
  else if isSignal signal syscall.SIGTERM then Some "-t"
  else if isSignal signal syscall.SIGINT then Some "-i"
  else if isSignal signal syscall.SIGUSR1 then Some "-1"
  else if isSignal signal syscall.SIGUSR2 then Some "-2"
  else if isSignal signal syscall.SIGCONT then Some "-c"
  else if isSignal signal syscall.SIGWINCH then Some "-y"
  else None.

Definition S6_Signal_body (o : S6) (cmd : string) (svc : string) (_ : unit)
  : M (Flow unit (option error)) :=
  '(_, err) <- S6_runCmd o "s6-svc" cmd [S6_fullService o svc] ;;
  match err with
  | Some e =>
      ret (Return (Some (fmt_Errorf "failed signaling %s: %s"
                                    [ArgString svc; ArgError (Some e)])))
  | None => ret (Continue tt)
  end.

Definition S6_Signal (o : S6) (signal : os_Signal) (svcs : list string)
  : M (option error) :=
  match S6_signals signal with
  | None => ret (Some ErrUnsupportedSignal)
  | Some cmd =>
      f <- forRange svcs (S6_Signal_body o cmd) tt ;;
      match f with
      | Return r => ret r
      | Continue _ => ret None
      end
  end.

Definition S6_Rescan (o : S6) : M (option error) :=
  '(_, err) <- S6_runCmd o "s6-svscanctl" "-a" [S6_BaseDir o] ;;
  ret err.
End S6.

(* ================================================================= *)
(** ** runit.go *)

Record Runit : Type := mkRunit {
  Runit_BaseDir : string;
  Runit_DebugMode : bool
}.

Definition Runit_fullSvcs (o : Runit) (ss : list string) : list string :=
  mapStrings ss (fun s => filepath.Join [Runit_BaseDir o; s]).

(** [^([^:]+):[^:]+:(?: \(pid (\d+)\))? (\d+s)] *)
Definition runitStatusRegexp : regexp.Regexp :=
  regexp.BeginText +>
  regexp.Capture 1 (regexp.Plus (regexp.notByte ":")) +>
  regexp.Lit ":" +>
  regexp.Plus (regexp.notByte ":") +>
  regexp.Lit ":" +>
  regexp.Quest (regexp.Lit " (pid " +>
                regexp.Capture 2 (regexp.Plus regexp.digit) +>
                regexp.Lit ")") +>
  regexp.Lit " " +>
  regexp.Capture 3 (regexp.Plus regexp.digit +> regexp.Lit "s").

(** [log: \(pid (\d+)\)] *)
Definition runitLoggerRegexp : regexp.Regexp :=
  regexp.Lit "log: (pid " +>
  regexp.Capture 1 (regexp.Plus regexp.digit) +>
  regexp.Lit ")".

Section Runit.
Variable os : OS.

Definition Runit_runCmd (o : Runit) (subCmd : string) (args : list string)
  : M (string * option error) :=
  let full := subCmd :: args in
  CombinedOutput os (mkCmd "sv" full (Some ["SVDIR=" ++ Runit_BaseDir o])).

(** The statements of the loop of [Status] after the status text is
    read. *)
Definition Runit_Status_parse (o : Runit) (svcName raw : string) (svcs : list Service)
  : Flow (list Service) (list Service * option error) :=
  let matches := regexp.FindSubmatch runitStatusRegexp raw in
  if negb (Nat.eqb (List.length matches) 4) then
    if Runit_DebugMode o then
      Return (svcs, Some (fmt_Errorf "failed parsing %q status output: %q"
                                     [ArgString svcName; ArgBytes raw]))
    else Continue svcs
  else
    let svc := mkService svcName StatusUp 0 0 in
    svc <-- (if String.eqb (at_ matches 1) "run" then Continue (withStatus svc StatusUp)
             else if String.eqb (at_ matches 1) "down" then Continue (withStatus svc StatusDown)
             else if String.eqb (at_ matches 1) "backoff" then Continue (withStatus svc StatusBackoff)
             else if String.eqb (at_ matches 1) "disabled" then Continue (withStatus svc StatusDisabled)
             else if Runit_DebugMode o then
               Return (svcs, Some (fmt_Errorf "failed parsing %q status: %q"
                                              [ArgString svcName; ArgBytes (at_ matches 1)]))
             else Continue (withStatus svc StatusUnknown)) ;;;
    svc <-- (if nonEmpty (at_ matches 2) then
               let '(pid, err) := strconv.Atoi (at_ matches 2) in
               let svc := withPid svc pid in
               if isSome err && Runit_DebugMode o then
                 Return (svcs, Some (fmt_Errorf "failed parsing %q pid %q: %s"
                                                [ArgString svcName; ArgBytes (at_ matches 2); ArgError err]))
               else Continue svc
             else Continue svc) ;;;
    svc <-- (if nonEmpty (at_ matches 3) then
               let '(d, err) := time.ParseDuration (at_ matches 3) in
               let svc := withDuration svc d in
               if isSome err && Runit_DebugMode o then
                 Return (svcs, Some (fmt_Errorf "failed parsing %q duration %q: %s"
                                                [ArgString svcName; ArgBytes (at_ matches 3); ArgError err]))
               else Continue svc
             else Continue svc) ;;;
    Continue (svcs ++ [svc])%list.

Definition Runit_Status_body (o : Runit) (dir : string) (svcs : list Service)
  : M (Flow (list Service) (list Service * option error)) :=
  let svcName := filepath.Base dir in
  '(raw, err) <- Runit_runCmd o "status" [dir] ;;
  match err with
  | Some e =>
      if Runit_DebugMode o then
        ret (Return (svcs, Some (fmt_Errorf "failed reading status of %q: %w"
                                            [ArgString svcName; ArgError (Some e)])))
      else ret (Continue svcs)
  | None => ret (Runit_Status_parse o svcName raw svcs)
  end.

Definition Runit_Status (o : Runit) : M (list Service * option error) :=
  '(dirs, err) <- serviceDirs os (Runit_BaseDir o) ;;
  match err with
  | Some e =>
      ret ([], Some (fmt_Errorf "failed finding service directories: %w"
                                [ArgError (Some e)]))
  | None =>
      f <- forRange dirs (Runit_Status_body o) [] ;;
      match f with
      | Return r => ret r
      | Continue svcs => ret (svcs, None)
      end
  end.

(** The [switch] of [Signal]: the subcommand of [sv] for a signal. *)
Definition Runit_signals (signal : os_Signal) : option string :=
  if isSignal signal syscall.SIGSTOP then Some "pause"
  else if isSignal signal syscall.SIGCONT then Some "cont"
  else if isSignal signal syscall.SIGHUP then Some "hup"
  else if isSignal signal syscall.SIGALRM then Some "alarm"
  else if isSignal signal syscall.SIGINT then Some "interrupt"
  else if isSignal signal syscall.SIGQUIT then Some "quit"
  else if isSignal signal syscall.SIGUSR1 then Some "1"
  else if isSignal signal syscall.SIGUSR2 then Some "2"
  else if isSignal signal syscall.SIGTERM then Some "term"
  else if isSignal signal syscall.SIGKILL then Some "kill"
  else None.

Definition Runit_Signal (o : Runit) (signal : os_Signal) (svcs : list string)
  : M (option error) :=
  match Runit_signals signal with
  | None => ret (Some ErrUnsupportedSignal)
  | Some cmd =>
      '(_, err) <- Runit_runCmd o cmd (Runit_fullSvcs o svcs) ;;
      ret err
  end.

(** [Fg].  The goroutine that forwards an interrupt to the [tail] process
    acts only on that process; what it does shows in the outcome of
    [Wait]. *)
Definition Runit_Fg (o : Runit) (svc : string) : M (option error) :=
  (* find the pid of the logging process *)
  '(txt, err) <- Runit_runCmd o "status" [filepath.Join [Runit_BaseDir o; svc]] ;;
  match err with
  | Some e =>
      ret (Some (fmt_Errorf "failed getting service status: %w" [ArgError (Some e)]))
  | None =>
      let matches := regexp.FindSubmatch runitLoggerRegexp txt in
      if negb (Nat.eqb (List.length matches) 2) then
        ret (Some (fmt_Errorf "failed parsing logger process status: %w" [ArgError None]))
      else
        let '(pid, err) := strconv.Atoi (at_ matches 1) in
        match err with
        | Some e =>
            ret (Some (fmt_Errorf "failed parsing logger process pid %q: %w"
                                  [ArgBytes (at_ matches 1); ArgError (Some e)]))
        | None =>
            '(file, err) <- findLogFile os pid ;;
            match err with
            | Some e =>
                ret (Some (fmt_Errorf "failed finding log file: %w" [ArgError (Some e)]))
            | None =>
                if String.eqb file "" then ret (Some (fmt_Errorf "no log file found" []))
                else
                  let cmd := mkCmd "tail" ["-f"; file] None in
                  err <- Start os cmd ;;
                  match err with
                  | Some e =>
                      ret (Some (fmt_Errorf "failed starting tail: %w" [ArgError (Some e)]))
                  | None =>
                      werr <- Wait os cmd ;;
                      match werr with
                      | Some msg =>
                          if negb (HasPrefix msg "signal:") then
                            ret (Some (fmt_Errorf "failed tailing log: %w"
                                                  [ArgError (Some (os_error msg))]))
                          else ret None
                      | None => ret None
                      end
                  end
            end
        end
  end.

Definition Runit_Rescan (o : Runit) : M (option error) :=
  ret (Some ErrUnsupportedCommand).
End Runit.

(* ================================================================= *)
(** ** The Supervisor interface

    A value of the interface [Supervisor] holds one of its two
    implementations in the package; a method called on it is the method of
    that implementation. *)

Inductive Supervisor : Type :=
| ofRunit (o : Runit)
| ofS6 (o : S6).

Definition BaseDir (sup : Supervisor) : string :=
  match sup with
  | ofRunit o => Runit_BaseDir o
  | ofS6 o => S6_BaseDir o
  end.

Definition DebugMode (sup : Supervisor) : bool :=
  match sup with
  | ofRunit o => Runit_DebugMode o
  | ofS6 o => S6_DebugMode o
  end.

(** The same supervisor with its [DebugMode] field set to [b]. *)
Definition withDebugMode (sup : Supervisor) (b : bool) : Supervisor :=
  match sup with
  | ofRunit o => ofRunit (mkRunit (Runit_BaseDir o) b)
  | ofS6 o => ofS6 (mkS6 (S6_BaseDir o) b)
  end.

Definition Supervisor_Status (os : OS) (sup : Supervisor)
  : M (list Service * option error) :=
  match sup with
  | ofRunit o => Runit_Status os o
  | ofS6 o => S6_Status os o
  end.

Definition Supervisor_Signal (os : OS) (sup : Supervisor)
           (signal : os_Signal) (svcs : list string) : M (option error) :=
  match sup with
  | ofRunit o => Runit_Signal os o signal svcs
  | ofS6 o => S6_Signal os o signal svcs
  end.

(** The body of the loop of [Status]. *)
Definition Status_body (os : OS) (sup : Supervisor)
  : string -> list Service -> M (Flow (list Service) (list Service * option error)) :=
  match sup with
  | ofRunit o => Runit_Status_body os o
  | ofS6 o => S6_Status_body os o
  end.

(** The service directories [serviceDirs] makes of the entries [files]. *)
Definition dirsOf (files : list FileInfo) : list string :=
  sort.Strings (map fi_Name (filter IsDir files)).

(** The signal table of a suite: the [switch] of its [Signal]. *)
Definition signals (sup : Supervisor) (signal : os_Signal) : option string :=
  match sup with
  | ofRunit _ => Runit_signals signal
  | ofS6 _ => S6_signals signal
  end.

(** The subprocesses that deliver [cmd] to the services [svcs]: one [sv]
    naming them all for Runit, one [s6-svc] for each of them for S6. *)
Definition signalCmds (sup : Supervisor) (cmd : string) (svcs : list string) : list Cmd :=
  match sup with
  | ofRunit o =>
      [mkCmd "sv" (cmd :: Runit_fullSvcs o svcs) (Some ["SVDIR=" ++ Runit_BaseDir o])]
  | ofS6 o =>
      map (fun svc => mkCmd "s6-svc" [cmd; S6_fullService o svc] None) svcs
  end.

(** The subprocess [Status] runs for the service directory [dir]. *)
Definition statusCmd (sup : Supervisor) (dir : string) : Cmd :=
  match sup with
  | ofRunit o => mkCmd "sv" ["status"; dir] (Some ["SVDIR=" ++ Runit_BaseDir o])
  | ofS6 o => mkCmd "s6-svstat" [filepath.Join [S6_BaseDir o; dir]] None
  end.

Definition statusRegexp (sup : Supervisor) : regexp.Regexp :=
  match sup with
  | ofRunit _ => runitStatusRegexp
  | ofS6 _ => s6StatusRegexp
  end.

Definition Status_parse (sup : Supervisor) (svcName raw : string) (svcs : list Service)
  : Flow (list Service) (list Service * option error) :=
  match sup with
  | ofRunit o => Runit_Status_parse o svcName raw svcs
  | ofS6 o => S6_Status_parse o svcName raw svcs
  end.

(** The service [Status] makes of the status text [raw] of the directory
    [dir], when it makes one. *)
Definition parseLine (sup : Supervisor) (dir raw : string) : option Service :=
  match Status_parse sup (filepath.Base dir) raw [] with
  | Continue [svc] => Some svc
  | _ => None
  end.

(** The services made of the status texts [raws] of the directories
    [dirs], in order, leaving out the texts that give none. *)
Fixpoint parsedServices (sup : Supervisor) (dirs raws : list string) : list Service :=
  match dirs, raws with
  | dir :: dirs', raw :: raws' =>
      match parseLine sup dir raw with
      | Some svc => svc :: parsedServices sup dirs' raws'
      | None => parsedServices sup dirs' raws'
      end
  | _, _ => []
  end.

(** The state tokens a suite's [switch] names. *)
Definition knownState (sup : Supervisor) (state : string) : bool :=
  match sup with
  | ofRunit _ =>
      String.eqb state "run" || String.eqb state "down" ||
      String.eqb state "backoff" || String.eqb state "disabled"
  | ofS6 _ => String.eqb state "up" || String.eqb state "down"
  end.

(** The status text matches the suite's pattern and its pid group took no
    part in the match: for Runit the second group is empty, for S6 the
    detail blob holds no [pid <N>]. *)
Definition pidGroupAbsent (sup : Supervisor) (raw : string) : bool :=
  let m := regexp.FindSubmatch (statusRegexp sup) raw in
  Nat.eqb (List.length m) 4 &&
  match sup with
  | ofRunit _ => negb (nonEmpty (at_ m 2))
  | ofS6 _ => negb (Nat.eqb (List.length (regexp.FindSubmatch s6PidRegexp (at_ m 2))) 2)
  end.

(** The state token of the text is one the suite names and its duration
    token is accepted by [time.ParseDuration]. *)
Definition restWellFormed (sup : Supervisor) (raw : string) : bool :=
  let m := regexp.FindSubmatch (statusRegexp sup) raw in
  knownState sup (at_ m 1) && negb (isSome (snd (time.ParseDuration (at_ m 3)))).

(** [outputs os cmdOf tr dirs raws]: run one after the other from the
    history [tr], the subprocesses [cmdOf dir] for [dir] in [dirs] all
    succeed, and their outputs are [raws]. *)
Inductive outputs (os : OS) (cmdOf : string -> Cmd)
  : Trace -> list string -> list string -> Prop :=
| outputs_nil : forall tr, outputs os cmdOf tr [] []
| outputs_cons : forall tr dir dirs raw raws,
    exec_CombinedOutput os tr (cmdOf dir) = (raw, None) ->
    outputs os cmdOf (tr ++ [EvCombinedOutput (cmdOf dir)])%list dirs raws ->
    outputs os cmdOf tr (dir :: dirs) (raw :: raws).

(** [noCurrent os dir tr links]: read one after the other from the history
    [tr], every symbolic link among the entries [links] of [dir/fd] is
    resolved, and none of them leads to a file named [current]. *)
Inductive noCurrent (os : OS) (dir : string) : Trace -> list FileInfo -> Prop :=
| noCurrent_nil : forall tr, noCurrent os dir tr []
| noCurrent_other : forall tr link links,
    Z.land (fi_Mode link) ModeSymlink = 0 ->
    noCurrent os dir tr links ->
    noCurrent os dir tr (link :: links)
| noCurrent_link : forall tr link links target,
    Z.land (fi_Mode link) ModeSymlink <> 0 ->
    os_Readlink os tr (filepath.Join [dir; "fd"; fi_Name link]) = (target, None) ->
    filepath.Base target <> "current" ->
    noCurrent os dir (tr ++ [EvReadlink (filepath.Join [dir; "fd"; fi_Name link])])%list links ->
    noCurrent os dir tr (link :: links).

(** The status subprocesses of the directories [dirs], as events. *)
Definition statusEvents (sup : Supervisor) (dirs : list string) : Trace :=
  map (fun dir => EvCombinedOutput (statusCmd sup dir)) dirs.

(** The subprocess [Fg] asks for the status of the service [svc]. *)
Definition Fg_statusCmd (o : Runit) (svc : string) : Cmd :=
  mkCmd "sv" ["status"; filepath.Join [Runit_BaseDir o; svc]]
        (Some ["SVDIR=" ++ Runit_BaseDir o]).

(** The directory of the process [pid] under [/proc]. *)
Definition procDir (pid : Z) : string :=
  filepath.Join ["/proc"; strconv.Itoa pid].

(** [noLogDescriptor os pid tr]: from the history [tr], the executable of
    the process [pid] is resolved and, when it is one of the known loggers,
    its descriptors are listed and resolved and none of them leads to a
    file named [current]. *)
Definition noLogDescriptor (os : OS) (pid : Z) (tr : Trace) : Prop :=
  exists exe,
    os_Readlink os tr (filepath.Join [procDir pid; "/exe"]) = (exe, None) /\
    (isLogger (filepath.Base exe) = true ->
     exists links,
       ioutil_ReadDir os (tr ++ [EvReadlink (filepath.Join [procDir pid; "/exe"])])%list
                      (filepath.Join [procDir pid; "fd"]) = (links, None) /\
       noCurrent os (procDir pid)
                 (tr ++ [EvReadlink (filepath.Join [procDir pid; "/exe"]);
                         EvReadDir (filepath.Join [procDir pid; "fd"])])%list
                 links).

(** A name a directory entry can have: not empty, and without a slash. *)
Fixpoint noSlash (s : string) : bool :=
  match s with
  | EmptyString => true
  | String c s' => negb (filepath.isSlash c) && noSlash s'
  end.

Definition validName (s : string) : bool := nonEmpty s && noSlash s.

(** The order of [sort.Strings]. *)
Definition string_le (a b : string) : Prop := String.leb a b = true.

(** [l1] is [l2] with some elements left out. *)
Inductive subseq {A : Type} : list A -> list A -> Prop :=
| subseq_nil : subseq [] []
| subseq_skip : forall x l1 l2, subseq l1 l2 -> subseq l1 (x :: l2)
| subseq_take : forall x l1 l2, subseq l1 l2 -> subseq (x :: l1) (x :: l2).

(* ================================================================= *)
(** ** Concrete systems *)

(** An operating system whose answers do not change with time, and in
    which [tail] starts and ends without an error. *)
Definition staticOS (entries : string -> list FileInfo * option error)
           (links : string -> string * option error)
           (run : Cmd -> string * option error) : OS :=
  mkOS (fun _ => entries) (fun _ => links) (fun _ => run)
       (fun _ _ => None) (fun _ _ => None).

Definition noEntry : option error := Some (os_error "no such file or directory").
Definition exitStatus1 : option error := Some (os_error "exit status 1").

Definition dirEntry (name : string) : FileInfo := mkFileInfo name (Z.lor ModeDir 493).
Definition fileEntry (name : string) : FileInfo := mkFileInfo name 420.
Definition linkEntry (name : string) : FileInfo := mkFileInfo name (Z.lor ModeSymlink 448).

(** A base directory [/service] with the service directories [web] and
    [db] and a plain file, where the status text of [web] is [web] and that
    of [db] is [db], for both suites. *)
Definition webDbOS (web db : string) : OS :=
  staticOS
    (fun path =>
       if String.eqb path "/service"
       then ([dirEntry "web"; fileEntry "README"; dirEntry "db"], None)
       else ([], noEntry))
    (fun _ => (EmptyString, noEntry))
    (fun c =>
       match cmd_Name c, cmd_Args c with
       | "sv", ["status"; "web"] => (web, None)
       | "sv", ["status"; "db"] => (db, None)
       | "s6-svstat", ["/service/web"] => (web, None)
       | "s6-svstat", ["/service/db"] => (db, None)
       | _, _ => (EmptyString, exitStatus1)
       end).

(** A base directory [/service] with the service directories [cache],
    [db] and [web], with the given status texts, for both suites. *)
Definition cacheDbWebOS (cache db web : string) : OS :=
  staticOS
    (fun path =>
       if String.eqb path "/service"
       then ([dirEntry "web"; dirEntry "cache"; dirEntry "db"], None)
       else ([], noEntry))
    (fun _ => (EmptyString, noEntry))
    (fun c =>
       match cmd_Name c, cmd_Args c with
       | "sv", ["status"; "cache"] => (cache, None)
       | "sv", ["status"; "db"] => (db, None)
       | "sv", ["status"; "web"] => (web, None)
       | "s6-svstat", ["/service/cache"] => (cache, None)
       | "s6-svstat", ["/service/db"] => (db, None)
       | "s6-svstat", ["/service/web"] => (web, None)
       | _, _ => (EmptyString, exitStatus1)
       end).

(** The service [web] is logged by the process 456, an [svlogd] whose
    descriptors are [0], a pipe, and [3], the file [lock] of the log
    directory: the log directory holds no [current] yet. *)
Definition noCurrentOS : OS :=
  staticOS
    (fun path =>
       if String.eqb path "/proc/456/fd" then ([linkEntry "0"; linkEntry "3"], None)
       else ([], noEntry))
    (fun path =>
       if String.eqb path "/proc/456/exe" then ("/usr/bin/svlogd", None)
       else if String.eqb path "/proc/456/fd/0" then ("pipe:[1234]", None)
       else if String.eqb path "/proc/456/fd/3" then ("/var/log/web/lock", None)
       else (EmptyString, noEntry))
    (fun c =>
       match cmd_Name c, cmd_Args c with
       | "sv", ["status"; "/service/web"] =>
           ("run: /service/web: (pid 123) 45s; run: log: (pid 456) 45s", None)
       | _, _ => (EmptyString, exitStatus1)
       end).

(** A system in which every subprocess naming [/service/a] fails and every
    other one succeeds. *)
Definition failingOnA : OS :=
  staticOS
    (fun _ => ([], noEntry))
    (fun _ => (EmptyString, noEntry))
    (fun c =>
       if existsb (String.eqb "/service/a") (cmd_Args c)
       then ("s6-svc: fatal: unable to control /service/a", exitStatus1)
       else (EmptyString, None)).

(* ================================================================= *)
(** ** s6.go and runit.go: starting, stopping, restarting, terminating *)

(** [strings.Contains]: [substr] occurs in [s], byte for byte. *)
Fixpoint strings_Contains (s substr : string) : bool :=
  if HasPrefix s substr then true
  else
    match s with
    | EmptyString => false
    | String _ s' => strings_Contains s' substr
    end.

Section Commands.
Variable os : OS.

Definition S6_Start_body (o : S6) (svc : string) (_ : unit)
  : M (Flow unit (option error)) :=
  '(_, err) <- S6_runCmd os o "s6-svc" "-u" [S6_fullService o svc] ;;
  match err with
  | Some e =>
      ret (Return (Some (fmt_Errorf "failed restarting %s: %s"
                                    [ArgString svc; ArgError (Some e)])))
  | None => ret (Continue tt)
  end.

Definition S6_Start (o : S6) (svcs : list string) : M (option error) :=
  f <- forRange svcs (S6_Start_body o) tt ;;
  match f with
  | Return r => ret r
  | Continue _ => ret None
  end.

Definition S6_Stop_body (o : S6) (svc : string) (_ : unit)
  : M (Flow unit (option error)) :=
  '(_, err) <- S6_runCmd os o "s6-svc" "-Dd" [S6_fullService o svc] ;;
  match err with
  | Some e =>
      ret (Return (Some (fmt_Errorf "failed restarting %s: %s"
                                    [ArgString svc; ArgError (Some e)])))
  | None => ret (Continue tt)
  end.

Definition S6_Stop (o : S6) (svcs : list string) : M (option error) :=
  f <- forRange svcs (S6_Stop_body o) tt ;;
  match f with
  | Return r => ret r
  | Continue _ => ret None
  end.

Definition S6_Restart_body (o : S6) (svc : string) (_ : unit)
  : M (Flow unit (option error)) :=
  '(_, err) <- S6_runCmd os o "s6-svc" "-q" [S6_fullService o svc] ;;
  match err with
  | Some e =>
      ret (Return (Some (fmt_Errorf "failed restarting %s: %s"
                                    [ArgString svc; ArgError (Some e)])))
  | None => ret (Continue tt)
  end.

Definition S6_Restart (o : S6) (svcs : list string) : M (option error) :=
  f <- forRange svcs (S6_Restart_body o) tt ;;
  match f with
  | Return r => ret r
  | Continue _ => ret None
  end.

Definition S6_Terminate (o : S6) : M (option error) :=
  '(_, err) <- S6_runCmd os o "s6-svscanctl" "-t" [S6_BaseDir o] ;;
  ret err.

Definition Runit_Start (o : Runit) (svcs : list string) : M (option error) :=
  '(_, err) <- Runit_runCmd os o "up" (Runit_fullSvcs o svcs) ;;
  ret err.

Definition Runit_Stop (o : Runit) (svcs : list string) : M (option error) :=
  '(_, err) <- Runit_runCmd os o "down" (Runit_fullSvcs o svcs) ;;
  ret err.

Definition Runit_Restart (o : Runit) (svcs : list string) : M (option error) :=
  '(_, err) <- Runit_runCmd os o "quit" (Runit_fullSvcs o svcs) ;;
  ret err.
End Commands.

(** The methods as called through the interface. *)
Definition Supervisor_Start (os : OS) (sup : Supervisor) (svcs : list string)
  : M (option error) :=
  match sup with
  | ofRunit o => Runit_Start os o svcs
  | ofS6 o => S6_Start os o svcs
  end.

Definition Supervisor_Stop (os : OS) (sup : Supervisor) (svcs : list string)
  : M (option error) :=
  match sup with
  | ofRunit o => Runit_Stop os o svcs
  | ofS6 o => S6_Stop os o svcs
  end.

Definition Supervisor_Restart (os : OS) (sup : Supervisor) (svcs : list string)
  : M (option error) :=
  match sup with
  | ofRunit o => Runit_Restart os o svcs
  | ofS6 o => S6_Restart os o svcs
  end.

(** The flag or subcommand by which each suite starts, stops and restarts
    a service. *)
Inductive Action : Type := ActStart | ActStop | ActRestart.

Definition Supervisor_act (os : OS) (sup : Supervisor) (a : Action)
  : list string -> M (option error) :=
  match a with
  | ActStart => Supervisor_Start os sup
  | ActStop => Supervisor_Stop os sup
  | ActRestart => Supervisor_Restart os sup
  end.

Definition actionCmd (sup : Supervisor) (a : Action) : string :=
  match sup, a with
  | ofRunit _, ActStart => "up"
  | ofRunit _, ActStop => "down"
  | ofRunit _, ActRestart => "quit"
  | ofS6 _, ActStart => "-u"
  | ofS6 _, ActStop => "-Dd"
  | ofS6 _, ActRestart => "-q"
  end.

(** ** [Runit.Terminate]

    The process tree and the delivery of signals are no part of [OS]:
    [Terminate] is given the processes [pstree.New] found, in the order in
    which the [range] over the map [tree.Procs] visits them (an order Go
    leaves open), and an oracle for [syscall.Kill] that answers from the
    signals sent so far.  Of a [pstree.Process] the code reads the name
    only. *)

Record Process : Type := mkProcess {
  proc_Name : string
}.

(** A signal sent with [syscall.Kill]: the pid and the signal. *)
Definition Sent : Type := (Z * syscall.Signal)%type.

Section Terminate.
Variable pstree_New : list (Z * Process) * option error.
Variable syscall_Kill : list Sent -> Z -> syscall.Signal -> option error.

(** The loop over [tree.Procs].  The [%d] argument of the error is kept
    as its decimal text. *)
Fixpoint Runit_Terminate_range (o : Runit) (procs : list (Z * Process))
         (sent : list Sent) : option error * list Sent :=
  match procs with
  | [] => (None, sent)
  | (pid, proc) :: procs' =>
      if strings_Contains (proc_Name proc) ("runsvdir " ++ Runit_BaseDir o) then
        match syscall_Kill sent pid syscall.SIGHUP with
        | Some e =>
            (Some (fmt_Errorf "failed killing runsvdir process %d: %w"
                              [ArgString (strconv.Itoa pid); ArgError (Some e)]),
             (sent ++ [(pid, syscall.SIGHUP)])%list)
        | None =>
            Runit_Terminate_range o procs' (sent ++ [(pid, syscall.SIGHUP)])%list
        end
      else Runit_Terminate_range o procs' sent
  end.

Definition Runit_Terminate (o : Runit) (sent : list Sent)
  : option error * list Sent :=
  (* we need to find the pid of the runsvdir process *)
  match pstree_New with
  | (_, Some e) =>
      (Some (fmt_Errorf "failed fetching process tree: %w" [ArgError (Some e)]), sent)
  | (procs, None) => Runit_Terminate_range o procs sent
  end.
End Terminate.

(** The processes [Terminate] takes for the [runsvdir] of its base
    directory. *)
Definition isRunsvdir (o : Runit) (p : Z * Process) : bool :=
  strings_Contains (proc_Name (snd p)) ("runsvdir " ++ Runit_BaseDir o).

Definition hangups (ps : list (Z * Process)) : list Sent :=
  map (fun p => (fst p, syscall.SIGHUP)) ps.

(* ================================================================= *)
(** ** main.go: the shell's commands

    [strings.ToLower] and [strings.ToUpper] map Unicode letters; what the
    shell does with their results holds for the two functions whatever
    they return, so they are left open here. *)

(** The map [signals] of the [main] package. *)
Definition main_signals : list (string * os_Signal) :=
  [("hup", ofSyscall syscall.SIGHUP);
   ("int", ofSyscall syscall.SIGINT);
   ("quit", ofSyscall syscall.SIGQUIT);
   ("kill", ofSyscall syscall.SIGKILL);
   ("usr1", ofSyscall syscall.SIGUSR1);
   ("usr2", ofSyscall syscall.SIGUSR2);
   ("alrm", ofSyscall syscall.SIGALRM);
   ("term", ofSyscall syscall.SIGTERM);
   ("cont", ofSyscall syscall.SIGCONT);
   ("winch", ofSyscall syscall.SIGWINCH)].

(** [m[key]] on a map with string keys. *)
Fixpoint mapIndex {V : Type} (m : list (string * V)) (key : string) : option V :=
  match m with
  | [] => None
  | (k, v) :: m' => if String.eqb k key then Some v else mapIndex m' key
  end.

(** A call of [c.Printf]: the format and its arguments. *)
Inductive Output : Type :=
| Printf (format : string) (args : list fmtArg).

(** A line feed, the byte the escape at the end of the shell's formats
    stands for. *)
Definition newline : string := String (ascii_of_nat 10) EmptyString.

Section Main.
Variable os : OS.
Variable strings_ToLower : string -> string.
Variable strings_ToUpper : string -> string.

(** [parseSignal]; the signal is [None] for the nil interface value. *)
Definition parseSignal (s : string) : option os_Signal * option error :=
  match mapIndex main_signals (strings_ToLower s) with
  | Some sig => (Some sig, None)
  | None =>
      match mapIndex main_signals (strings_ToUpper s) with
      | Some sig => (Some sig, None)
      | None => (None, Some ErrUnsupportedSignal)
      end
  end.

(** [ctx.signal] on the arguments [c.Args]: what it prints, or [None] when
    it panics (an index out of range on [c.Args[0]]).  A nil signal, were
    [parseSignal] to return one without an error, takes the default branch
    of the switch of [Signal]. *)
Definition ctx_signal (suite : Supervisor) (Args : list string)
  : M (option (list Output)) :=
  match Args with
  | [] => ret None
  | name :: svcs =>
      match parseSignal name with
      | (_, Some e) => ret (Some [Printf ("Error: %s" ++ newline) [ArgError (Some e)]])
      | (None, None) =>
          ret (Some [Printf ("Error: %s" ++ newline)
                            [ArgError (Some ErrUnsupportedSignal)]])
      | (Some sig, None) =>
          err <- Supervisor_Signal os suite sig svcs ;;
          match err with
          | Some e => ret (Some [Printf ("Error: %s" ++ newline) [ArgError (Some e)]])
          | None => ret (Some [])
          end
      end
  end.

(** [ctx.autoCompleteService]; a nil slice and an empty one are both
    [[]]. *)
Definition autoCompleteService (suite : Supervisor) (s : string) (_ : list string)
  : M (list string) :=
  '(svcs, err) <- Supervisor_Status os suite ;;
  match err with
  | Some _ => ret []
  | None =>
      ret (map Service_Name
               (filter (fun svc =>
                          String.eqb s "" ||
                          HasPrefix (strings_ToLower (Service_Name svc))
                                    (strings_ToLower s))
                       svcs))
  end.
End Main.

(* ================================================================= *)
(** ** More notions for the statements *)

(** The byte after a repetition of the class is not of the class. *)
Definition stopsAt (cl : regexp.Class) (s : string) : Prop :=
  match s with
  | EmptyString => True
  | String c _ => regexp.inClass cl c = false
  end.

(** The pid part of a line of [sv status]: [ (pid <digits>)], or
    nothing. *)
Definition pidPart (pid : option string) : string :=
  match pid with
  | Some p => " (pid " ++ p ++ ")"
  | None => EmptyString
  end.

Definition pidDigits (pid : option string) : string :=
  match pid with
  | Some p => p
  | None => EmptyString
  end.

(** The links [findLogFile] resolves when it goes through the entries
    [links] of [dir/fd]: those whose mode has the symbolic-link bit. *)
Definition linkEvents (dir : string) (links : list FileInfo) : Trace :=
  map (fun link => EvReadlink (filepath.Join [dir; "fd"; fi_Name link]))
      (filter (fun link => negb (Z.land (fi_Mode link) ModeSymlink =? 0)) links).

(** The service [web] is logged by the process 456, an [svlogd] whose
    descriptors are [0], a pipe, [3], the file [current] of its log
    directory, and [4], the file [current] of another one. *)
Definition currentOS : OS :=
  staticOS
    (fun path =>
       if String.eqb path "/proc/456/fd"
       then ([linkEntry "0"; linkEntry "3"; linkEntry "4"], None)
       else ([], noEntry))
    (fun path =>
       if String.eqb path "/proc/456/exe" then ("/usr/bin/svlogd", None)
       else if String.eqb path "/proc/456/fd/0" then ("pipe:[1234]", None)
       else if String.eqb path "/proc/456/fd/3" then ("/var/log/web/current", None)
       else if String.eqb path "/proc/456/fd/4" then ("/var/log/old/current", None)
       else (EmptyString, noEntry))
    (fun c =>
       match cmd_Name c, cmd_Args c with
       | "sv", ["status"; "/service/web"] =>
           ("run: /service/web: (pid 123) 45s; run: log: (pid 456) 45s", None)
       | _, _ => (EmptyString, exitStatus1)
       end).

(** [succeed os tr cmds]: run to completion one after the other from the
    history [tr], the subprocesses [cmds] all end without an error. *)
Inductive succeed (os : OS) : Trace -> list Cmd -> Prop :=
| succeed_nil : forall tr, succeed os tr []
| succeed_cons : forall tr c cmds,
    snd (exec_CombinedOutput os tr c) = None ->
    succeed os (tr ++ [EvCombinedOutput c])%list cmds ->
    succeed os tr (c :: cmds).

(** [delivered Kill sent ps]: sent one after the other after the signals
    [sent], SIGHUP is delivered to each of the processes [ps]. *)
Inductive delivered (Kill : list Sent -> Z -> syscall.Signal -> option error)
  : list Sent -> list (Z * Process) -> Prop :=
| delivered_nil : forall sent, delivered Kill sent []
| delivered_cons : forall sent p ps,
    Kill sent (fst p) syscall.SIGHUP = None ->
    delivered Kill (sent ++ [(fst p, syscall.SIGHUP)])%list ps ->
    delivered Kill sent (p :: ps).

(** A line of [sv status] with nothing for debug mode to report: a state
    the [switch] of [Runit.Status] names, a colon, a name part, a colon,
    an optional pid part, a space, the seconds as [<digits>s], and anything
    after that; the name part is not empty and holds no colon, and the
    numbers fit an [int] and a [time.Duration]. *)
Definition runitLine (r : string) : Prop :=
  exists state mid pid d rest,
    r = state ++ ":" ++ mid ++ ":" ++ pidPart pid ++ " " ++ d ++ "s" ++ rest /\
    In state ["run"; "down"; "backoff"; "disabled"] /\
    mid <> EmptyString /\ regexp.allIn (regexp.notByte ":") mid = true /\
    match pid with
    | Some p => p <> EmptyString /\ regexp.allIn regexp.digit p = true /\
                decimal p 0 <= strconv.maxInt64
    | None => True
    end /\
    d <> EmptyString /\ regexp.allIn regexp.digit d = true /\
    decimal d 0 <= 9223372036.

(* ================================================================= *)
(** * Properties *)

(** ** The order of strings *)

Lemma ascii_compare_refl : forall a, Ascii.compare a a = Eq.
Proof. intros a. unfold Ascii.compare. apply N.compare_refl. Qed.

Lemma string_compare_refl : forall s, String.compare s s = Eq.
Proof.
  induction s as [|c s IH]; simpl; [reflexivity|].
  now rewrite ascii_compare_refl.
Qed.

Lemma string_compare_lt_trans : forall s1 s2 s3,
  String.compare s1 s2 = Lt -> String.compare s2 s3 = Lt -> String.compare s1 s3 = Lt.
Proof.
  induction s1 as [|a s1 IH]; intros [|b s2] [|c s3]; simpl; try congruence.
  unfold Ascii.compare.
  destruct (N.compare_spec (N_of_ascii a) (N_of_ascii b)) as [Eab|Lab|Gab];
    destruct (N.compare_spec (N_of_ascii b) (N_of_ascii c)) as [Ebc|Lbc|Gbc];
    intros H12 H23; try congruence.
  - rewrite Eab, Ebc, N.compare_refl. eauto.
  - rewrite Eab. now apply N.compare_lt_iff in Lbc as ->.
  - rewrite <- Ebc. now apply N.compare_lt_iff in Lab as ->.
  - assert (Lac : (N_of_ascii a < N_of_ascii c)%N) by lia.
    now apply N.compare_lt_iff in Lac as ->.
Qed.

Lemma string_le_refl : forall s, string_le s s.
Proof. intros s. unfold string_le, String.leb. now rewrite string_compare_refl. Qed.

Lemma string_le_trans : forall s1 s2 s3,
  string_le s1 s2 -> string_le s2 s3 -> string_le s1 s3.
Proof.
  unfold string_le, String.leb. intros s1 s2 s3 H12 H23.
  destruct (String.compare s1 s2) eqn:E12; try discriminate;
    destruct (String.compare s2 s3) eqn:E23; try discriminate.
  - apply String.compare_eq_iff in E12, E23. subst. now rewrite string_compare_refl.
  - apply String.compare_eq_iff in E12. subst. now rewrite E23.
  - apply String.compare_eq_iff in E23. subst. now rewrite E12.
  - now rewrite (string_compare_lt_trans _ _ _ E12 E23).
Qed.

Lemma string_le_total : forall s1 s2, string_le s1 s2 \/ string_le s2 s1.
Proof. intros. apply String.leb_total. Qed.

(** ** [sort.Strings] *)

Lemma insert_Permutation : forall x l, Permutation (x :: l) (sort.insert x l).
Proof.
  induction l as [|y l IH]; simpl; [reflexivity|].
  destruct (String.leb x y); [reflexivity|].
  rewrite perm_swap. now constructor.
Qed.

Lemma insert_HdRel : forall a x l,
  string_le a x -> HdRel string_le a l -> HdRel string_le a (sort.insert x l).
Proof.
  intros a x [|y l] Hax Hal; simpl; [now constructor|].
  destruct (String.leb x y); constructor; [assumption|now inversion Hal].
Qed.

Lemma insert_Sorted : forall x l,
  Sorted string_le l -> Sorted string_le (sort.insert x l).
Proof.
  induction l as [|y l IH]; simpl; intros Hs.
  - repeat constructor.
  - destruct (String.leb x y) eqn:E.
    + constructor; [assumption|now constructor].
    + inversion Hs; subst. constructor; [now apply IH|].
      apply insert_HdRel; [|assumption].
      destruct (string_le_total x y) as [H|H]; [unfold string_le in H; congruence|assumption].
Qed.

Lemma Strings_Permutation : forall l, Permutation l (sort.Strings l).
Proof.
  induction l as [|x l IH]; simpl; [reflexivity|].
  etransitivity; [|apply insert_Permutation]. now constructor.
Qed.

Lemma Strings_Sorted : forall l, StronglySorted string_le (sort.Strings l).
Proof.
  intros l. apply Sorted_StronglySorted; [exact string_le_trans|].
  induction l as [|x l IH]; simpl; [constructor|now apply insert_Sorted].
Qed.

Lemma Strings_In : forall x l, In x (sort.Strings l) <-> In x l.
Proof.
  intros x l; split; apply Permutation_in;
    [symmetry|]; apply Strings_Permutation.
Qed.

(** ** Subsequences *)

Lemma subseq_In : forall (A : Type) (l1 l2 : list A) x,
  subseq l1 l2 -> In x l1 -> In x l2.
Proof.
  induction 1; simpl; intros Hin; [assumption|right; auto|].
  destruct Hin; [left|right]; auto.
Qed.

Lemma subseq_StronglySorted : forall (A : Type) (R : A -> A -> Prop) (l1 l2 : list A),
  subseq l1 l2 -> StronglySorted R l2 -> StronglySorted R l1.
Proof.
  induction 1; intros Hs; [assumption| |]; inversion Hs; subst; auto.
  constructor; [auto|].
  rewrite Forall_forall in *. eauto using subseq_In.
Qed.

Lemma subseq_refl : forall (A : Type) (l : list A), subseq l l.
Proof. induction l; constructor; assumption. Qed.

Lemma subseq_app : forall (A : Type) (l1 l2 k1 k2 : list A),
  subseq l1 l2 -> subseq k1 k2 -> subseq (l1 ++ k1)%list (l2 ++ k2)%list.
Proof.
  induction 1; simpl; intros Hk.
  - assumption.
  - apply subseq_skip. auto.
  - apply subseq_take. auto.
Qed.

(** ** [filepath.Base] on the name of a directory entry *)

Lemma revString_revString : forall s acc acc',
  filepath.revString (filepath.revString s acc) acc' = filepath.revString acc (s ++ acc').
Proof. induction s as [|c s IH]; simpl; intros; [reflexivity|now rewrite IH]. Qed.

Lemma append_empty_r : forall s : string, s ++ "" = s.
Proof. induction s; simpl; congruence. Qed.

Lemma revString_noSlash : forall s acc,
  noSlash s = true -> noSlash acc = true -> noSlash (filepath.revString s acc) = true.
Proof.
  induction s as [|c s IH]; simpl; intros acc Hs Hacc; [assumption|].
  apply andb_true_iff in Hs as [Hc Hs]. apply IH; [assumption|].
  simpl. now rewrite Hc.
Qed.

Lemma dropSlashes_noSlash : forall r, noSlash r = true -> filepath.dropSlashes r = r.
Proof.
  intros [|c r]; simpl; [reflexivity|]. intros H.
  apply andb_true_iff in H as [Hc _]. now destruct (filepath.isSlash c).
Qed.

Lemma append_assoc : forall a b c : string, (a ++ b) ++ c = a ++ (b ++ c).
Proof. induction a; simpl; intros; congruence. Qed.

Lemma lastElem_noSlash : forall s cur,
  noSlash s = true -> filepath.lastElem s cur = cur ++ s.
Proof.
  induction s as [|c s IH]; simpl; intros cur H.
  - now rewrite append_empty_r.
  - apply andb_true_iff in H as [Hc Hs].
    destruct (filepath.isSlash c); [discriminate|].
    rewrite IH by assumption. now rewrite append_assoc.
Qed.

Lemma Base_validName : forall s, validName s = true -> filepath.Base s = s.
Proof.
  intros s H. apply andb_true_iff in H as [Hne Hns].
  destruct s as [|c s]; [discriminate|].
  unfold filepath.Base.
  rewrite dropSlashes_noSlash by (now apply revString_noSlash).
  rewrite revString_revString. cbn [filepath.revString].
  rewrite append_empty_r, lastElem_noSlash by assumption.
  reflexivity.
Qed.

(** ** The loop of [Status] *)

Lemma Status_body_eq : forall os sup dir svcs tr,
  Status_body os sup dir svcs tr =
  (match exec_CombinedOutput os tr (statusCmd sup dir) with
   | (raw, None) => Status_parse sup (filepath.Base dir) raw svcs
   | (_, Some e) =>
       if DebugMode sup then
         Return (svcs, Some (fmt_Errorf "failed reading status of %q: %w"
                                        [ArgString (filepath.Base dir); ArgError (Some e)]))
       else Continue svcs
   end,
   (tr ++ [EvCombinedOutput (statusCmd sup dir)])%list).
Proof.
  intros os [o|o] dir svcs tr;
    cbn [Status_body statusCmd DebugMode Status_parse];
    [unfold Runit_Status_body, Runit_runCmd|unfold S6_Status_body, S6_runCmd];
    unfold bind, CombinedOutput, ret;
    match goal with |- context [exec_CombinedOutput ?a ?b ?c] =>
      destruct (exec_CombinedOutput a b c) as [raw [e|]] end;
    try reflexivity;
    match goal with |- context [if ?b then _ else _] => destruct b end; reflexivity.
Qed.

Lemma Supervisor_Status_eq : forall os sup tr,
  Supervisor_Status os sup tr =
  match ioutil_ReadDir os tr (BaseDir sup) with
  | (_, Some e) =>
      (([], Some (fmt_Errorf "failed finding service directories: %w"
                   [ArgError (Some (fmt_Errorf "failed reading base directory %q: %w"
                                      [ArgString (BaseDir sup); ArgError (Some e)]))])),
       (tr ++ [EvReadDir (BaseDir sup)])%list)
  | (files, None) =>
      let '(f, tr') := forRange (dirsOf files) (Status_body os sup) []
                                (tr ++ [EvReadDir (BaseDir sup)])%list in
      (match f with Return r => r | Continue svcs => (svcs, None) end, tr')
  end.
Proof.
  intros os [o|o] tr;
    cbn [Supervisor_Status Status_body BaseDir];
    [unfold Runit_Status|unfold S6_Status];
    unfold serviceDirs, bind, ReadDir, ret, dirsOf;
    match goal with |- context [ioutil_ReadDir ?a ?b ?c] =>
      destruct (ioutil_ReadDir a b c) as [files [e|]] end;
    try reflexivity;
    match goal with |- context [forRange ?a ?b ?c ?d] =>
      destruct (forRange a b c d) as [[svcs|r] tr'] end; reflexivity.
Qed.

(** Case analysis on every test of [Status_parse]. *)
Ltac parse_cases :=
  repeat (match goal with
          | |- context [Runit_DebugMode ?o] => destruct (Runit_DebugMode o) eqn:?
          | |- context [S6_DebugMode ?o] => destruct (S6_DebugMode o) eqn:?
          | |- context [let '(_, _) := ?p in _] => destruct p as [? [?|]] eqn:?
          | |- context [if ?b then _ else _] => destruct b eqn:?
          end; cbn [andThen isSome andb]).

Ltac unfold_parse sup :=
  destruct sup as [?o|?o]; cbn [Status_parse DebugMode];
  [unfold Runit_Status_parse|unfold S6_Status_parse]; unfold andThen;
  match goal with |- context [regexp.FindSubmatch ?re ?raw] =>
    generalize (regexp.FindSubmatch re raw); intros ?matches end.

(** What [Status_parse] does to the services collected so far does not
    depend on them: it keeps them, and may add one. *)
Lemma Status_parse_shift : forall sup name raw svcs,
  Status_parse sup name raw svcs =
  match Status_parse sup name raw [] with
  | Continue l => Continue (svcs ++ l)%list
  | Return (l, e) => Return ((svcs ++ l)%list, e)
  end.
Proof.
  intros sup name raw svcs. unfold_parse sup.
  all: parse_cases; rewrite ?app_nil_r; reflexivity.
Qed.

Lemma Status_parse_cases : forall sup name raw,
  Status_parse sup name raw [] = Continue [] \/
  (exists svc, Status_parse sup name raw [] = Continue [svc] /\ Service_Name svc = name) \/
  (DebugMode sup = true /\ exists e, Status_parse sup name raw [] = Return ([], Some e)).
Proof.
  intros sup name raw. unfold_parse sup.
  all: parse_cases; cbn [app];
    solve [ now left
          | right; left; eexists; split; reflexivity
          | right; right; split; [reflexivity|eexists; reflexivity] ].
Qed.

Lemma forRange_cons : forall (A S R : Type) (body : A -> S -> M (Flow S R)) x xs s tr,
  forRange (x :: xs) body s tr =
  match body x s tr with
  | (Continue s', tr') => forRange xs body s' tr'
  | (Return r, tr') => (Return r, tr')
  end.
Proof.
  intros. cbn [forRange]. unfold bind, ret.
  destruct (body x s tr) as [[s'|r] tr']; reflexivity.
Qed.

Section StatusLoop.
Variable os : OS.
Variable sup : Supervisor.
Variable Q : Service -> Prop.
Hypothesis parse_Q : forall name raw svc,
  Status_parse sup name raw [] = Continue [svc] -> Q svc.

(** The loop keeps the services it was given and adds, for some of the
    directories and in their order, one service named after the
    directory; it returns an error in debug mode only. *)
Lemma Status_loop : forall dirs svcs tr,
  exists ext,
    (fst (forRange dirs (Status_body os sup) svcs tr) = Continue (svcs ++ ext)%list \/
     (DebugMode sup = true /\
      exists e, fst (forRange dirs (Status_body os sup) svcs tr)
                = Return ((svcs ++ ext)%list, Some e))) /\
    subseq (map Service_Name ext) (map filepath.Base dirs) /\
    Forall Q ext.
Proof.
  induction dirs as [|dir dirs IH]; intros svcs tr.
  - exists []. rewrite app_nil_r. cbn. repeat split; auto using subseq_nil.
  - rewrite forRange_cons, Status_body_eq.
    destruct (exec_CombinedOutput os tr (statusCmd sup dir)) as [raw [e|]].
    + destruct (DebugMode sup) eqn:Hd.
      * exists []. rewrite app_nil_r. cbn [fst map]. split; [right; eauto|].
        split; [apply subseq_skip; clear; induction dirs; constructor; auto|constructor].
      * destruct (IH svcs (tr ++ [EvCombinedOutput (statusCmd sup dir)])%list)
          as (ext & Hres & Hsub & HQ).
        exists ext. split; [exact Hres|]. split; [now apply subseq_skip|assumption].
    + rewrite Status_parse_shift.
      destruct (Status_parse_cases sup (filepath.Base dir) raw)
        as [Hc|[(svc & Hc & Hname)|(Hd & e & Hc)]]; rewrite Hc.
      * rewrite app_nil_r.
        destruct (IH svcs (tr ++ [EvCombinedOutput (statusCmd sup dir)])%list)
          as (ext & Hres & Hsub & HQ).
        exists ext. split; [exact Hres|]. split; [now apply subseq_skip|assumption].
      * destruct (IH (svcs ++ [svc])%list (tr ++ [EvCombinedOutput (statusCmd sup dir)])%list)
          as (ext & Hres & Hsub & HQ).
        exists (svc :: ext). rewrite <- app_assoc in Hres. cbn [app] in Hres.
        split; [exact Hres|]. cbn [map]. rewrite Hname.
        split; [now apply subseq_take|]. constructor; eauto.
      * exists []. cbn [fst map]. split; [right; eauto|].
        split; [apply subseq_skip; clear; induction dirs; constructor; auto|constructor].
Qed.
End StatusLoop.

Lemma dirsOf_In : forall files d,
  In d (dirsOf files) -> exists f, In f files /\ IsDir f = true /\ fi_Name f = d.
Proof.
  unfold dirsOf. intros files d Hin.
  apply Strings_In, in_map_iff in Hin as (f & Hname & Hf).
  apply filter_In in Hf as [Hf Hdir]. eauto.
Qed.

Lemma map_Base_valid : forall dirs,
  Forall (fun d => validName d = true) dirs -> map filepath.Base dirs = dirs.
Proof.
  induction 1 as [|d dirs Hd _ IH]; cbn [map]; [reflexivity|].
  now rewrite IH, Base_validName.
Qed.

Lemma dirsOf_valid : forall files,
  Forall (fun f => validName (fi_Name f) = true) files ->
  Forall (fun d => validName d = true) (dirsOf files).
Proof.
  intros files Hv. apply Forall_forall. intros d Hd.
  apply dirsOf_In in Hd as (f & Hf & _ & <-).
  rewrite Forall_forall in Hv. auto.
Qed.

(** The services [Status] returns, with or without an error, once the
    base directory is read: the loop's, starting from none. *)
Lemma Status_services : forall os sup tr (Q : Service -> Prop),
  (forall name raw svc, Status_parse sup name raw [] = Continue [svc] -> Q svc) ->
  let svcs := fst (fst (Supervisor_Status os sup tr)) in
  subseq (map Service_Name svcs)
         (map filepath.Base (dirsOf (fst (ioutil_ReadDir os tr (BaseDir sup))))) /\
  Forall Q svcs.
Proof.
  intros os sup tr Q HQ. cbv zeta. rewrite Supervisor_Status_eq.
  destruct (ioutil_ReadDir os tr (BaseDir sup)) as [files [e|]]; cbn [fst].
  - split; [|constructor]. cbn [map].
    clear. induction (dirsOf files); cbn [map]; constructor; assumption.
  - destruct (Status_loop os sup Q HQ (dirsOf files) []
                          (tr ++ [EvReadDir (BaseDir sup)])%list)
      as (ext & Hres & Hsub & Hall).
    destruct (forRange (dirsOf files) (Status_body os sup) []
                       (tr ++ [EvReadDir (BaseDir sup)])%list) as [f tr'].
    cbn [fst app] in *.
    destruct Hres as [->|(_ & e & ->)]; cbn [fst]; auto.
Qed.

Lemma S6_parse_statuses : forall o name raw svc,
  Status_parse (ofS6 o) name raw [] = Continue [svc] ->
  Service_Status svc = StatusUp \/ Service_Status svc = StatusDown \/
  Service_Status svc = StatusUnknown.
Proof.
  intros o name raw svc.
  cbn [Status_parse]. unfold S6_Status_parse, andThen.
  generalize (regexp.FindSubmatch s6StatusRegexp raw); intros matches.
  parse_cases; cbn [app]; intros H; inversion H; subst; cbn; auto.
Qed.

(* ================================================================= *)
(** ** What [Status] returns *)

(** C2. Whatever the operating system answers, and in both modes, the
    services [Status] returns (for Runit and for S6) are named after some of
    the service directories of the base directory, in the order of
    [sort.Strings]: their names are a subsequence of the sorted directory
    names, hence sorted byte-lexicographically, and each is the name of an
    entry of the base directory that is a directory.  The entries of a
    directory have valid names (not empty, without a slash). *)
Theorem Status_sorted_by_directory_name : forall os sup tr,
  Forall (fun f => validName (fi_Name f) = true)
         (fst (ioutil_ReadDir os tr (BaseDir sup))) ->
  subseq (map Service_Name (fst (fst (Supervisor_Status os sup tr))))
         (dirsOf (fst (ioutil_ReadDir os tr (BaseDir sup)))) /\
  StronglySorted string_le (map Service_Name (fst (fst (Supervisor_Status os sup tr)))) /\
  Forall (fun svc => exists f,
              In f (fst (ioutil_ReadDir os tr (BaseDir sup))) /\
              IsDir f = true /\ fi_Name f = Service_Name svc)
         (fst (fst (Supervisor_Status os sup tr))).
Proof.
  intros os sup tr Hvalid.
  destruct (Status_services os sup tr (fun _ => True)) as [Hsub _]; [trivial|].
  rewrite map_Base_valid in Hsub by now apply dirsOf_valid.
  split; [exact Hsub|]. split.
  - eapply subseq_StronglySorted; [exact Hsub|]. apply Strings_Sorted.
  - apply Forall_forall. intros svc Hsvc.
    apply dirsOf_In. eapply subseq_In; [exact Hsub|].
    now apply in_map.
Qed.

Lemma Status_sorted_by_directory_name_witness :
  let os := webDbOS "run: web: (pid 123) 45s" "down: db: 12s" in
  let sup := ofRunit (mkRunit "/service" false) in
  map Service_Name (fst (fst (Supervisor_Status os sup []))) = ["db"; "web"] /\
  StronglySorted string_le (map Service_Name (fst (fst (Supervisor_Status os sup [])))).
Proof.
  split; [reflexivity|].
  apply (Status_sorted_by_directory_name
           (webDbOS "run: web: (pid 123) 45s" "down: db: 12s")
           (ofRunit (mkRunit "/service" false)) []).
  repeat constructor.
Defined.

(** C9. The services [S6.Status] returns never have the status Backoff or
    Disabled: each is Up, Down or Unknown, whatever the status texts. *)
Theorem S6_Status_never_backoff_disabled : forall os o tr,
  Forall (fun svc =>
            Service_Status svc = StatusUp \/ Service_Status svc = StatusDown \/
            Service_Status svc = StatusUnknown)
         (fst (fst (S6_Status os o tr))).
Proof.
  intros os o tr.
  exact (proj2 (Status_services os (ofS6 o) tr _ (S6_parse_statuses o))).
Qed.

(** C10. In normal mode (DebugMode false), for Runit and for S6, [Status]
    returns a nil error whenever the base directory is read; when it is
    not, the error is the one of that read, wrapped.  So nothing that
    happens to a single service makes [Status] fail in normal mode. *)
Theorem Status_normal_mode_error : forall os sup tr,
  DebugMode sup = false ->
  match ioutil_ReadDir os tr (BaseDir sup) with
  | (_, None) => snd (fst (Supervisor_Status os sup tr)) = None
  | (_, Some e) =>
      fst (Supervisor_Status os sup tr) =
      ([], Some (fmt_Errorf "failed finding service directories: %w"
                   [ArgError (Some (fmt_Errorf "failed reading base directory %q: %w"
                                      [ArgString (BaseDir sup); ArgError (Some e)]))]))
  end.
Proof.
  intros os sup tr Hnormal. rewrite Supervisor_Status_eq.
  destruct (ioutil_ReadDir os tr (BaseDir sup)) as [files [e|]]; [reflexivity|].
  destruct (Status_loop os sup (fun _ => True) (fun _ _ _ _ => I) (dirsOf files) []
                        (tr ++ [EvReadDir (BaseDir sup)])%list)
    as (ext & Hres & _).
  destruct (forRange (dirsOf files) (Status_body os sup) []
                     (tr ++ [EvReadDir (BaseDir sup)])%list) as [f tr'].
  cbn [fst] in *.
  destruct Hres as [->|(Hdebug & _)]; [reflexivity|congruence].
Qed.

Lemma Status_normal_mode_error_witness :
  snd (fst (Supervisor_Status (webDbOS "run: web: (pid 123) 45s" "no such service")
                              (ofRunit (mkRunit "/service" false)) [])) = None.
Proof.
  apply (Status_normal_mode_error
           (webDbOS "run: web: (pid 123) 45s" "no such service")
           (ofRunit (mkRunit "/service" false)) []).
  reflexivity.
Defined.

(** ** [Rescan] *)

(** C8. [Rescan] on the Runit adapter returns [ErrUnsupportedCommand]
    whatever the system, and makes no call to it: the history is left as
    it was, so no subprocess is launched. *)
Theorem Runit_Rescan_unsupported : forall (o : Runit) (tr : Trace),
  Runit_Rescan o tr = (Some ErrUnsupportedCommand, tr).
Proof. reflexivity. Qed.

(** The S6 adapter, for comparison, asks [s6-svscanctl] to rescan. *)
Lemma S6_Rescan_runs_svscanctl : forall os o tr,
  S6_Rescan os o tr =
  (snd (exec_CombinedOutput os tr (mkCmd "s6-svscanctl" ["-a"; S6_BaseDir o] None)),
   (tr ++ [EvCombinedOutput (mkCmd "s6-svscanctl" ["-a"; S6_BaseDir o] None)])%list).
Proof.
  intros os o tr. unfold S6_Rescan, S6_runCmd, bind, CombinedOutput, ret.
  now destruct (exec_CombinedOutput os tr _).
Qed.

(** ** [Signal] *)

Lemma S6_Signal_body_eq : forall os o cmd svc u tr,
  S6_Signal_body os o cmd svc u tr =
  (match snd (exec_CombinedOutput os tr (mkCmd "s6-svc" [cmd; S6_fullService o svc] None)) with
   | Some e => Return (Some (fmt_Errorf "failed signaling %s: %s"
                                        [ArgString svc; ArgError (Some e)]))
   | None => Continue tt
   end,
   (tr ++ [EvCombinedOutput (mkCmd "s6-svc" [cmd; S6_fullService o svc] None)])%list).
Proof.
  intros. unfold S6_Signal_body, S6_runCmd, bind, CombinedOutput, ret.
  match goal with |- context [exec_CombinedOutput ?a ?b ?c] =>
    destruct (exec_CombinedOutput a b c) as [out [e|]] end; reflexivity.
Qed.

(** The loop of [S6.Signal] runs one [s6-svc] after the other.  When all
    of them succeed it comes to its end; otherwise it returns at the first
    one that fails, with its failure. *)
Lemma S6_Signal_loop : forall os o cmd svcs tr,
  let cmds := signalCmds (ofS6 o) cmd in
  let res := forRange svcs (S6_Signal_body os o cmd) tt tr in
  (succeed os tr (cmds svcs) /\
   fst res = Continue tt /\
   snd res = (tr ++ map EvCombinedOutput (cmds svcs))%list) \/
  (exists pre bad rest e,
      svcs = (pre ++ bad :: rest)%list /\
      succeed os tr (cmds pre) /\
      snd (exec_CombinedOutput os (tr ++ map EvCombinedOutput (cmds pre))%list
                               (mkCmd "s6-svc" [cmd; S6_fullService o bad] None)) = Some e /\
      fst res = Return (Some (fmt_Errorf "failed signaling %s: %s"
                                         [ArgString bad; ArgError (Some e)])) /\
      snd res = (tr ++ map EvCombinedOutput (cmds (pre ++ [bad])))%list).
Proof.
  intros os o cmd. cbv zeta.
  induction svcs as [|svc svcs IH]; intros tr.
  - left. cbn. rewrite app_nil_r. auto using succeed_nil.
  - rewrite forRange_cons, S6_Signal_body_eq.
    destruct (snd (exec_CombinedOutput os tr (mkCmd "s6-svc" [cmd; S6_fullService o svc] None)))
      as [e|] eqn:Hexec.
    + right. exists [], svc, svcs, e. cbn [app map signalCmds fst snd].
      rewrite app_nil_r. auto using succeed_nil.
    + destruct (IH (tr ++ [EvCombinedOutput (mkCmd "s6-svc" [cmd; S6_fullService o svc] None)])%list)
        as [(Hok & Hf & Htr)|(pre & bad & rest & e & Hsvcs & Hok & He & Hf & Htr)].
      * left. rewrite Hf, Htr. split; [now apply succeed_cons|].
        split; [reflexivity|].
        cbn [signalCmds map]. now rewrite <- app_assoc.
      * right. exists (svc :: pre), bad, rest, e. rewrite Hf, Htr, Hsvcs.
        cbn [signalCmds map app] in *. rewrite <- !app_assoc in *.
        repeat split; auto. now apply succeed_cons.
Qed.

(** The two tables differ: Runit has no entry for SIGWINCH and SIGABRT, S6
    none for SIGSTOP; no table has one for a signal of another type. *)
Lemma signals_examples :
  Runit_signals (ofSyscall syscall.SIGWINCH) = None /\
  Runit_signals (ofSyscall syscall.SIGABRT) = None /\
  S6_signals (ofSyscall syscall.SIGSTOP) = None /\
  S6_signals (ofSyscall syscall.SIGUSR1) = Some "-1" /\
  Runit_signals (ofSyscall syscall.SIGUSR1) = Some "1" /\
  forall name, Runit_signals (otherSignal name) = None /\ S6_signals (otherSignal name) = None.
Proof. repeat split. Qed.

(** C3 (amended). A signal outside the suite's table makes [Signal] return
    [ErrUnsupportedSignal] without any call to the system, whatever the
    targets.  For a signal of the table [Signal] runs the suite's command
    with the mapped flag.  Runit runs it once, naming every target, and
    returns its outcome.  S6 runs it once for each target, in order, as
    long as the invocations succeed: when all of them succeed, all are run
    and [Signal] returns nil; otherwise, at the first one that fails (those
    before it having succeeded), [Signal] returns that failure with the
    name of the target, and no target after it is signalled. *)
Theorem Signal_by_table : forall os sup signal svcs tr,
  match signals sup signal with
  | None => Supervisor_Signal os sup signal svcs tr = (Some ErrUnsupportedSignal, tr)
  | Some cmd =>
      match sup with
      | ofRunit o =>
          exists c,
            signalCmds sup cmd svcs = [c] /\
            Supervisor_Signal os sup signal svcs tr
            = (snd (exec_CombinedOutput os tr c), (tr ++ [EvCombinedOutput c])%list)
      | ofS6 o =>
          (succeed os tr (signalCmds sup cmd svcs) /\
           Supervisor_Signal os sup signal svcs tr
           = (None, (tr ++ map EvCombinedOutput (signalCmds sup cmd svcs))%list)) \/
          exists pre bad rest e,
            svcs = (pre ++ bad :: rest)%list /\
            succeed os tr (signalCmds sup cmd pre) /\
            snd (exec_CombinedOutput
                   os (tr ++ map EvCombinedOutput (signalCmds sup cmd pre))%list
                   (mkCmd "s6-svc" [cmd; S6_fullService o bad] None)) = Some e /\
            Supervisor_Signal os sup signal svcs tr
            = (Some (fmt_Errorf "failed signaling %s: %s" [ArgString bad; ArgError (Some e)]),
               (tr ++ map EvCombinedOutput (signalCmds sup cmd (pre ++ [bad])))%list)
      end
  end.
Proof.
  intros os [o|o] signal svcs tr; cbn [signals Supervisor_Signal].
  - unfold Runit_Signal. destruct (Runit_signals signal) as [cmd|]; [|reflexivity].
    eexists. split; [reflexivity|].
    unfold Runit_runCmd, bind, CombinedOutput, ret.
    now destruct (exec_CombinedOutput os tr _).
  - unfold S6_Signal. destruct (S6_signals signal) as [cmd|]; [|reflexivity].
    unfold bind, ret.
    destruct (S6_Signal_loop os o cmd svcs tr)
      as [(Hok & Hf & Htr)|(pre & bad & rest & e & Hsvcs & Hok & He & Hf & Htr)];
      destruct (forRange svcs (S6_Signal_body os o cmd) tt tr) as [f tr'];
      cbn [fst snd] in *; subst f tr'.
    + left. split; [assumption|reflexivity].
    + right. exists pre, bad, rest, e. auto.
Qed.

(** C3 as stated fails: with the S6 adapter and the supported signal
    SIGHUP, when the command for the first target [a] fails, the second
    target [b] is never signalled. *)
Lemma Signal_not_against_each_target :
  let o := mkS6 "/service" false in
  let res := S6_Signal failingOnA o (ofSyscall syscall.SIGHUP) ["a"; "b"] [] in
  S6_signals (ofSyscall syscall.SIGHUP) = Some "-h" /\
  In "b" ["a"; "b"] /\
  subprocesses (snd res) = [mkCmd "s6-svc" ["-h"; "/service/a"] None] /\
  ~ In (mkCmd "s6-svc" ["-h"; S6_fullService o "b"] None) (subprocesses (snd res)).
Proof.
  cbv zeta. split; [reflexivity|]. split; [right; left; reflexivity|].
  split; [reflexivity|].
  vm_compute. intros [H|[]]. discriminate H.
Qed.

(** ** Scenario A *)

Lemma Runit_parse_db : forall o svcs,
  Runit_Status_parse o "db" "down: db: 12s" svcs
  = Continue (svcs ++ [mkService "db" StatusDown 0 (12 * time.Second)])%list.
Proof. intros o svcs. vm_compute. reflexivity. Qed.

Lemma Runit_parse_web : forall o svcs,
  Runit_Status_parse o "web" "run: web: (pid 123) 45s" svcs
  = Continue (svcs ++ [mkService "web" StatusUp 123 (45 * time.Second)])%list.
Proof. intros o svcs. vm_compute. reflexivity. Qed.

Lemma dirsOf_web_db : forall files,
  Permutation (map fi_Name (filter IsDir files)) ["web"; "db"] ->
  dirsOf files = ["db"; "web"].
Proof.
  intros files H. unfold dirsOf.
  apply Permutation_sym, Permutation_length_2_inv in H as [-> | ->]; reflexivity.
Qed.

(** C1 (amended). For the Runit adapter, when the base directory holds
    exactly the service directories [web] and [db] and [sv status] prints
    [run: web: (pid 123) 45s] for [web] and [down: db: 12s] for [db] (the
    state, the service name between two colons, then the optional pid and
    the seconds), [Status] returns [{db, Down, 0, 12s}; {web, Up, 123, 45s}]
    and no error, in both modes. *)
Theorem Runit_Status_scenario_A : forall os o tr files,
  ioutil_ReadDir os tr (Runit_BaseDir o) = (files, None) ->
  Permutation (map fi_Name (filter IsDir files)) ["web"; "db"] ->
  outputs os (statusCmd (ofRunit o)) (tr ++ [EvReadDir (Runit_BaseDir o)])%list
          ["db"; "web"] ["down: db: 12s"; "run: web: (pid 123) 45s"] ->
  fst (Runit_Status os o tr)
  = ([mkService "db" StatusDown 0 (12 * time.Second);
      mkService "web" StatusUp 123 (45 * time.Second)], None).
Proof.
  intros os o tr files Hread Hdirs Hout.
  change (Runit_Status os o tr) with (Supervisor_Status os (ofRunit o) tr).
  rewrite Supervisor_Status_eq. cbn [BaseDir]. rewrite Hread.
  rewrite (dirsOf_web_db files Hdirs).
  inversion Hout as [|? ? ? ? ? Hdb Hout1]; subst.
  inversion Hout1 as [|? ? ? ? ? Hweb _]; subst.
  rewrite forRange_cons, Status_body_eq, Hdb.
  change (filepath.Base "db") with "db". cbn [Status_parse].
  rewrite Runit_parse_db.
  rewrite forRange_cons, Status_body_eq, Hweb.
  change (filepath.Base "web") with "web". cbn [Status_parse].
  rewrite Runit_parse_web. reflexivity.
Qed.

Lemma Runit_Status_scenario_A_witness :
  fst (Runit_Status (webDbOS "run: web: (pid 123) 45s" "down: db: 12s")
                    (mkRunit "/service" true) [])
  = ([mkService "db" StatusDown 0 (12 * time.Second);
      mkService "web" StatusUp 123 (45 * time.Second)], None).
Proof.
  apply (Runit_Status_scenario_A
           (webDbOS "run: web: (pid 123) 45s" "down: db: 12s")
           (mkRunit "/service" true) []
           [dirEntry "web"; fileEntry "README"; dirEntry "db"]).
  - reflexivity.
  - reflexivity.
  - repeat constructor.
Defined.

(** C1 as stated fails: the texts [run: (pid 123) 45s] and [down: 12s]
    have a single colon, the pattern asks for two, so neither is matched.
    In normal mode [Status] returns no service at all; in debug mode it
    returns the parse error of [db]. *)
Lemma Runit_Status_scenario_A_as_stated :
  let os := webDbOS "run: (pid 123) 45s" "down: 12s" in
  fst (Runit_Status os (mkRunit "/service" false) []) = ([], None) /\
  fst (Runit_Status os (mkRunit "/service" true) [])
  = ([], Some (fmt_Errorf "failed parsing %q status output: %q"
                          [ArgString "db"; ArgBytes "down: 12s"])) /\
  fst (fst (Runit_Status os (mkRunit "/service" false) []))
  <> [mkService "db" StatusDown 0 (12 * time.Second);
      mkService "web" StatusUp 123 (45 * time.Second)] /\
  fst (fst (Runit_Status os (mkRunit "/service" true) []))
  <> [mkService "db" StatusDown 0 (12 * time.Second);
      mkService "web" StatusUp 123 (45 * time.Second)].
Proof.
  cbv zeta. split; [reflexivity|]. split; [reflexivity|].
  split; vm_compute; discriminate.
Qed.

(** ** The matches [regexp.run] finds are matches of the pattern *)

Lemma TrimPrefix_app : forall l s s', TrimPrefix l s = Some s' -> s = l ++ s'.
Proof.
  induction l as [|a l IH]; intros [|b s] s'; cbn; try congruence.
  unfold eqb_byte. destruct (Ascii.eqb_spec a b) as [->|]; [|discriminate].
  intros H. now rewrite (IH _ _ H).
Qed.

Lemma plus_sound : forall (R : Type) cl s pos (k : nat -> string -> option R) res,
  regexp.plus R cl pos s k = Some res ->
  exists w s', w <> EmptyString /\ regexp.allIn cl w = true /\
               s = w ++ s' /\ k (pos + String.length w)%nat s' = Some res.
Proof.
  intros R cl. induction s as [|c s IH]; intros pos k res; cbn; [discriminate|].
  destruct (regexp.inClass cl c) eqn:Hc; [|discriminate].
  destruct (regexp.plus R cl (S pos) s k) as [res'|] eqn:Hmore.
  - intros [= <-]. destruct (IH _ _ _ Hmore) as (w & s' & _ & Hw & -> & Hk).
    exists (String c w), s'. cbn. rewrite Hc, Hw.
    repeat split; [discriminate|]. now rewrite <- plus_n_Sm.
  - intros Hk. exists (String c EmptyString), s. cbn. rewrite Hc.
    repeat split; [discriminate|]. now rewrite Nat.add_1_r.
Qed.

Lemma run_sound : forall (R : Type) r pos s caps
                         (k : nat -> string -> list string -> option R) res,
  regexp.run R r pos s caps k = Some res ->
  exists pos' s' caps',
    regexp.Matches r pos s caps pos' s' caps' /\ k pos' s' caps' = Some res.
Proof.
  intros R. induction r as [|l|cl|r1 IH1 r2 IH2|r1 IH1 r2 IH2|r1 IH1|i r1 IH1];
    intros pos s caps k res; cbn [regexp.run regexp.Matches].
  - destruct (Nat.eqb_spec pos 0); [|discriminate]. intros Hk. eauto 10.
  - destruct (TrimPrefix l s) as [s'|] eqn:Hl; [|discriminate].
    apply TrimPrefix_app in Hl. intros Hk. eauto 10.
  - intros H. apply plus_sound in H as (w & s' & Hne & Hw & Hs & Hk).
    exists (pos + String.length w)%nat, s', caps. eauto 10.
  - intros H. apply IH1 in H as (p1 & s1 & c1 & H1 & H).
    apply IH2 in H as (p2 & s2 & c2 & H2 & Hk). eauto 10.
  - destruct (regexp.run R r1 pos s caps k) as [res'|] eqn:H1.
    + intros [= <-]. apply IH1 in H1 as (p & s' & c & H1 & Hk). eauto 10.
    + intros H2. apply IH2 in H2 as (p & s' & c & H2 & Hk). eauto 10.
  - destruct (regexp.run R r1 pos s caps k) as [res'|] eqn:H1.
    + intros [= <-]. apply IH1 in H1 as (p & s' & c & H1 & Hk). eauto 10.
    + intros Hk. exists pos, s, caps. auto.
  - intros H. apply IH1 in H as (p & s' & c & H1 & Hk). eauto 10.
Qed.

Lemma length_append : forall a b : string,
  String.length (a ++ b) = (String.length a + String.length b)%nat.
Proof. induction a; cbn; intros; [reflexivity|now rewrite IHa]. Qed.

(** A match consumes the bytes between its two offsets. *)
Lemma Matches_take : forall r pos s caps pos' s' caps',
  regexp.Matches r pos s caps pos' s' caps' ->
  exists w, s = w ++ s' /\ pos' = (pos + String.length w)%nat.
Proof.
  induction r as [|l|cl|r1 IH1 r2 IH2|r1 IH1 r2 IH2|r1 IH1|i r1 IH1];
    intros pos s caps pos' s' caps'; cbn [regexp.Matches].
  - intros (-> & -> & -> & _). exists EmptyString. auto.
  - intros (-> & -> & _). eauto.
  - intros (w & _ & _ & -> & -> & _). eauto.
  - intros (p1 & s1 & c1 & H1 & H2).
    apply IH1 in H1 as (w1 & -> & ->). apply IH2 in H2 as (w2 & -> & ->).
    exists (w1 ++ w2). rewrite append_assoc. split; [reflexivity|].
    rewrite length_append. lia.
  - intros [H|H]; eauto.
  - intros [H|(-> & -> & _)]; [eauto|]. exists EmptyString. auto.
  - intros (c1 & H & _). eauto.
Qed.

Lemma take_app : forall w s, regexp.take (String.length w) (w ++ s) = w.
Proof. induction w as [|c w IH]; intros [|d s]; cbn; rewrite ?IH; reflexivity. Qed.

Lemma Matches_Capture : forall i r pos s caps pos' s' caps',
  regexp.Matches (regexp.Capture i r) pos s caps pos' s' caps' ->
  exists w c1, regexp.Matches r pos s caps pos' s' c1 /\
               s = w ++ s' /\ caps' = regexp.setCap (i - 1) w c1.
Proof.
  intros i r pos s caps pos' s' caps' (c1 & H & ->).
  destruct (Matches_take _ _ _ _ _ _ _ H) as (w & -> & ->).
  exists w, c1. replace (pos + String.length w - pos)%nat with (String.length w) by lia.
  now rewrite take_app.
Qed.

(** [FindSubmatch] returns nil, or the text and the captures of a match
    of the pattern somewhere in its input. *)
Lemma FindSubmatch_sound : forall re b,
  regexp.FindSubmatch re b = [] \/
  exists pos s pos' s' caps w,
    regexp.Matches re pos s (repeat EmptyString (regexp.NumSubexp re)) pos' s' caps /\
    s = w ++ s' /\
    regexp.FindSubmatch re b = w :: caps.
Proof.
  intros re b. unfold regexp.FindSubmatch. generalize 0%nat as pos.
  induction b as [|c b IH]; intros pos; cbn [regexp.findFrom];
    match goal with |- context [regexp.run ?R ?r ?p ?s ?c ?k] =>
      destruct (regexp.run R r p s c k) as [m|] eqn:Hrun end;
    auto;
    apply run_sound in Hrun as (pos' & s' & caps & HM & [= <-]);
    destruct (Matches_take _ _ _ _ _ _ _ HM) as (w & Hs & Hpos);
    right; exists pos; eexists; exists pos', s', caps, w;
    (split; [exact HM|]); (split; [exact Hs|]);
    rewrite Hs, Hpos;
    replace (pos + String.length w - pos)%nat with (String.length w) by lia;
    now rewrite take_app.
Qed.

Lemma setCap_length : forall i v caps,
  List.length (regexp.setCap i v caps) = List.length caps.
Proof.
  intros i v caps. revert i.
  induction caps as [|c caps IH]; intros [|i]; cbn; auto.
Qed.

Lemma Matches_caps_length : forall r pos s caps pos' s' caps',
  regexp.Matches r pos s caps pos' s' caps' -> List.length caps' = List.length caps.
Proof.
  induction r as [|l|cl|r1 IH1 r2 IH2|r1 IH1 r2 IH2|r1 IH1|i r1 IH1];
    intros pos s caps pos' s' caps'; cbn [regexp.Matches].
  - now intros (_ & _ & _ & ->).
  - now intros (_ & _ & ->).
  - now intros (w & _ & _ & _ & _ & ->).
  - intros (p1 & s1 & c1 & H1 & H2).
    apply IH1 in H1. apply IH2 in H2. congruence.
  - intros [H|H]; eauto.
  - intros [H|(_ & _ & ->)]; eauto.
  - intros (c1 & H & ->). rewrite setCap_length. eauto.
Qed.

(** The slice [FindSubmatch] returns is nil or holds the match and one
    element for each group: for the two status patterns, testing that its
    length is 4 is testing that there is a match. *)
Lemma FindSubmatch_length : forall re b,
  regexp.FindSubmatch re b = [] \/
  List.length (regexp.FindSubmatch re b) = S (regexp.NumSubexp re).
Proof.
  intros re b.
  destruct (FindSubmatch_sound re b)
    as [Hnil|(pos & s & pos' & s' & caps & w & HM & _ & ->)]; [now left|].
  right. cbn [List.length]. apply Matches_caps_length in HM.
  now rewrite HM, repeat_length.
Qed.

Lemma append_cancel_r : forall a b c : string, a ++ c = b ++ c -> a = b.
Proof.
  induction a as [|x a IH]; intros [|y b] c H; cbn in H.
  - reflexivity.
  - apply (f_equal String.length) in H. cbn in H. rewrite length_append in H. lia.
  - apply (f_equal String.length) in H. cbn in H. rewrite length_append in H. lia.
  - injection H as -> H. f_equal. eauto.
Qed.

(** Takes a hypothesis [Matches r ...] apart along the pattern [r]. *)
Ltac matches_inv :=
  repeat match goal with
         | H : regexp.Matches (regexp.Cat _ _) _ _ _ _ _ _ |- _ =>
             destruct H as (?p & ?s & ?c & ? & ?)
         | H : regexp.Matches (regexp.Capture _ _) _ _ _ _ _ _ |- _ =>
             apply Matches_Capture in H as (?w & ?c & ? & ? & ?)
         | H : regexp.Matches (regexp.Lit _) _ _ _ _ _ _ |- _ =>
             destruct H as (? & ? & ?)
         | H : regexp.Matches (regexp.Plus _) _ _ _ _ _ _ |- _ =>
             destruct H as (?w & ? & ? & ? & ? & ?)
         | H : regexp.Matches (regexp.Alt _ _) _ _ _ _ _ _ |- _ =>
             destruct H as [H|H]
         | H : regexp.Matches (regexp.Quest _) _ _ _ _ _ _ |- _ =>
             destruct H as [H|(? & ? & ?)]
         | H : regexp.Matches regexp.BeginText _ _ _ _ _ _ |- _ =>
             destruct H as (? & ? & ? & ?)
         end.

(** What the groups of [s6StatusRegexp] hold in a match: the state is
    [up] or [down], the detail blob is not empty, and the seconds are one
    or more decimal digits. *)
Lemma s6StatusRegexp_groups : forall raw,
  regexp.FindSubmatch s6StatusRegexp raw = [] \/
  exists m0 m1 m2 m3,
    regexp.FindSubmatch s6StatusRegexp raw = [m0; m1; m2; m3] /\
    (m1 = "up" \/ m1 = "down") /\
    m2 <> EmptyString /\
    m3 <> EmptyString /\ regexp.allIn regexp.digit m3 = true.
Proof.
  intros raw.
  destruct (FindSubmatch_sound s6StatusRegexp raw)
    as [Hnil|(pos & s & pos' & s' & caps & w & HM & Hs & Hfind)]; [now left|].
  right. rewrite Hfind. clear Hfind. unfold s6StatusRegexp in HM.
  cbn [regexp.NumSubexp repeat Nat.add] in HM.
  matches_inv; subst; cbn [regexp.setCap Nat.sub];
    repeat match goal with
           | H : ?a ++ ?c = ?b ++ ?c |- _ => apply append_cancel_r in H; subst
           end;
    do 4 eexists; (split; [reflexivity|]); auto.
Qed.

(** ** [time.ParseDuration] on a number without a unit *)

Lemma inClass_digit : forall c, regexp.inClass regexp.digit c = isDigit c.
Proof.
  intros c. unfold regexp.inClass, regexp.digit, regexp.inRange, isDigit.
  cbn. now rewrite orb_false_r.
Qed.

Lemma isDigit_not : forall c d, isDigit d = false -> isDigit c = true -> eqb_byte c d = false.
Proof.
  intros c d Hd Hc. unfold eqb_byte.
  destruct (Ascii.eqb_spec c d) as [->|]; congruence.
Qed.

Lemma leadingInt_digits : forall s x,
  regexp.allIn regexp.digit s = true ->
  time.leadingInt s x = None \/ exists v, time.leadingInt s x = Some (v, EmptyString).
Proof.
  induction s as [|c s IH]; intros x; cbn [regexp.allIn time.leadingInt].
  - eauto.
  - rewrite inClass_digit. intros H. apply andb_true_iff in H as [-> Hs].
    cbn [negb].
    destruct (x >? time.maxInt64 / 10); [now left|].
    destruct (x * 10 + digitVal c >? time.maxInt64); [now left|]. auto.
Qed.

(** A duration token made of digits only has no unit: [ParseDuration]
    accepts it only when it is [0], and its value is 0 in every case. *)
Lemma ParseDuration_digits : forall s,
  s <> EmptyString -> regexp.allIn regexp.digit s = true ->
  fst (time.ParseDuration s) = 0 /\
  (s <> "0" -> snd (time.ParseDuration s) = Some (time.missingUnit s) \/
               snd (time.ParseDuration s) = Some (time.invalidDuration s)).
Proof.
  intros [|c s] Hne Hdigits; [congruence|]. clear Hne.
  pose proof Hdigits as Hall.
  cbn [regexp.allIn] in Hdigits. rewrite inClass_digit in Hdigits.
  apply andb_true_iff in Hdigits as [Hc Hs].
  unfold time.ParseDuration.
  rewrite (isDigit_not c "-"), (isDigit_not c "+") by (assumption || reflexivity).
  cbn [orb].
  destruct (String.eqb_spec (String c s) "0") as [->|Hnz]; [split; [reflexivity|congruence]|].
  cbn [String.length time.parseTerms].
  rewrite Hc, orb_true_r. cbn [negb].
  destruct (leadingInt_digits (String c s) 0 Hall) as [->|(v & ->)].
  - cbn. auto.
  - cbn. auto.
Qed.

(** ** The duration of an S6 service *)

Lemma S6_parse_duration : forall o name raw svc,
  Status_parse (ofS6 o) name raw [] = Continue [svc] -> Service_Duration svc = 0.
Proof.
  intros o name raw svc. cbn [Status_parse]. unfold S6_Status_parse.
  destruct (s6StatusRegexp_groups raw)
    as [->|(m0 & m1 & m2 & m3 & -> & _ & _ & Hne & Hdigits)].
  - cbn. destruct (S6_DebugMode o); discriminate.
  - destruct (ParseDuration_digits m3 Hne Hdigits) as [Hzero _].
    cbn [List.length Nat.eqb negb at_ nth]. unfold andThen.
    destruct (time.ParseDuration m3) as [d err]. cbn [fst] in Hzero. subst d.
    parse_cases; cbn [app]; intros H; inversion H; reflexivity.
Qed.

(** C5, on the code.  [S6.Status] hands the seconds token, a number
    without a unit, to [time.ParseDuration], which rejects it.  So every
    service it returns has the duration 0, whatever the token: for the text
    [up (pid 123) 45/] normal mode returns [web] with pid 123 and duration
    0 instead of 45 seconds, and debug mode returns the error of the
    duration [45]. *)
Theorem S6_Status_duration_lost :
  (forall os o tr,
      Forall (fun svc => Service_Duration svc = 0) (fst (fst (S6_Status os o tr)))) /\
  (let os := webDbOS "up (pid 123) 45/" "down (exitcode 0) 0/" in
   fst (S6_Status os (mkS6 "/service" false) [])
   = ([mkService "db" StatusDown 0 0; mkService "web" StatusUp 123 0], None) /\
   fst (S6_Status os (mkS6 "/service" true) [])
   = ([mkService "db" StatusDown 0 0],
      Some (fmt_Errorf "failed parsing %q duration %q: %s"
                       [ArgString "web"; ArgBytes "45";
                        ArgError (Some (time.missingUnit "45"))]))).
Proof.
  split.
  - intros os o tr.
    exact (proj2 (Status_services os (ofS6 o) tr _ (S6_parse_duration o))).
  - cbv zeta. split; reflexivity.
Qed.

(** ** The groups of the Runit pattern and the seconds of a Runit service *)

(** What the groups of [runitStatusRegexp] hold in a match: a state
    without a colon, the digits of the pid or nothing, and digits followed
    by [s]. *)
Lemma runitStatusRegexp_groups : forall raw,
  regexp.FindSubmatch runitStatusRegexp raw = [] \/
  exists m0 m1 m2 d,
    regexp.FindSubmatch runitStatusRegexp raw = [m0; m1; m2; d ++ "s"] /\
    m1 <> EmptyString /\ regexp.allIn (regexp.notByte ":") m1 = true /\
    regexp.allIn regexp.digit m2 = true /\
    d <> EmptyString /\ regexp.allIn regexp.digit d = true.
Proof.
  intros raw.
  destruct (FindSubmatch_sound runitStatusRegexp raw)
    as [Hnil|(pos & s & pos' & s' & caps & w & HM & Hs & Hfind)]; [now left|].
  right. rewrite Hfind. clear Hfind. unfold runitStatusRegexp in HM.
  cbn [regexp.NumSubexp repeat Nat.add] in HM.
  clear Hs.
  matches_inv; subst; cbn [regexp.setCap Nat.sub];
    repeat match goal with
           | H : ?a ++ ?c = ?b ++ ?c |- _ => apply append_cancel_r in H; subst
           | H : ?b ++ ?b' ++ ?c = ?a ++ ?c |- _ =>
               rewrite <- (append_assoc b b' c) in H
           end;
    do 4 eexists; (split; [reflexivity|]); auto.
Qed.

Lemma decimal_ge : forall d x,
  regexp.allIn regexp.digit d = true -> 0 <= x -> x <= decimal d x.
Proof.
  induction d as [|c d IH]; intros x; cbn [regexp.allIn decimal]; [lia|].
  rewrite inClass_digit. intros H Hx. apply andb_true_iff in H as [Hc Hd].
  unfold isDigit in Hc. apply andb_true_iff in Hc as [Hlo Hhi].
  assert (0 <= digitVal c) by (unfold digitVal; lia).
  specialize (IH (x * 10 + digitVal c) Hd). lia.
Qed.

Lemma leadingInt_decimal : forall d x,
  regexp.allIn regexp.digit d = true -> 0 <= x <= time.maxInt64 ->
  time.leadingInt (d ++ "s") x =
  if decimal d x <=? time.maxInt64 then Some (decimal d x, "s") else None.
Proof.
  change time.maxInt64 with 9223372036854775807.
  induction d as [|c d IH]; intros x; cbn [regexp.allIn decimal append].
  - intros _ Hx. cbn. destruct (Z.leb_spec x 9223372036854775807); [reflexivity|lia].
  - rewrite inClass_digit. intros H Hx. apply andb_true_iff in H as [Hc Hd].
    cbn [time.leadingInt]. rewrite Hc. cbn [negb].
    change time.maxInt64 with 9223372036854775807.
    change (9223372036854775807 / 10) with 922337203685477580.
    pose proof Hc as Hc'. unfold isDigit in Hc'. apply andb_true_iff in Hc' as [Hlo Hhi].
    assert (Hv : 0 <= digitVal c) by (unfold digitVal; lia).
    pose proof (decimal_ge d (x * 10 + digitVal c) Hd) as Hge.
    destruct (Z.gtb_spec x 922337203685477580).
    + destruct (Z.leb_spec (decimal d (x * 10 + digitVal c)) 9223372036854775807);
        [lia|reflexivity].
    + destruct (Z.gtb_spec (x * 10 + digitVal c) 9223372036854775807).
      * destruct (Z.leb_spec (decimal d (x * 10 + digitVal c)) 9223372036854775807);
          [lia|reflexivity].
      * apply IH; [assumption|lia].
Qed.

(** The duration of a seconds token [<digits>s]: the number of seconds, in
    nanoseconds, up to the 9223372036 seconds a [time.Duration] holds. *)
Lemma ParseDuration_seconds : forall d,
  d <> EmptyString -> regexp.allIn regexp.digit d = true ->
  time.ParseDuration (d ++ "s") =
  if decimal d 0 <=? 9223372036 then (decimal d 0 * time.Second, None)
  else (0, Some (time.invalidDuration (d ++ "s"))).
Proof.
  intros [|c d] Hne Hdigits; [congruence|]. clear Hne.
  pose proof Hdigits as Hall.
  cbn [regexp.allIn] in Hdigits. rewrite inClass_digit in Hdigits.
  apply andb_true_iff in Hdigits as [Hc Hd].
  pose proof (decimal_ge _ 0 Hall (Z.le_refl 0)) as Hpos.
  unfold time.ParseDuration. cbn [append].
  rewrite (isDigit_not c "-"), (isDigit_not c "+") by (assumption || reflexivity).
  cbn [orb].
  replace (String.eqb (String c (d ++ "s")) "0") with false.
  2:{ symmetry. apply String.eqb_neq. intros [= _ H]. destruct d; discriminate H. }
  cbn [String.length time.parseTerms].
  rewrite Hc, orb_true_r. cbn [negb].
  change (String c (d ++ "s")) with (String c d ++ "s").
  rewrite (leadingInt_decimal (String c d) 0 Hall) by (unfold time.maxInt64; lia).
  change time.maxInt64 with 9223372036854775807.
  destruct (Z.leb_spec (decimal (String c d) 0) 9223372036854775807) as [Hfit|Hbig].
  - cbn [String.length append Nat.eqb].
    rewrite length_append.
    replace (Nat.eqb (String.length d + String.length "s") 0) with false
      by (symmetry; apply Nat.eqb_neq; cbn; lia).
    change (eqb_byte "s" ".") with false. cbn [negb andb].
    change (time.spanUnit "s") with ("s", EmptyString).
    cbv beta iota zeta.
    change (time.unitMap "s") with (Some time.Second).
    cbv beta iota.
    change (9223372036854775807 / time.Second) with 9223372036.
    destruct (Z.gtb_spec (decimal (String c d) 0) 9223372036);
      destruct (Z.leb_spec (decimal (String c d) 0) 9223372036); try lia; [reflexivity|].
    assert (Hns : decimal (String c d) 0 * time.Second <= 9223372036854775807)
      by (change time.Second with 1000000000; lia).
    rewrite Z.add_0_l.
    destruct (Z.gtb_spec (decimal (String c d) 0 * time.Second) 9223372036854775807);
      [lia|].
    destruct (String.length d + String.length "s")%nat; reflexivity.
  - destruct (Z.leb_spec (decimal (String c d) 0) 9223372036); [lia|reflexivity].
Qed.

(** The Runit loop keeps the seconds: the duration of a service it makes
    is the number its text gives before [s], in seconds (0 when the number
    is too large for a [time.Duration]). *)
Lemma Runit_parse_duration : forall o name raw svc,
  Status_parse (ofRunit o) name raw [] = Continue [svc] ->
  exists d,
    at_ (regexp.FindSubmatch runitStatusRegexp raw) 3 = d ++ "s" /\
    Service_Duration svc =
    if decimal d 0 <=? 9223372036 then decimal d 0 * time.Second else 0.
Proof.
  intros o name raw svc. cbn [Status_parse]. unfold Runit_Status_parse.
  destruct (runitStatusRegexp_groups raw)
    as [->|(m0 & m1 & m2 & d & -> & _ & _ & _ & Hne & Hdigits)].
  - cbn. destruct (Runit_DebugMode o); discriminate.
  - intros Hsvc. exists d. split; [reflexivity|]. revert Hsvc.
    cbn [List.length Nat.eqb negb at_ nth]. unfold andThen.
    replace (nonEmpty (d ++ "s")) with true by (destruct d; reflexivity).
    pose proof (ParseDuration_seconds d Hne Hdigits) as Hdur.
    destruct (time.ParseDuration (d ++ "s")) as [ns err].
    destruct (decimal d 0 <=? 9223372036); injection Hdur as -> ->;
      parse_cases; cbn [app]; intros Hsvc; inversion Hsvc; reflexivity.
Qed.

(** ** A status text without a pid *)

(** C6 (amended). When a status text matches the suite's pattern and its
    pid group took no part in the match, [Status] (Runit and S6) makes a
    service with pid 0 of it: always in normal mode, and in debug mode
    whenever the state token is one the suite names and the duration token
    is accepted by [time.ParseDuration], the two fields debug mode
    reports. *)
Theorem missing_pid_is_zero : forall sup name raw svcs,
  pidGroupAbsent sup raw = true ->
  (DebugMode sup = true -> restWellFormed sup raw = true) ->
  exists svc,
    Status_parse sup name raw svcs = Continue (svcs ++ [svc])%list /\
    Service_Name svc = name /\ Service_Pid svc = 0.
Proof.
  intros [o|o] name raw svcs;
    unfold pidGroupAbsent, restWellFormed;
    cbn [Status_parse DebugMode statusRegexp knownState];
    [unfold Runit_Status_parse|unfold S6_Status_parse]; unfold andThen;
    match goal with |- context [regexp.FindSubmatch ?re raw] =>
      generalize (regexp.FindSubmatch re raw); intros m end.
  - destruct (Nat.eqb (List.length m) 4); [|discriminate].
    destruct (nonEmpty (at_ m 2)); [discriminate|]. intros _.
    destruct (time.ParseDuration (at_ m 3)) as [d [e|]]; cbn [snd isSome negb andb];
      destruct (Runit_DebugMode o); cbn [andb negb];
      intros Hrest; try (specialize (Hrest eq_refl); rewrite andb_false_r in Hrest;
                         discriminate Hrest);
      repeat match goal with
             | |- context [if ?b then _ else _] => destruct b eqn:?
             end;
      try (specialize (Hrest eq_refl); discriminate Hrest);
      eexists; repeat split.
  - destruct (Nat.eqb (List.length m) 4); [|discriminate].
    destruct (Nat.eqb (List.length (regexp.FindSubmatch s6PidRegexp (at_ m 2))) 2);
      [discriminate|]. intros _.
    destruct (time.ParseDuration (at_ m 3)) as [d [e|]]; cbn [snd isSome negb andb];
      destruct (S6_DebugMode o); cbn [andb negb];
      intros Hrest; try (specialize (Hrest eq_refl); rewrite andb_false_r in Hrest;
                         discriminate Hrest);
      repeat match goal with
             | |- context [if ?b then _ else _] => destruct b eqn:?
             end;
      try (specialize (Hrest eq_refl); discriminate Hrest);
      eexists; repeat split.
Qed.

Lemma missing_pid_is_zero_witness :
  exists svc,
    Status_parse (ofRunit (mkRunit "/service" true)) "db" "down: db: 12s" []
    = Continue [svc] /\
    Service_Name svc = "db" /\ Service_Pid svc = 0.
Proof.
  apply (missing_pid_is_zero (ofRunit (mkRunit "/service" true)) "db" "down: db: 12s" []).
  - reflexivity.
  - intros _. reflexivity.
Defined.

(** C6 as stated fails in debug mode: the Runit texts [finish: web: 3s]
    and [run: web: 9223372037s] match the pattern without a pid, and
    [Status] returns an error for each, for the state [finish] in the first
    and for the seconds, too many for a [time.Duration], in the second. *)
Lemma missing_pid_debug_mode_failure :
  let sup := ofRunit (mkRunit "/service" true) in
  (pidGroupAbsent sup "finish: web: 3s" = true /\
   Status_parse sup "web" "finish: web: 3s" []
   = Return ([], Some (fmt_Errorf "failed parsing %q status: %q"
                                  [ArgString "web"; ArgBytes "finish"]))) /\
  (pidGroupAbsent sup "run: web: 9223372037s" = true /\
   Status_parse sup "web" "run: web: 9223372037s" []
   = Return ([], Some (fmt_Errorf "failed parsing %q duration %q: %s"
                                  [ArgString "web"; ArgBytes "9223372037s";
                                   ArgError (Some (time.invalidDuration "9223372037s"))]))).
Proof. cbv zeta. repeat split; vm_compute; reflexivity. Qed.

(** ** One malformed status text *)

Lemma BaseDir_withDebugMode : forall sup b, BaseDir (withDebugMode sup b) = BaseDir sup.
Proof. intros [o|o] b; reflexivity. Qed.

Lemma statusCmd_withDebugMode : forall sup b,
  statusCmd (withDebugMode sup b) = statusCmd sup.
Proof. intros [o|o] b; reflexivity. Qed.

Lemma DebugMode_withDebugMode : forall sup b, DebugMode (withDebugMode sup b) = b.
Proof. intros [o|o] b; reflexivity. Qed.

(** A text that debug mode makes a service of gives the same service in
    normal mode. *)
Lemma parseLine_debug_normal : forall sup dir raw svc,
  parseLine (withDebugMode sup true) dir raw = Some svc ->
  parseLine (withDebugMode sup false) dir raw = Some svc.
Proof.
  intros [o|o] dir raw svc; unfold parseLine;
    cbn [withDebugMode Status_parse];
    [unfold Runit_Status_parse|unfold S6_Status_parse]; unfold andThen;
    cbn [Runit_DebugMode S6_DebugMode];
    match goal with |- context [regexp.FindSubmatch ?re raw] =>
      generalize (regexp.FindSubmatch re raw); intros m end;
    repeat (match goal with
            | |- context [let '(_, _) := ?p in _] => destruct p as [? [?|]] eqn:?
            | |- context [if ?b then _ else _] => destruct b eqn:?
            end; cbn [isSome andb app]);
    congruence.
Qed.

Lemma parseLine_Some : forall sup dir raw svc svcs,
  parseLine sup dir raw = Some svc ->
  Status_parse sup (filepath.Base dir) raw svcs = Continue (svcs ++ [svc])%list.
Proof.
  intros sup dir raw svc svcs. unfold parseLine. rewrite (Status_parse_shift _ _ _ svcs).
  destruct (Status_parse sup (filepath.Base dir) raw []) as [[|s [|? ?]]|r];
    congruence.
Qed.

(** A text the pattern does not match is skipped in normal mode and ends
    [Status] with an error carrying the text in debug mode. *)
Lemma Status_parse_malformed : forall sup name raw svcs,
  regexp.FindSubmatch (statusRegexp sup) raw = [] ->
  Status_parse sup name raw svcs =
  if DebugMode sup then
    Return (svcs, Some (fmt_Errorf "failed parsing %q status output: %q"
                                   [ArgString name; ArgBytes raw]))
  else Continue svcs.
Proof.
  intros [o|o] name raw svcs; cbn [statusRegexp Status_parse DebugMode];
    [unfold Runit_Status_parse|unfold S6_Status_parse]; intros ->; reflexivity.
Qed.

Lemma parseLine_malformed : forall sup dir raw,
  regexp.FindSubmatch (statusRegexp sup) raw = [] -> parseLine sup dir raw = None.
Proof.
  intros sup dir raw H. unfold parseLine. rewrite Status_parse_malformed by assumption.
  now destruct (DebugMode sup).
Qed.

Lemma forRange_app : forall (A S R : Type) (body : A -> S -> M (Flow S R)) xs ys s tr,
  forRange (xs ++ ys)%list body s tr =
  match forRange xs body s tr with
  | (Continue s', tr') => forRange ys body s' tr'
  | (Return r, tr') => (Return r, tr')
  end.
Proof.
  induction xs as [|x xs IH]; intros ys s tr; cbn [app].
  - reflexivity.
  - rewrite !forRange_cons. destruct (body x s tr) as [[s'|r] tr']; [apply IH|reflexivity].
Qed.

Lemma outputs_app : forall os cmdOf ds1 rs1 ds2 rs2 tr,
  List.length ds1 = List.length rs1 ->
  outputs os cmdOf tr (ds1 ++ ds2)%list (rs1 ++ rs2)%list ->
  outputs os cmdOf tr ds1 rs1 /\
  outputs os cmdOf (tr ++ map (fun dir => EvCombinedOutput (cmdOf dir)) ds1)%list ds2 rs2.
Proof.
  induction ds1 as [|d ds1 IH]; intros [|r rs1] ds2 rs2 tr Hlen Hout;
    try discriminate; cbn [app map] in *.
  - rewrite app_nil_r. split; [constructor|assumption].
  - inversion Hout as [|? ? ? ? ? Hexec Hout']; subst.
    destruct (IH rs1 ds2 rs2 _ (eq_add_S _ _ Hlen) Hout') as [H1 H2].
    split; [now constructor|]. now rewrite <- app_assoc in H2.
Qed.

(** When every text gives a service, the loop collects them all. *)
Lemma Status_loop_parsed : forall os sup ds rs svcs tr,
  outputs os (statusCmd sup) tr ds rs ->
  Forall2 (fun d r => parseLine sup d r <> None) ds rs ->
  forRange ds (Status_body os sup) svcs tr
  = (Continue (svcs ++ parsedServices sup ds rs)%list, (tr ++ statusEvents sup ds)%list).
Proof.
  intros os sup ds rs svcs tr Hout. revert svcs.
  induction Hout as [tr|tr d ds r rs Hexec Hout IH]; intros svcs Hall.
  - cbn. now rewrite !app_nil_r.
  - inversion Hall as [|? ? ? ? Hd Hrest]; subst.
    rewrite forRange_cons, Status_body_eq, Hexec.
    cbn [parsedServices statusEvents map].
    destruct (parseLine sup d r) as [svc|] eqn:Hp; [|congruence].
    rewrite (parseLine_Some _ _ _ _ svcs Hp), (IH _ Hrest).
    unfold statusEvents. now rewrite <- !app_assoc.
Qed.

Lemma parsedServices_debug_normal : forall sup ds rs,
  Forall2 (fun d r => parseLine (withDebugMode sup true) d r <> None) ds rs ->
  parsedServices (withDebugMode sup false) ds rs
  = parsedServices (withDebugMode sup true) ds rs /\
  List.length (parsedServices (withDebugMode sup true) ds rs) = List.length ds /\
  Forall2 (fun d r => parseLine (withDebugMode sup false) d r <> None) ds rs.
Proof.
  induction 1 as [|d r ds rs Hd Hall (IH1 & IH2 & IH3)]; cbn [parsedServices].
  - repeat split; constructor.
  - destruct (parseLine (withDebugMode sup true) d r) as [svc|] eqn:Hp; [|congruence].
    rewrite (parseLine_debug_normal _ _ _ _ Hp), IH1. cbn [List.length].
    repeat split; [congruence|]. constructor; [|assumption].
    rewrite (parseLine_debug_normal _ _ _ _ Hp). discriminate.
Qed.

Lemma Status_loop_parsed_mode : forall os sup b ds rs svcs tr,
  outputs os (statusCmd sup) tr ds rs ->
  Forall2 (fun d r => parseLine (withDebugMode sup b) d r <> None) ds rs ->
  forRange ds (Status_body os (withDebugMode sup b)) svcs tr
  = (Continue (svcs ++ parsedServices (withDebugMode sup b) ds rs)%list,
     (tr ++ statusEvents sup ds)%list).
Proof.
  intros os sup b ds rs svcs tr Hout Hall.
  pose proof (Status_loop_parsed os (withDebugMode sup b) ds rs svcs tr) as H.
  unfold statusEvents in *. rewrite statusCmd_withDebugMode in H. auto.
Qed.

(** The status commands of the sorted service directories succeed; the
    text of one directory [dir] is not matched by the suite's pattern, and
    debug mode makes a service of each text before it ([rs1]) and after it
    ([rs2]).  Then normal mode returns the services of the other N-1 texts
    and no error; debug mode returns an error carrying the name of [dir]
    and the raw text, together with the services made before it; and each
    of those texts gives the same service in both modes. *)
Lemma one_malformed_accepted :
  forall os sup tr files ds1 dir ds2 rs1 raw rs2,
    ioutil_ReadDir os tr (BaseDir sup) = (files, None) ->
    dirsOf files = (ds1 ++ dir :: ds2)%list ->
    outputs os (statusCmd sup) (tr ++ [EvReadDir (BaseDir sup)])%list
            (ds1 ++ dir :: ds2)%list (rs1 ++ raw :: rs2)%list ->
    regexp.FindSubmatch (statusRegexp sup) raw = [] ->
    Forall2 (fun d r => parseLine (withDebugMode sup true) d r <> None) ds1 rs1 ->
    Forall2 (fun d r => parseLine (withDebugMode sup true) d r <> None) ds2 rs2 ->
    fst (Supervisor_Status os (withDebugMode sup false) tr)
    = ((parsedServices (withDebugMode sup false) ds1 rs1 ++
        parsedServices (withDebugMode sup false) ds2 rs2)%list, None) /\
    List.length (fst (fst (Supervisor_Status os (withDebugMode sup false) tr)))
    = (List.length (ds1 ++ dir :: ds2) - 1)%nat /\
    fst (Supervisor_Status os (withDebugMode sup true) tr)
    = (parsedServices (withDebugMode sup true) ds1 rs1,
       Some (fmt_Errorf "failed parsing %q status output: %q"
                        [ArgString (filepath.Base dir); ArgBytes raw])) /\
    parsedServices (withDebugMode sup true) ds1 rs1
    = parsedServices (withDebugMode sup false) ds1 rs1 /\
    parsedServices (withDebugMode sup true) ds2 rs2
    = parsedServices (withDebugMode sup false) ds2 rs2.
Proof.
  intros os sup tr files ds1 dir ds2 rs1 raw rs2 Hread Hdirs Hout Hbad H1 H2.
  destruct (parsedServices_debug_normal sup ds1 rs1 H1) as (E1 & L1 & N1).
  destruct (parsedServices_debug_normal sup ds2 rs2 H2) as (E2 & L2 & N2).
  assert (Hlen : List.length ds1 = List.length rs1) by (eapply Forall2_length; eassumption).
  assert (Hrun : forall b,
    forRange ds1 (Status_body os (withDebugMode sup b)) []
             (tr ++ [EvReadDir (BaseDir sup)])%list
    = (Continue (parsedServices (withDebugMode sup b) ds1 rs1),
       ((tr ++ [EvReadDir (BaseDir sup)]) ++ statusEvents sup ds1)%list) /\
    exec_CombinedOutput os ((tr ++ [EvReadDir (BaseDir sup)]) ++ statusEvents sup ds1)%list
                        (statusCmd sup dir) = (raw, None) /\
    outputs os (statusCmd sup)
            (((tr ++ [EvReadDir (BaseDir sup)]) ++ statusEvents sup ds1)
               ++ [EvCombinedOutput (statusCmd sup dir)])%list ds2 rs2).
  { intros b.
    destruct (outputs_app _ _ _ _ _ _ _ Hlen Hout) as [Ho1 Ho2].
    inversion Ho2 as [|? ? ? ? ? Hexec Ho3]; subst.
    split; [|split; assumption].
    rewrite (Status_loop_parsed_mode os sup b ds1 rs1 [] _ Ho1)
      by (destruct b; assumption).
    reflexivity. }
  assert (Hnormal :
    fst (Supervisor_Status os (withDebugMode sup false) tr)
    = ((parsedServices (withDebugMode sup false) ds1 rs1 ++
        parsedServices (withDebugMode sup false) ds2 rs2)%list, None)).
  { destruct (Hrun false) as (Hloop1 & Hexec & Ho3).
    rewrite Supervisor_Status_eq, BaseDir_withDebugMode, Hread, Hdirs.
    rewrite forRange_app, Hloop1, forRange_cons, Status_body_eq.
    rewrite statusCmd_withDebugMode, Hexec.
    rewrite Status_parse_malformed, DebugMode_withDebugMode by (now destruct sup).
    rewrite (Status_loop_parsed_mode os sup false ds2 rs2 _ _ Ho3 N2).
    reflexivity. }
  repeat split.
  - exact Hnormal.
  - rewrite Hnormal. cbn [fst]. rewrite !length_app, E1, E2, L1, L2. cbn [List.length]. lia.
  - destruct (Hrun true) as (Hloop1 & Hexec & _).
    rewrite Supervisor_Status_eq, BaseDir_withDebugMode, Hread, Hdirs.
    rewrite forRange_app, Hloop1, forRange_cons, Status_body_eq.
    rewrite statusCmd_withDebugMode, Hexec.
    rewrite Status_parse_malformed, DebugMode_withDebugMode by (now destruct sup).
    reflexivity.
  - now rewrite E1.
  - now rewrite E2.
Qed.

(** In normal mode the premise on the other texts is not needed: when the
    status commands succeed, [Status] returns the services of the texts
    that give one, whatever the other texts are. *)
Lemma Status_loop_normal : forall os sup ds rs svcs tr,
  outputs os (statusCmd sup) tr ds rs ->
  forRange ds (Status_body os (withDebugMode sup false)) svcs tr
  = (Continue (svcs ++ parsedServices (withDebugMode sup false) ds rs)%list,
     (tr ++ statusEvents sup ds)%list).
Proof.
  intros os sup ds rs svcs tr Hout. revert svcs.
  induction Hout as [tr|tr d ds r rs Hexec Hout IH]; intros svcs.
  - cbn. now rewrite !app_nil_r.
  - rewrite forRange_cons, Status_body_eq, statusCmd_withDebugMode, Hexec.
    cbn [parsedServices statusEvents map]. unfold parseLine.
    rewrite (Status_parse_shift _ _ _ svcs).
    destruct (Status_parse_cases (withDebugMode sup false) (filepath.Base d) r)
      as [Hc|[(svc & Hc & _)|(Hd & _)]].
    + rewrite Hc, app_nil_r, IH. unfold statusEvents. now rewrite <- app_assoc.
    + rewrite Hc, IH. unfold statusEvents. now rewrite <- !app_assoc.
    + rewrite DebugMode_withDebugMode in Hd. discriminate Hd.
Qed.

(** X20. In normal mode, when the base directory is read and every status
    command succeeds, [Status] (Runit and S6) returns a nil error and
    exactly the services of the texts that give one, in the order of the
    sorted directories, however many texts give none. *)
Lemma Status_normal_mode_services : forall os sup tr files raws,
  ioutil_ReadDir os tr (BaseDir sup) = (files, None) ->
  outputs os (statusCmd sup) (tr ++ [EvReadDir (BaseDir sup)])%list (dirsOf files) raws ->
  fst (Supervisor_Status os (withDebugMode sup false) tr)
  = (parsedServices (withDebugMode sup false) (dirsOf files) raws, None).
Proof.
  intros os sup tr files raws Hread Hout.
  rewrite Supervisor_Status_eq, BaseDir_withDebugMode, Hread.
  now rewrite (Status_loop_normal os sup _ _ [] _ Hout).
Qed.

(** ** [Fg] and the log file *)

Lemma subprocesses_app : forall tr1 tr2,
  subprocesses (tr1 ++ tr2)%list = (subprocesses tr1 ++ subprocesses tr2)%list.
Proof.
  induction tr1 as [|e tr1 IH]; intros tr2; cbn [app subprocesses]; [reflexivity|].
  destruct e; cbn [app]; now rewrite IH.
Qed.

Lemma findLogFile_body_eq : forall os dir link u tr,
  findLogFile_body os dir link u tr =
  if negb (Z.land (fi_Mode link) ModeSymlink =? 0) then
    (match os_Readlink os tr (filepath.Join [dir; "fd"; fi_Name link]) with
     | (_, Some e) =>
         Return (EmptyString,
                 Some (fmt_Errorf "failed reading link %q: %w"
                                  [ArgString (fi_Name link); ArgError (Some e)]))
     | (target, None) =>
         if String.eqb (filepath.Base target) "current"
         then Return (target, None) else Continue tt
     end,
     (tr ++ [EvReadlink (filepath.Join [dir; "fd"; fi_Name link])])%list)
  else (Continue tt, tr).
Proof.
  intros os dir link [] tr. unfold findLogFile_body, ModeSymlink.
  destruct (negb (Z.land (fi_Mode link) (Z.shiftl 1 (32 - 1 - 4)) =? 0)); [|reflexivity].
  unfold bind, Readlink, ret.
  destruct (os_Readlink os tr (filepath.Join [dir; "fd"; fi_Name link])) as [target [e|]];
    [reflexivity|].
  destruct (String.eqb (filepath.Base target) "current"); reflexivity.
Qed.

(** The scan of the descriptors launches nothing; what it returns is the
    target of a link named [current], or nothing, or an error. *)
Lemma findLogFile_loop : forall os dir links tr,
  let res := forRange links (findLogFile_body os dir) tt tr in
  subprocesses (snd res) = subprocesses tr /\
  (fst res = Continue tt \/
   (exists target, fst res = Return (target, None) /\ filepath.Base target = "current") \/
   (exists e, fst res = Return (EmptyString, Some e))).
Proof.
  intros os dir. cbv zeta.
  induction links as [|link links IH]; intros tr.
  - cbn. auto.
  - rewrite forRange_cons, findLogFile_body_eq.
    destruct (negb (Z.land (fi_Mode link) ModeSymlink =? 0)); [|apply IH].
    destruct (os_Readlink os tr (filepath.Join [dir; "fd"; fi_Name link])) as [target [e|]].
    + cbn [fst snd]. rewrite subprocesses_app, app_nil_r.
      split; [reflexivity|]. right; right. eexists. reflexivity.
    + destruct (String.eqb_spec (filepath.Base target) "current") as [Hcur|Hcur].
      * cbn [fst snd]. rewrite subprocesses_app, app_nil_r.
        split; [reflexivity|]. right; left. exists target. auto.
      * destruct (IH (tr ++ [EvReadlink (filepath.Join [dir; "fd"; fi_Name link])])%list)
          as [Hsub Hres].
        rewrite Hsub, subprocesses_app, app_nil_r. auto.
Qed.

Lemma findLogFile_loop_none : forall os dir tr links,
  noCurrent os dir tr links ->
  fst (forRange links (findLogFile_body os dir) tt tr) = Continue tt.
Proof.
  induction 1 as [tr|tr link links Hmode _ IH|tr link links target Hmode Hlink Hbase _ IH].
  - reflexivity.
  - rewrite forRange_cons, findLogFile_body_eq, Hmode. exact IH.
  - rewrite forRange_cons, findLogFile_body_eq, Hlink.
    apply Z.eqb_neq in Hmode. rewrite Hmode. cbn [negb].
    apply String.eqb_neq in Hbase. rewrite Hbase. exact IH.
Qed.

Lemma findLogFile_eq : forall os pid tr,
  findLogFile os pid tr =
  match os_Readlink os tr (filepath.Join [procDir pid; "/exe"]) with
  | (_, Some e) =>
      ((EmptyString, Some (fmt_Errorf "failed reading symbolic link: %w" [ArgError (Some e)])),
       (tr ++ [EvReadlink (filepath.Join [procDir pid; "/exe"])])%list)
  | (exe, None) =>
      if isLogger (filepath.Base exe) then
        match ioutil_ReadDir os (tr ++ [EvReadlink (filepath.Join [procDir pid; "/exe"])])%list
                             (filepath.Join [procDir pid; "fd"]) with
        | (_, Some e) =>
            ((EmptyString,
              Some (fmt_Errorf "failed reading fd directory %q: %w"
                               [ArgString (filepath.Join [procDir pid; "fd"]);
                                ArgError (Some e)])),
             (tr ++ [EvReadlink (filepath.Join [procDir pid; "/exe"]);
                     EvReadDir (filepath.Join [procDir pid; "fd"])])%list)
        | (links, None) =>
            let res := forRange links (findLogFile_body os (procDir pid)) tt
                         (tr ++ [EvReadlink (filepath.Join [procDir pid; "/exe"]);
                                 EvReadDir (filepath.Join [procDir pid; "fd"])])%list in
            (match fst res with
             | Return r => r
             | Continue _ => (EmptyString, None)
             end, snd res)
        end
      else ((EmptyString, None),
            (tr ++ [EvReadlink (filepath.Join [procDir pid; "/exe"])])%list)
  end.
Proof.
  intros os pid tr. unfold findLogFile, bind, Readlink, ReadDir, ret.
  fold (procDir pid).
  destruct (os_Readlink os tr (filepath.Join [procDir pid; "/exe"])) as [exe [e|]];
    [reflexivity|].
  destruct (isLogger (filepath.Base exe)); [|reflexivity].
  destruct (ioutil_ReadDir os _ (filepath.Join [procDir pid; "fd"])) as [links [e|]];
    rewrite <- app_assoc; cbn [app]; [reflexivity|].
  destruct (forRange links _ tt _) as [[u|r] tr']; reflexivity.
Qed.

(** [findLogFile] launches no subprocess; without an error, the file it
    returns is empty or named [current]. *)
Lemma findLogFile_spec : forall os pid tr,
  subprocesses (snd (findLogFile os pid tr)) = subprocesses tr /\
  (snd (fst (findLogFile os pid tr)) = None ->
   fst (fst (findLogFile os pid tr)) = EmptyString \/
   filepath.Base (fst (fst (findLogFile os pid tr))) = "current").
Proof.
  intros os pid tr. rewrite findLogFile_eq.
  destruct (os_Readlink os tr (filepath.Join [procDir pid; "/exe"])) as [exe [e|]].
  { cbn [fst snd]. rewrite subprocesses_app, app_nil_r. auto. }
  destruct (isLogger (filepath.Base exe)).
  2:{ cbn [fst snd]. rewrite subprocesses_app, app_nil_r. auto. }
  destruct (ioutil_ReadDir os _ (filepath.Join [procDir pid; "fd"])) as [links [e|]].
  { cbn [fst snd]. rewrite subprocesses_app, app_nil_r. auto. }
  cbv zeta.
  destruct (findLogFile_loop os (procDir pid) links
              (tr ++ [EvReadlink (filepath.Join [procDir pid; "/exe"]);
                      EvReadDir (filepath.Join [procDir pid; "fd"])])%list)
    as [Hsub Hres].
  cbn [fst snd]. rewrite Hsub, subprocesses_app, app_nil_r. split; [reflexivity|].
  destruct Hres as [->|[(target & -> & Hbase)|(e & ->)]]; cbn [fst snd]; auto.
Qed.

Lemma findLogFile_none : forall os pid tr,
  noLogDescriptor os pid tr -> fst (findLogFile os pid tr) = (EmptyString, None).
Proof.
  intros os pid tr (exe & Hexe & Hscan). rewrite findLogFile_eq, Hexe.
  destruct (isLogger (filepath.Base exe)); [|reflexivity].
  destruct (Hscan eq_refl) as (links & -> & Hnone).
  cbv zeta. cbn [fst]. now rewrite (findLogFile_loop_none _ _ _ _ Hnone).
Qed.

(** [Fg] up to the search of the log file. *)
Lemma Runit_Fg_eq : forall os o svc tr,
  Runit_Fg os o svc tr =
  let tr1 := (tr ++ [EvCombinedOutput (Fg_statusCmd o svc)])%list in
  match exec_CombinedOutput os tr (Fg_statusCmd o svc) with
  | (_, Some e) =>
      (Some (fmt_Errorf "failed getting service status: %w" [ArgError (Some e)]), tr1)
  | (txt, None) =>
      let matches := regexp.FindSubmatch runitLoggerRegexp txt in
      if negb (Nat.eqb (List.length matches) 2) then
        (Some (fmt_Errorf "failed parsing logger process status: %w" [ArgError None]), tr1)
      else
        match strconv.Atoi (at_ matches 1) with
        | (_, Some e) =>
            (Some (fmt_Errorf "failed parsing logger process pid %q: %w"
                              [ArgBytes (at_ matches 1); ArgError (Some e)]), tr1)
        | (pid, None) =>
            match findLogFile os pid tr1 with
            | ((_, Some e), tr2) =>
                (Some (fmt_Errorf "failed finding log file: %w" [ArgError (Some e)]), tr2)
            | ((file, None), tr2) =>
                if String.eqb file "" then (Some (fmt_Errorf "no log file found" []), tr2)
                else
                  let cmd := mkCmd "tail" ["-f"; file] None in
                  match exec_Start os tr2 cmd with
                  | Some e =>
                      (Some (fmt_Errorf "failed starting tail: %w" [ArgError (Some e)]),
                       (tr2 ++ [EvStart cmd])%list)
                  | None =>
                      (match exec_Wait os (tr2 ++ [EvStart cmd])%list cmd with
                       | Some msg =>
                           if negb (HasPrefix msg "signal:") then
                             Some (fmt_Errorf "failed tailing log: %w"
                                              [ArgError (Some (os_error msg))])
                           else None
                       | None => None
                       end,
                       (tr2 ++ [EvStart cmd; EvWait cmd])%list)
                  end
            end
        end
  end.
Proof.
  intros os o svc tr. cbv zeta.
  unfold Runit_Fg, Runit_runCmd, bind, CombinedOutput, Start, Wait, ret.
  change (mkCmd "sv" ["status"; filepath.Join [Runit_BaseDir o; svc]]
                (Some ["SVDIR=" ++ Runit_BaseDir o])) with (Fg_statusCmd o svc).
  destruct (exec_CombinedOutput os tr (Fg_statusCmd o svc)) as [txt [e|]]; [reflexivity|].
  destruct (negb (Nat.eqb (List.length (regexp.FindSubmatch runitLoggerRegexp txt)) 2));
    [reflexivity|].
  destruct (strconv.Atoi (at_ (regexp.FindSubmatch runitLoggerRegexp txt) 1)) as [pid [e|]];
    [reflexivity|].
  destruct (findLogFile os pid _) as [[file [e|]] tr2]; [reflexivity|].
  destruct (String.eqb file ""); [reflexivity|].
  destruct (exec_Start os tr2 _) as [e|]; [reflexivity|].
  rewrite <- app_assoc. cbn [app].
  destruct (exec_Wait os _ _) as [msg|]; [|reflexivity].
  destruct (negb (HasPrefix msg "signal:")); reflexivity.
Qed.

(** C7. [Fg] has read the status of the service and found the pid of its
    logger; the introspection of that process resolves its executable and,
    for a known logger, its open descriptors, and none of them leads to a
    file named [current].  Then [Fg] fails with the error
    [no log file found], and the status query is the only subprocess it
    has launched: no [tail] is started. *)
Theorem Fg_no_log_file : forall os o svc tr txt m0 m1 pid,
  exec_CombinedOutput os tr (Fg_statusCmd o svc) = (txt, None) ->
  regexp.FindSubmatch runitLoggerRegexp txt = [m0; m1] ->
  strconv.Atoi m1 = (pid, None) ->
  noLogDescriptor os pid (tr ++ [EvCombinedOutput (Fg_statusCmd o svc)])%list ->
  fst (Runit_Fg os o svc tr) = Some (fmt_Errorf "no log file found" []) /\
  subprocesses (snd (Runit_Fg os o svc tr))
  = (subprocesses tr ++ [Fg_statusCmd o svc])%list.
Proof.
  intros os o svc tr txt m0 m1 pid Hstatus Hmatch Hpid Hnone.
  rewrite Runit_Fg_eq. cbv zeta. rewrite Hstatus, Hmatch.
  cbn [List.length Nat.eqb negb at_ nth]. rewrite Hpid.
  pose proof (findLogFile_none _ _ _ Hnone) as Hfile.
  pose proof (proj1 (findLogFile_spec os pid
                       (tr ++ [EvCombinedOutput (Fg_statusCmd o svc)])%list)) as Hsub.
  destruct (findLogFile os pid _) as [[file err] tr2].
  cbn [fst snd] in *. injection Hfile as -> ->. cbn [String.eqb fst snd].
  split; [reflexivity|]. now rewrite Hsub, subprocesses_app.
Qed.

Lemma Fg_no_log_file_witness :
  fst (Runit_Fg noCurrentOS (mkRunit "/service" false) "web" [])
  = Some (fmt_Errorf "no log file found" []) /\
  subprocesses (snd (Runit_Fg noCurrentOS (mkRunit "/service" false) "web" []))
  = [Fg_statusCmd (mkRunit "/service" false) "web"].
Proof.
  apply (Fg_no_log_file noCurrentOS (mkRunit "/service" false) "web" []
           "run: /service/web: (pid 123) 45s; run: log: (pid 456) 45s"
           "log: (pid 456)" "456" 456).
  - reflexivity.
  - reflexivity.
  - reflexivity.
  - exists "/usr/bin/svlogd". split; [reflexivity|]. intros _.
    exists [linkEntry "0"; linkEntry "3"]. split; [reflexivity|].
    eapply noCurrent_link; [vm_compute; discriminate|reflexivity|vm_compute; discriminate|].
    eapply noCurrent_link; [vm_compute; discriminate|reflexivity|vm_compute; discriminate|].
    apply noCurrent_nil.
Defined.

(** X19. [Fg] launches [tail] on nothing but a file named [current]:
    besides the status query, the subprocesses it launches are none, or one
    [tail -f] of such a file. *)
Lemma Fg_tails_current_only : forall os o svc tr,
  subprocesses (snd (Runit_Fg os o svc tr))
  = (subprocesses tr ++ [Fg_statusCmd o svc])%list \/
  exists file,
    filepath.Base file = "current" /\
    subprocesses (snd (Runit_Fg os o svc tr))
    = (subprocesses tr ++ [Fg_statusCmd o svc; mkCmd "tail" ["-f"; file] None])%list.
Proof.
  intros os o svc tr. rewrite Runit_Fg_eq. cbv zeta.
  destruct (exec_CombinedOutput os tr (Fg_statusCmd o svc)) as [txt [e|]];
    [left; cbn [snd]; now rewrite subprocesses_app|].
  destruct (negb (Nat.eqb (List.length (regexp.FindSubmatch runitLoggerRegexp txt)) 2));
    [left; cbn [snd]; now rewrite subprocesses_app|].
  destruct (strconv.Atoi (at_ (regexp.FindSubmatch runitLoggerRegexp txt) 1)) as [pid [e|]];
    [left; cbn [snd]; now rewrite subprocesses_app|].
  destruct (findLogFile_spec os pid (tr ++ [EvCombinedOutput (Fg_statusCmd o svc)])%list)
    as [Hsub Hfile].
  destruct (findLogFile os pid _) as [[file [e|]] tr2]; cbn [fst snd] in *;
    rewrite subprocesses_app in Hsub; cbn [subprocesses] in Hsub;
    [now left|].
  destruct (String.eqb_spec file "") as [->|Hne]; [now left|].
  destruct (Hfile eq_refl) as [?|Hbase]; [contradiction|].
  right. exists file. split; [assumption|].
  destruct (exec_Start os tr2 _) as [e|]; cbn [snd];
    rewrite subprocesses_app, Hsub, <- app_assoc; reflexivity.
Qed.

(* ================================================================= *)
(** * Further properties of [Status] *)

(** ** The subprocesses of [Status] *)

Lemma Status_loop_events : forall os sup dirs svcs tr,
  exists done rest,
    dirs = (done ++ rest)%list /\
    snd (forRange dirs (Status_body os sup) svcs tr) = (tr ++ statusEvents sup done)%list /\
    match fst (forRange dirs (Status_body os sup) svcs tr) with
    | Continue _ => rest = []
    | Return (_, err) => DebugMode sup = true /\ err <> None
    end.
Proof.
  intros os sup. induction dirs as [|dir dirs IH]; intros svcs tr.
  - exists [], []. cbn. now rewrite app_nil_r.
  - rewrite forRange_cons, Status_body_eq.
    assert (Hgo : forall svcs' : list Service,
      exists done rest,
        dir :: dirs = (done ++ rest)%list /\
        snd (forRange dirs (Status_body os sup) svcs'
                      (tr ++ [EvCombinedOutput (statusCmd sup dir)])%list)
        = (tr ++ statusEvents sup done)%list /\
        match fst (forRange dirs (Status_body os sup) svcs'
                            (tr ++ [EvCombinedOutput (statusCmd sup dir)])%list) with
        | Continue _ => rest = []
        | Return (_, err) => DebugMode sup = true /\ err <> None
        end).
    { intros svcs'.
      destruct (IH svcs' (tr ++ [EvCombinedOutput (statusCmd sup dir)])%list)
        as (done & rest & -> & Htr & Hres).
      exists (dir :: done), rest. rewrite Htr.
      cbn [app statusEvents map]. rewrite <- app_assoc. auto. }
    assert (Hstop : forall e : error,
      DebugMode sup = true ->
      exists done rest,
        dir :: dirs = (done ++ rest)%list /\
        (tr ++ [EvCombinedOutput (statusCmd sup dir)])%list
        = (tr ++ statusEvents sup done)%list /\
        (DebugMode sup = true /\ Some e <> None)).
    { intros e Hd. exists [dir], dirs. repeat split; auto; discriminate. }
    destruct (exec_CombinedOutput os tr (statusCmd sup dir)) as [raw [e|]].
    + destruct (DebugMode sup) eqn:Hd; [|apply Hgo].
      cbn [fst snd]. apply Hstop. reflexivity.
    + rewrite Status_parse_shift.
      destruct (Status_parse_cases sup (filepath.Base dir) raw)
        as [Hc|[(svc & Hc & _)|(Hd & e & Hc)]]; rewrite Hc;
        [apply Hgo|apply Hgo|].
      cbn [fst snd]. apply (Hstop e Hd).
Qed.

(** X1. [Status] (Runit and S6) reads the base directory once and then
    launches one status subprocess for each service directory, in sorted
    order, and nothing else.  It stops before the last directory only when
    it returns an error, which happens in debug mode only; when the base
    directory cannot be read it launches nothing. *)
Theorem Status_one_query_per_directory : forall os sup tr,
  match ioutil_ReadDir os tr (BaseDir sup) with
  | (_, Some _) =>
      snd (Supervisor_Status os sup tr) = (tr ++ [EvReadDir (BaseDir sup)])%list
  | (files, None) =>
      exists done rest,
        dirsOf files = (done ++ rest)%list /\
        snd (Supervisor_Status os sup tr)
        = (tr ++ EvReadDir (BaseDir sup) :: statusEvents sup done)%list /\
        (rest <> [] ->
         DebugMode sup = true /\ snd (fst (Supervisor_Status os sup tr)) <> None)
  end.
Proof.
  intros os sup tr. rewrite Supervisor_Status_eq.
  destruct (ioutil_ReadDir os tr (BaseDir sup)) as [files [e|]]; [reflexivity|].
  destruct (Status_loop_events os sup (dirsOf files) []
                               (tr ++ [EvReadDir (BaseDir sup)])%list)
    as (done & rest & Hdirs & Htr & Hres).
  destruct (forRange (dirsOf files) (Status_body os sup) []
                     (tr ++ [EvReadDir (BaseDir sup)])%list) as [f tr'].
  cbn [fst snd] in *. exists done, rest. subst tr'.
  rewrite <- app_assoc. cbn [app]. repeat split; auto.
  - destruct f as [svcs|[svcs err]]; [congruence|tauto].
  - destruct f as [svcs|[svcs err]]; [congruence|]. cbn [snd]. tauto.
Qed.

(** ** Debug mode against normal mode *)

(** What debug mode makes of a text, normal mode makes too. *)
Lemma Status_parse_debug_normal : forall sup name raw svcs,
  match Status_parse (withDebugMode sup true) name raw svcs with
  | Continue l => Status_parse (withDebugMode sup false) name raw svcs = Continue l
  | Return (l, _) => l = svcs
  end.
Proof.
  intros [o|o] name raw svcs;
    cbn [withDebugMode Status_parse];
    [unfold Runit_Status_parse|unfold S6_Status_parse]; unfold andThen;
    cbn [Runit_DebugMode S6_DebugMode];
    match goal with |- context [regexp.FindSubmatch ?re raw] =>
      generalize (regexp.FindSubmatch re raw); intros m end;
    repeat (match goal with
            | |- context [let '(_, _) := ?p in _] => destruct p as [? [?|]] eqn:?
            | |- context [if ?b then _ else _] => destruct b eqn:?
            end; cbn [isSome andb app]);
    reflexivity.
Qed.

Lemma Status_loop_debug_prefix : forall os sup dirs svcs tr,
  exists rest,
    match fst (forRange dirs (Status_body os (withDebugMode sup true)) svcs tr),
          fst (forRange dirs (Status_body os (withDebugMode sup false)) svcs tr) with
    | Continue d, Continue n => n = d /\ rest = []
    | Return (d, Some _), Continue n => n = (d ++ rest)%list
    | _, _ => False
    end.
Proof.
  intros os sup. induction dirs as [|dir dirs IH]; intros svcs tr.
  - exists []. cbn. auto.
  - rewrite !forRange_cons, !Status_body_eq, !statusCmd_withDebugMode,
      !DebugMode_withDebugMode.
    assert (Hnormal : forall svcs' : list Service,
      exists ext,
        fst (forRange dirs (Status_body os (withDebugMode sup false)) svcs'
                      (tr ++ [EvCombinedOutput (statusCmd sup dir)])%list)
        = Continue (svcs' ++ ext)%list).
    { intros svcs'.
      destruct (Status_loop os (withDebugMode sup false) (fun _ => True)
                  (fun _ _ _ _ => I) dirs svcs'
                  (tr ++ [EvCombinedOutput (statusCmd sup dir)])%list)
        as (ext & [H|(Hd & _)] & _).
      - exists ext. exact H.
      - rewrite DebugMode_withDebugMode in Hd. discriminate Hd. }
    destruct (exec_CombinedOutput os tr (statusCmd sup dir)) as [raw [e|]].
    + destruct (Hnormal svcs) as (ext & H). exists ext. cbn [fst]. now rewrite H.
    + pose proof (Status_parse_debug_normal sup (filepath.Base dir) raw svcs) as Hdn.
      pose proof (Status_parse_shift (withDebugMode sup true)
                    (filepath.Base dir) raw svcs) as Hs.
      destruct (Status_parse (withDebugMode sup true) (filepath.Base dir) raw svcs)
        as [l|[l err]].
      * rewrite Hdn. apply IH.
      * subst l. cbn [fst].
        assert (Herr : exists e, err = Some e).
        { destruct (Status_parse_cases (withDebugMode sup true) (filepath.Base dir) raw)
            as [Hc|[(svc & Hc & _)|(_ & e & Hc)]]; rewrite Hc in Hs;
            [discriminate|discriminate|].
          exists e. congruence. }
        destruct Herr as (e & ->).
        rewrite (Status_parse_shift (withDebugMode sup false)).
        destruct (Status_parse_cases (withDebugMode sup false) (filepath.Base dir) raw)
          as [Hc|[(svc & Hc & _)|(Hd & _)]];
          [| |rewrite DebugMode_withDebugMode in Hd; discriminate Hd].
        -- rewrite Hc. destruct (Hnormal (svcs ++ [])%list) as (ext & H).
           rewrite H, app_nil_r. eauto.
        -- rewrite Hc. destruct (Hnormal (svcs ++ [svc])%list) as (ext & H).
           rewrite H, <- app_assoc. eauto.
Qed.

(** X2. For one and the same system, the services [Status] returns in
    debug mode are a prefix of those it returns in normal mode (the two
    differ in the DebugMode field only), and the two lists are equal when
    debug mode returns no error. *)
Theorem Status_debug_prefix_of_normal : forall os sup tr,
  exists rest,
    fst (fst (Supervisor_Status os (withDebugMode sup false) tr))
    = (fst (fst (Supervisor_Status os (withDebugMode sup true) tr)) ++ rest)%list /\
    (snd (fst (Supervisor_Status os (withDebugMode sup true) tr)) = None -> rest = []).
Proof.
  intros os sup tr. rewrite !Supervisor_Status_eq, !BaseDir_withDebugMode.
  destruct (ioutil_ReadDir os tr (BaseDir sup)) as [files [e|]].
  - exists []. cbn. auto.
  - destruct (Status_loop_debug_prefix os sup (dirsOf files) []
                (tr ++ [EvReadDir (BaseDir sup)])%list) as (rest & H).
    destruct (forRange (dirsOf files) (Status_body os (withDebugMode sup true)) []
                (tr ++ [EvReadDir (BaseDir sup)])%list) as [[d|[d [e|]]] trd];
      destruct (forRange (dirsOf files) (Status_body os (withDebugMode sup false)) []
                  (tr ++ [EvReadDir (BaseDir sup)])%list) as [[n|[n en]] trn];
      cbn [fst snd] in *; try contradiction.
    + destruct H as [-> ->]. exists []. now rewrite app_nil_r.
    + exists rest. split; [assumption|discriminate].
Qed.

(* ================================================================= *)
(** * Starting, stopping and restarting *)

(** A loop that runs [s6-svc] with one flag for each service and returns
    at the first failure, as the loops of [S6.Start], [S6.Stop] and
    [S6.Restart] do. *)
Section SvcLoop.
Variable os : OS.
Variable o : S6.
Variable flag : string.
Variable format : string.
Variable body : string -> unit -> M (Flow unit (option error)).
Hypothesis body_eq : forall svc u tr,
  body svc u tr =
  (match snd (exec_CombinedOutput os tr (mkCmd "s6-svc" [flag; S6_fullService o svc] None)) with
   | Some e => Return (Some (fmt_Errorf format [ArgString svc; ArgError (Some e)]))
   | None => Continue tt
   end,
   (tr ++ [EvCombinedOutput (mkCmd "s6-svc" [flag; S6_fullService o svc] None)])%list).

Lemma svc_loop : forall svcs tr,
  let cmds := signalCmds (ofS6 o) flag in
  let res := forRange svcs body tt tr in
  (succeed os tr (cmds svcs) /\
   fst res = Continue tt /\
   snd res = (tr ++ map EvCombinedOutput (cmds svcs))%list) \/
  (exists pre bad rest e,
      svcs = (pre ++ bad :: rest)%list /\
      succeed os tr (cmds pre) /\
      snd (exec_CombinedOutput os (tr ++ map EvCombinedOutput (cmds pre))%list
                               (mkCmd "s6-svc" [flag; S6_fullService o bad] None)) = Some e /\
      fst res = Return (Some (fmt_Errorf format [ArgString bad; ArgError (Some e)])) /\
      snd res = (tr ++ map EvCombinedOutput (cmds (pre ++ [bad])))%list).
Proof.
  cbv zeta.
  induction svcs as [|svc svcs IH]; intros tr.
  - left. cbn. rewrite app_nil_r. auto using succeed_nil.
  - rewrite forRange_cons, body_eq.
    destruct (snd (exec_CombinedOutput os tr (mkCmd "s6-svc" [flag; S6_fullService o svc] None)))
      as [e|] eqn:Hexec.
    + right. exists [], svc, svcs, e. cbn [app map signalCmds fst snd].
      rewrite app_nil_r. auto using succeed_nil.
    + destruct (IH (tr ++ [EvCombinedOutput (mkCmd "s6-svc" [flag; S6_fullService o svc] None)])%list)
        as [(Hok & Hf & Htr)|(pre & bad & rest & e & Hsvcs & Hok & He & Hf & Htr)].
      * left. rewrite Hf, Htr. split; [now apply succeed_cons|].
        split; [reflexivity|].
        cbn [signalCmds map]. now rewrite <- app_assoc.
      * right. exists (svc :: pre), bad, rest, e. rewrite Hf, Htr, Hsvcs.
        cbn [signalCmds map app] in *. rewrite <- !app_assoc in *.
        repeat split; auto. now apply succeed_cons.
Qed.

(** The loop stops where the loop of [S6.Signal] with the same flag
    stops. *)
Lemma svc_loop_Signal : forall svcs tr,
  snd (forRange svcs body tt tr) = snd (forRange svcs (S6_Signal_body os o flag) tt tr) /\
  (fst (forRange svcs body tt tr) = Continue tt <->
   fst (forRange svcs (S6_Signal_body os o flag) tt tr) = Continue tt).
Proof.
  induction svcs as [|svc svcs IH]; intros tr.
  - cbn. tauto.
  - rewrite !forRange_cons, body_eq, S6_Signal_body_eq.
    destruct (snd (exec_CombinedOutput os tr _)) as [e|]; [|apply IH].
    cbn [fst snd]. split; [reflexivity|]. split; discriminate.
Qed.
End SvcLoop.

Lemma S6_act_body_eq : forall os o a svc u tr,
  match a with
  | ActStart => S6_Start_body os o
  | ActStop => S6_Stop_body os o
  | ActRestart => S6_Restart_body os o
  end svc u tr =
  (match snd (exec_CombinedOutput
                os tr (mkCmd "s6-svc" [actionCmd (ofS6 o) a; S6_fullService o svc] None)) with
   | Some e => Return (Some (fmt_Errorf "failed restarting %s: %s"
                                        [ArgString svc; ArgError (Some e)]))
   | None => Continue tt
   end,
   (tr ++ [EvCombinedOutput
             (mkCmd "s6-svc" [actionCmd (ofS6 o) a; S6_fullService o svc] None)])%list).
Proof.
  intros os o [] svc u tr; cbn [actionCmd];
    unfold S6_Start_body, S6_Stop_body, S6_Restart_body,
      S6_runCmd, bind, CombinedOutput, ret;
    match goal with |- context [exec_CombinedOutput ?a ?b ?c] =>
      destruct (exec_CombinedOutput a b c) as [out [e|]] end; reflexivity.
Qed.

Lemma S6_act_eq : forall os o a svcs tr,
  Supervisor_act os (ofS6 o) a svcs tr =
  let '(f, tr') := forRange svcs
                     match a with
                     | ActStart => S6_Start_body os o
                     | ActStop => S6_Stop_body os o
                     | ActRestart => S6_Restart_body os o
                     end tt tr in
  (match f with Return r => r | Continue _ => None end, tr').
Proof.
  intros os o [] svcs tr; cbn [Supervisor_act Supervisor_Start Supervisor_Stop
                                 Supervisor_Restart];
    unfold S6_Start, S6_Stop, S6_Restart, bind, ret;
    match goal with |- context [forRange ?a ?b ?c ?d] =>
      destruct (forRange a b c d) as [[u|r] tr'] end; reflexivity.
Qed.

Lemma Runit_act_eq : forall os o a svcs tr,
  Supervisor_act os (ofRunit o) a svcs tr =
  (snd (exec_CombinedOutput
          os tr (mkCmd "sv" (actionCmd (ofRunit o) a :: Runit_fullSvcs o svcs)
                       (Some [("SVDIR=" ++ Runit_BaseDir o)%string]))),
   (tr ++ [EvCombinedOutput
             (mkCmd "sv" (actionCmd (ofRunit o) a :: Runit_fullSvcs o svcs)
                    (Some [("SVDIR=" ++ Runit_BaseDir o)%string]))])%list).
Proof.
  intros os o [] svcs tr; cbn [Supervisor_act Supervisor_Start Supervisor_Stop
                                 Supervisor_Restart actionCmd];
    unfold Runit_Start, Runit_Stop, Runit_Restart, Runit_runCmd,
      bind, CombinedOutput, ret;
    match goal with |- context [exec_CombinedOutput ?a ?b ?c] =>
      destruct (exec_CombinedOutput a b c) as [out err] end; reflexivity.
Qed.

(** X3. [Start], [Stop] and [Restart].  Runit runs one [sv] with the
    subcommand [up], [down] or [quit], naming every service (also when
    none is named), and returns its outcome as it is.  S6 runs one
    [s6-svc] with the flag [-u], [-Dd] or [-q] for each service, in order,
    as long as they succeed: when all of them succeed, all are run and the
    method returns nil; otherwise, at the first one that fails (those
    before it having succeeded), the method returns that failure in an
    error that says [failed restarting], for [Start] and [Stop] too, and no
    service after it is touched. *)
Theorem Start_Stop_Restart_commands : forall os sup a svcs tr,
  match sup with
  | ofRunit o =>
      exists c,
        signalCmds sup (actionCmd sup a) svcs = [c] /\
        Supervisor_act os sup a svcs tr
        = (snd (exec_CombinedOutput os tr c), (tr ++ [EvCombinedOutput c])%list)
  | ofS6 o =>
      (succeed os tr (signalCmds sup (actionCmd sup a) svcs) /\
       Supervisor_act os sup a svcs tr
       = (None, (tr ++ map EvCombinedOutput (signalCmds sup (actionCmd sup a) svcs))%list)) \/
      exists pre bad rest e,
        svcs = (pre ++ bad :: rest)%list /\
        succeed os tr (signalCmds sup (actionCmd sup a) pre) /\
        snd (exec_CombinedOutput
               os (tr ++ map EvCombinedOutput (signalCmds sup (actionCmd sup a) pre))%list
               (mkCmd "s6-svc" [actionCmd sup a; S6_fullService o bad] None)) = Some e /\
        Supervisor_act os sup a svcs tr
        = (Some (fmt_Errorf "failed restarting %s: %s" [ArgString bad; ArgError (Some e)]),
           (tr ++ map EvCombinedOutput (signalCmds sup (actionCmd sup a) (pre ++ [bad])))%list)
  end.
Proof.
  intros os [o|o] a svcs tr.
  - eexists. split; [reflexivity|]. apply Runit_act_eq.
  - rewrite S6_act_eq.
    destruct (svc_loop os o (actionCmd (ofS6 o) a) "failed restarting %s: %s" _
                       (S6_act_body_eq os o a) svcs tr)
      as [(Hok & Hf & Htr)|(pre & bad & rest & e & Hsvcs & Hok & He & Hf & Htr)];
      destruct (forRange svcs _ tt tr) as [f tr'];
      cbn [fst snd] in *; subst f tr'.
    + left. split; [assumption|reflexivity].
    + right. exists pre, bad, rest, e. auto.
Qed.

(** X4. [Restart] goes the way of [Signal] with SIGQUIT.  For Runit the two
    calls are the same computation.  For S6 they launch the same
    subprocesses and fail together, at the same service; only the text of
    the error differs. *)
Theorem Restart_as_Signal_quit : forall os sup svcs tr,
  snd (Supervisor_Restart os sup svcs tr)
  = snd (Supervisor_Signal os sup (ofSyscall syscall.SIGQUIT) svcs tr) /\
  (fst (Supervisor_Restart os sup svcs tr) = None <->
   fst (Supervisor_Signal os sup (ofSyscall syscall.SIGQUIT) svcs tr) = None) /\
  match sup with
  | ofRunit _ =>
      Supervisor_Restart os sup svcs tr
      = Supervisor_Signal os sup (ofSyscall syscall.SIGQUIT) svcs tr
  | ofS6 _ => True
  end.
Proof.
  intros os [o|o] svcs tr.
  - assert (H : Supervisor_Restart os (ofRunit o) svcs tr
                = Supervisor_Signal os (ofRunit o) (ofSyscall syscall.SIGQUIT) svcs tr)
      by reflexivity.
    rewrite H. tauto.
  - change (Supervisor_Restart os (ofS6 o) svcs tr)
      with (Supervisor_act os (ofS6 o) ActRestart svcs tr).
    rewrite S6_act_eq.
    cbn [Supervisor_Signal]. unfold S6_Signal.
    change (S6_signals (ofSyscall syscall.SIGQUIT)) with (Some "-q").
    unfold bind, ret.
    destruct (svc_loop_Signal os o "-q" "failed restarting %s: %s" _
                (S6_act_body_eq os o ActRestart) svcs tr) as [Htr Hf].
    pose proof (svc_loop os o "-q" "failed restarting %s: %s" _
                  (S6_act_body_eq os o ActRestart) svcs tr) as Hr.
    pose proof (S6_Signal_loop os o "-q" svcs tr) as Hs.
    cbv zeta in Hr, Hs.
    destruct (forRange svcs (S6_Restart_body os o) tt tr) as [fr trr];
      destruct (forRange svcs (S6_Signal_body os o "-q") tt tr) as [fs trs];
      cbn [fst snd] in *.
    subst trs.
    destruct Hr as [(_ & -> & _)|(? & ? & ? & ? & _ & _ & _ & -> & _)];
      destruct Hs as [(_ & -> & _)|(? & ? & ? & ? & _ & _ & _ & -> & _)];
      cbn [fst snd]; (split; [reflexivity|]); (split; [|exact I]);
      split; intros H; try reflexivity; try discriminate H.
    + destruct Hf as [Hf _]. specialize (Hf eq_refl). discriminate Hf.
    + destruct Hf as [_ Hf]. specialize (Hf eq_refl). discriminate Hf.
Qed.

(* ================================================================= *)
(** * [Runit.Terminate] *)

Lemma eqb_byte_eq : forall a b, eqb_byte a b = true <-> a = b.
Proof. intros a b. unfold eqb_byte. apply Ascii.eqb_eq. Qed.

Lemma HasPrefix_iff : forall s p, HasPrefix s p = true <-> exists b, s = p ++ b.
Proof.
  intros s p. revert s. induction p as [|a p IH]; intros s.
  - destruct s; cbn; split; eauto.
  - destruct s as [|c s]; cbn [HasPrefix append].
    + split; [discriminate|]. intros (b & H). discriminate H.
    + rewrite andb_true_iff, eqb_byte_eq, IH. split.
      * intros (-> & b & ->). eauto.
      * intros (b & H). injection H as -> ->. eauto.
Qed.

(** [strings_Contains] finds the substrings, and only them. *)
Lemma Contains_iff : forall s substr,
  strings_Contains s substr = true <-> exists a b, s = a ++ substr ++ b.
Proof.
  induction s as [|c s IH]; intros substr; cbn [strings_Contains].
  - destruct (HasPrefix "" substr) eqn:Hp.
    + split; [intros _|reflexivity].
      apply HasPrefix_iff in Hp as (b & Hb). exists EmptyString, b. exact Hb.
    + split; [discriminate|]. intros (a & b & H).
      destruct a; [|discriminate H]. cbn [append] in H.
      assert (Hp' : HasPrefix "" substr = true) by (apply HasPrefix_iff; eauto).
      congruence.
  - destruct (HasPrefix (String c s) substr) eqn:Hp.
    + split; [intros _|reflexivity].
      apply HasPrefix_iff in Hp as (b & Hb). exists EmptyString, b. exact Hb.
    + rewrite IH. split.
      * intros (a & b & ->). exists (String c a), b. reflexivity.
      * intros (a & b & H). destruct a as [|c' a]; cbn [append] in H.
        -- assert (Hp' : HasPrefix (String c s) substr = true)
             by (apply HasPrefix_iff; eauto).
           congruence.
        -- injection H as -> ->. eauto.
Qed.

Lemma length_le_Contains : forall s substr,
  strings_Contains s substr = true -> (String.length substr <= String.length s)%nat.
Proof.
  intros s substr H. apply Contains_iff in H as (a & b & ->).
  rewrite !length_append. lia.
Qed.

Lemma Terminate_range_spec : forall Kill o procs sent,
  let res := Runit_Terminate_range Kill o procs sent in
  (delivered Kill sent (filter (isRunsvdir o) procs) /\
   fst res = None /\
   snd res = (sent ++ hangups (filter (isRunsvdir o) procs))%list) \/
  (exists pre pid proc rest e,
      procs = (pre ++ (pid, proc) :: rest)%list /\
      isRunsvdir o (pid, proc) = true /\
      delivered Kill sent (filter (isRunsvdir o) pre) /\
      Kill (sent ++ hangups (filter (isRunsvdir o) pre))%list pid syscall.SIGHUP = Some e /\
      fst res = Some (fmt_Errorf "failed killing runsvdir process %d: %w"
                                 [ArgString (strconv.Itoa pid); ArgError (Some e)]) /\
      snd res = (sent ++ hangups (filter (isRunsvdir o) (pre ++ [(pid, proc)])))%list).
Proof.
  intros Kill o. cbv zeta. induction procs as [|[pid proc] procs IH]; intros sent.
  - left. cbn. rewrite app_nil_r. auto using delivered_nil.
  - cbn [Runit_Terminate_range filter].
    change (strings_Contains (proc_Name proc) ("runsvdir " ++ Runit_BaseDir o))
      with (isRunsvdir o (pid, proc)).
    destruct (isRunsvdir o (pid, proc)) eqn:Hm.
    + destruct (Kill sent pid syscall.SIGHUP) as [e|] eqn:Hk.
      * right. exists [], pid, proc, procs, e.
        cbn [app filter hangups map fst snd]. rewrite Hm, app_nil_r.
        auto 6 using delivered_nil.
      * destruct (IH (sent ++ [(pid, syscall.SIGHUP)])%list)
          as [(Hd & Hf & Hs)|(pre & pid' & proc' & rest & e & -> & Hm' & Hd & Hk' & Hf & Hs)].
        -- left. rewrite Hf, Hs. cbn [hangups map fst].
           split; [now apply delivered_cons|]. now rewrite <- app_assoc.
        -- right. exists ((pid, proc) :: pre), pid', proc', rest, e.
           rewrite Hf, Hs. cbn [app filter]. rewrite Hm.
           cbn [hangups map fst] in *. rewrite <- !app_assoc in *.
           repeat split; auto. now apply delivered_cons.
    + destruct (IH sent)
        as [(Hd & Hf & Hs)|(pre & pid' & proc' & rest & e & -> & Hm' & Hd & Hk' & Hf & Hs)].
      * left. auto.
      * right. exists ((pid, proc) :: pre), pid', proc', rest, e.
        cbn [app filter]. rewrite Hm. auto 6.
Qed.

(** X5. [Runit.Terminate] sends SIGHUP, and nothing else, to the processes
    whose name contains [runsvdir <BaseDir>], in the order in which it
    visits them, as long as the signals are delivered.  When all of them
    are delivered, all of these processes are signalled and it returns
    nil; otherwise, at the first signal that is not delivered (those before
    it having been), it returns that failure, and no process after it is
    signalled.  When the process tree cannot be read it sends nothing. *)
Theorem Terminate_hangs_up_runsvdir : forall New Kill o sent,
  match New with
  | (_, Some e) =>
      Runit_Terminate New Kill o sent
      = (Some (fmt_Errorf "failed fetching process tree: %w" [ArgError (Some e)]), sent)
  | (procs, None) =>
      (delivered Kill sent (filter (isRunsvdir o) procs) /\
       Runit_Terminate New Kill o sent
       = (None, (sent ++ hangups (filter (isRunsvdir o) procs))%list)) \/
      exists pre pid proc rest e,
        procs = (pre ++ (pid, proc) :: rest)%list /\
        isRunsvdir o (pid, proc) = true /\
        delivered Kill sent (filter (isRunsvdir o) pre) /\
        Kill (sent ++ hangups (filter (isRunsvdir o) pre))%list pid syscall.SIGHUP = Some e /\
        Runit_Terminate New Kill o sent
        = (Some (fmt_Errorf "failed killing runsvdir process %d: %w"
                            [ArgString (strconv.Itoa pid); ArgError (Some e)]),
           (sent ++ hangups (filter (isRunsvdir o) pre) ++ [(pid, syscall.SIGHUP)])%list)
  end.
Proof.
  intros [procs [e|]] Kill o sent; unfold Runit_Terminate; [reflexivity|].
  destruct (Terminate_range_spec Kill o procs sent)
    as [(Hd & Hf & Hs)|(pre & pid & proc & rest & e & Hp & Hm & Hd & Hk & Hf & Hs)];
    destruct (Runit_Terminate_range Kill o procs sent) as [err sent'];
    cbn [fst snd] in *; subst err sent'.
  - left. split; [assumption|reflexivity].
  - right. exists pre, pid, proc, rest, e. repeat split; auto.
    rewrite filter_app. cbn [filter]. rewrite Hm.
    unfold hangups. rewrite map_app. reflexivity.
Qed.

(** X6. When no process has a name long enough to hold the text
    [runsvdir <BaseDir>] (the nine bytes of [runsvdir ] and the base
    directory), [Runit.Terminate] signals nothing and still returns nil. *)
Theorem Terminate_short_names : forall procs Kill o sent,
  Forall (fun p => (String.length (proc_Name (snd p))
                    < 9 + String.length (Runit_BaseDir o))%nat) procs ->
  Runit_Terminate (procs, None) Kill o sent = (None, sent).
Proof.
  intros procs Kill o sent Hshort. unfold Runit_Terminate.
  revert sent. induction Hshort as [|[pid proc] procs Hp _ IH]; intros sent;
    cbn [Runit_Terminate_range]; [reflexivity|].
  destruct (strings_Contains (proc_Name proc) ("runsvdir " ++ Runit_BaseDir o)) eqn:Hc;
    [|apply IH].
  apply length_le_Contains in Hc. rewrite length_append in Hc.
  cbn [snd String.length] in *. lia.
Qed.

Lemma Terminate_short_names_witness :
  Runit_Terminate ([(1, mkProcess "init"); (812, mkProcess "runsvdir")], None)
                  (fun _ _ _ => None) (mkRunit "/etc/service" false) []
  = (None, []).
Proof.
  apply (Terminate_short_names
           [(1, mkProcess "init"); (812, mkProcess "runsvdir")]
           (fun _ _ _ => None) (mkRunit "/etc/service" false) []).
  repeat constructor.
Defined.

Lemma isRunsvdir_longer : forall b x dbg dbg' p,
  isRunsvdir (mkRunit (b ++ x) dbg) p = true -> isRunsvdir (mkRunit b dbg') p = true.
Proof.
  intros b x dbg dbg' p. unfold isRunsvdir. cbn [Runit_BaseDir].
  rewrite !Contains_iff. intros (a & c & ->).
  exists a, (x ++ c). now rewrite !append_assoc.
Qed.

(** X7. [Runit.Terminate] does not tell its own [runsvdir] from the one of
    a base directory whose path only begins with its own: when signals are
    delivered, every process that [Terminate] for the base directory
    [b ++ x] signals is signalled by [Terminate] for [b] as well. *)
Theorem Terminate_longer_base_dir : forall procs Kill b x dbg dbg',
  (forall sent pid sig, Kill sent pid sig = None) ->
  incl (snd (Runit_Terminate (procs, None) Kill (mkRunit (b ++ x) dbg) []))
       (snd (Runit_Terminate (procs, None) Kill (mkRunit b dbg') [])).
Proof.
  intros procs Kill b x dbg dbg' Hkill.
  assert (Hall : forall o, Runit_Terminate (procs, None) Kill o []
                           = (None, hangups (filter (isRunsvdir o) procs))).
  { intros o. unfold Runit_Terminate.
    destruct (Terminate_range_spec Kill o procs [])
      as [(_ & Hf & Hs)|(pre & pid & proc & rest & e & _ & _ & _ & Hk & _)].
    - destruct (Runit_Terminate_range Kill o procs []); cbn [fst snd] in *.
      now subst.
    - rewrite Hkill in Hk. discriminate Hk. }
  rewrite !Hall. cbn [snd]. intros s Hs. unfold hangups in *.
  apply in_map_iff in Hs as (p & <- & Hp).
  apply (in_map (fun p : Z * Process => (fst p, syscall.SIGHUP))).
  apply filter_In in Hp as [Hin Hm]. apply filter_In. split; [assumption|].
  now apply (isRunsvdir_longer b x dbg dbg').
Qed.

Lemma Terminate_longer_base_dir_witness :
  let procs := [(7, mkProcess "runsvdir /service"); (9, mkProcess "runsvdir /service2")] in
  snd (Runit_Terminate (procs, None) (fun _ _ _ => None) (mkRunit "/service" false) [])
  = [(7, syscall.SIGHUP); (9, syscall.SIGHUP)] /\
  incl (snd (Runit_Terminate (procs, None) (fun _ _ _ => None)
                             (mkRunit ("/service" ++ "2") false) []))
       (snd (Runit_Terminate (procs, None) (fun _ _ _ => None)
                             (mkRunit "/service" false) [])).
Proof.
  split; [reflexivity|].
  apply (Terminate_longer_base_dir
           [(7, mkProcess "runsvdir /service"); (9, mkProcess "runsvdir /service2")]
           (fun _ _ _ => None) "/service" "2" false false).
  reflexivity.
Defined.

(* ================================================================= *)
(** * The shell's commands *)

Lemma mapIndex_In : forall (V : Type) (m : list (string * V)) key v,
  mapIndex m key = Some v -> In (key, v) m.
Proof.
  induction m as [|[k v'] m IH]; intros key v; cbn [mapIndex]; [discriminate|].
  destruct (String.eqb k key) eqn:Hk.
  - apply String.eqb_eq in Hk as ->. intros [= ->]. now left.
  - intros H. right. now apply IH.
Qed.

(** What is true of every signal of the shell's table. *)
Lemma main_signals_supported : forall key sig,
  In (key, sig) main_signals ->
  S6_signals sig <> None /\
  (Runit_signals sig = None <-> sig = ofSyscall syscall.SIGWINCH) /\
  sig <> ofSyscall syscall.SIGSTOP /\ sig <> ofSyscall syscall.SIGABRT /\
  (forall cmd, Runit_signals sig = Some cmd ->
               In cmd ["hup"; "interrupt"; "quit"; "kill"; "1"; "2"; "alarm"; "term"; "cont"]).
Proof.
  intros key sig Hin. unfold main_signals in Hin. cbn [In] in Hin.
  repeat (destruct Hin as [Hin|Hin]; [injection Hin as <- <-|]); [..|contradiction].
  all: repeat split; try discriminate; try reflexivity.
  all: try (intros cmd [= <-]; cbn; tauto).
  all: intros cmd H; discriminate H.
Qed.

(** X8. [parseSignal] is decided by the shell's table.  When neither the
    lower-case nor the upper-case form of the name is a key of the table,
    it returns [ErrUnsupportedSignal] with a nil signal.  Otherwise it
    returns, with a nil error, the signal the table holds for the
    lower-case form or, when that is no key, for the upper-case form.
    Every signal it returns has a flag in the S6 adapter; the Runit adapter
    has a subcommand for all of them except SIGWINCH; and it never returns
    SIGSTOP or SIGABRT, the signals behind Runit's [pause] and S6's
    [-b]. *)
Theorem parseSignal_supported : forall ToLower ToUpper s,
  (mapIndex main_signals (ToLower s) = None /\
   mapIndex main_signals (ToUpper s) = None /\
   parseSignal ToLower ToUpper s = (None, Some ErrUnsupportedSignal)) \/
  (exists sig,
      (mapIndex main_signals (ToLower s) = Some sig \/
       mapIndex main_signals (ToLower s) = None /\
       mapIndex main_signals (ToUpper s) = Some sig) /\
      parseSignal ToLower ToUpper s = (Some sig, None) /\
      S6_signals sig <> None /\
      (Runit_signals sig = None <-> sig = ofSyscall syscall.SIGWINCH) /\
      sig <> ofSyscall syscall.SIGSTOP /\ sig <> ofSyscall syscall.SIGABRT /\
      Runit_signals sig <> Some "pause" /\ S6_signals sig <> Some "-b").
Proof.
  intros ToLower ToUpper s.
  assert (Hsig : forall key sig,
    mapIndex main_signals key = Some sig ->
    S6_signals sig <> None /\
    (Runit_signals sig = None <-> sig = ofSyscall syscall.SIGWINCH) /\
    sig <> ofSyscall syscall.SIGSTOP /\ sig <> ofSyscall syscall.SIGABRT /\
    Runit_signals sig <> Some "pause" /\ S6_signals sig <> Some "-b").
  { intros key sig Hkey. apply mapIndex_In in Hkey as Hin.
    destruct (main_signals_supported key sig Hin) as (H6 & Hr & Hstop & Habrt & Hcmd).
    repeat split; try tauto.
    - intros H. apply Hcmd in H. cbn in H.
      repeat (destruct H as [H|H]; [discriminate H|]). contradiction.
    - unfold main_signals in Hin. cbn [In] in Hin.
      repeat (destruct Hin as [Hin|Hin]; [injection Hin as <- <-; discriminate|]).
      contradiction. }
  unfold parseSignal.
  destruct (mapIndex main_signals (ToLower s)) as [sig|] eqn:Hl.
  - right. exists sig. split; [now left|]. split; [reflexivity|]. eapply Hsig; eassumption.
  - destruct (mapIndex main_signals (ToUpper s)) as [sig|] eqn:Hu.
    + right. exists sig. split; [now right|]. split; [reflexivity|].
      eapply Hsig; eassumption.
    + left. auto.
Qed.

(** X9. The shell's command [signal] on the Runit adapter, the one [main]
    builds.  Without arguments it panics, having launched nothing.  With a
    name the table does not know, in lower case or in upper case, and with
    a name of SIGWINCH, it prints the error [ErrUnsupportedSignal] and
    launches nothing.  With any other name of the table it launches exactly
    one subprocess, [sv] with the subcommand of the signal, which is [hup],
    [interrupt], [quit], [kill], [1], [2], [alarm], [term] or [cont],
    followed by the paths of the services, and prints the error of that
    subprocess, or nothing when it succeeds. *)
Theorem ctx_signal_Runit : forall os ToLower ToUpper o Args tr,
  let res := ctx_signal os ToLower ToUpper (ofRunit o) Args tr in
  let unsupported :=
    Some [Printf ("Error: %s" ++ newline) [ArgError (Some ErrUnsupportedSignal)]] in
  match Args with
  | [] => res = (None, tr)
  | name :: svcs =>
      match match mapIndex main_signals (ToLower name) with
            | Some sig => Some sig
            | None => mapIndex main_signals (ToUpper name)
            end with
      | None => res = (unsupported, tr)
      | Some sig =>
          if isSignal sig syscall.SIGWINCH then res = (unsupported, tr)
          else
            exists cmd,
              Runit_signals sig = Some cmd /\
              In cmd ["hup"; "interrupt"; "quit"; "kill"; "1"; "2"; "alarm"; "term"; "cont"] /\
              let c := mkCmd "sv" (cmd :: Runit_fullSvcs o svcs)
                             (Some [("SVDIR=" ++ Runit_BaseDir o)%string]) in
              res = (Some match snd (exec_CombinedOutput os tr c) with
                          | Some e => [Printf ("Error: %s" ++ newline) [ArgError (Some e)]]
                          | None => []
                          end,
                     (tr ++ [EvCombinedOutput c])%list)
      end
  end.
Proof.
  intros os ToLower ToUpper o [|name svcs] tr; cbv zeta; cbn [ctx_signal];
    [reflexivity|].
  unfold parseSignal.
  assert (Hsig : forall sig,
    In sig (map snd main_signals) ->
    if isSignal sig syscall.SIGWINCH then
      (err <- Supervisor_Signal os (ofRunit o) sig svcs ;;
       match err with
       | Some e => ret (Some [Printf ("Error: %s" ++ newline) [ArgError (Some e)]])
       | None => ret (Some [])
       end) tr
      = (Some [Printf ("Error: %s" ++ newline) [ArgError (Some ErrUnsupportedSignal)]], tr)
    else
      exists cmd,
        Runit_signals sig = Some cmd /\
        In cmd ["hup"; "interrupt"; "quit"; "kill"; "1"; "2"; "alarm"; "term"; "cont"] /\
        (err <- Supervisor_Signal os (ofRunit o) sig svcs ;;
         match err with
         | Some e => ret (Some [Printf ("Error: %s" ++ newline) [ArgError (Some e)]])
         | None => ret (Some [])
         end) tr
        = (Some match snd (exec_CombinedOutput
                             os tr (mkCmd "sv" (cmd :: Runit_fullSvcs o svcs)
                                          (Some [("SVDIR=" ++ Runit_BaseDir o)%string]))) with
                | Some e => [Printf ("Error: %s" ++ newline) [ArgError (Some e)]]
                | None => []
                end,
           (tr ++ [EvCombinedOutput
                     (mkCmd "sv" (cmd :: Runit_fullSvcs o svcs)
                            (Some [("SVDIR=" ++ Runit_BaseDir o)%string]))])%list)).
  { intros sig Hin. unfold main_signals in Hin. cbn [map snd In] in Hin.
    repeat (destruct Hin as [Hin|Hin]; [subst sig|]); [..|contradiction];
      match goal with |- context [isSignal ?a ?b] =>
        let v := eval vm_compute in (isSignal a b) in change (isSignal a b) with v end;
      cbv iota;
      try (eexists; split; [vm_compute; reflexivity|]; split; [cbn; tauto|]);
      unfold bind, ret; cbn [Supervisor_Signal]; unfold Runit_Signal;
      match goal with |- context [Runit_signals ?x] =>
        let v := eval vm_compute in (Runit_signals x) in
        change (Runit_signals x) with v end;
      cbv iota; try reflexivity;
      unfold Runit_runCmd, bind, CombinedOutput, ret;
      match goal with |- context [exec_CombinedOutput ?a ?b ?c] =>
        destruct (exec_CombinedOutput a b c) as [out [e|]] end; reflexivity. }
  assert (HIn : forall key sig, mapIndex main_signals key = Some sig ->
                                In sig (map snd main_signals)).
  { intros key sig H. apply mapIndex_In in H. now apply (in_map snd) in H. }
  destruct (mapIndex main_signals (ToLower name)) as [sig|] eqn:Hl.
  - specialize (Hsig sig (HIn _ _ Hl)).
    destruct (isSignal sig syscall.SIGWINCH); exact Hsig.
  - destruct (mapIndex main_signals (ToUpper name)) as [sig|] eqn:Hu.
    + specialize (Hsig sig (HIn _ _ Hu)).
      destruct (isSignal sig syscall.SIGWINCH); exact Hsig.
    + reflexivity.
Qed.

Lemma subseq_map_filter : forall (A B : Type) (f : A -> B) (p : A -> bool) l,
  subseq (map f (filter p l)) (map f l).
Proof.
  induction l as [|x l IH]; cbn [filter map]; [constructor|].
  destruct (p x); cbn [map]; [now apply subseq_take|now apply subseq_skip].
Qed.

(** X10. The completion of a service name asks [Status], making the same
    calls to the system.  When [Status] returns an error, as a single
    failing service makes it do in debug mode, nothing is offered.
    Otherwise the names offered are exactly the names of the services
    [Status] returned, in their order, that the text selects: all of them
    for the empty text, and otherwise those whose lower-case form begins
    with the lower-case form of the text, each of them and no other. *)
Theorem autoCompleteService_of_Status : forall os ToLower sup s args tr,
  let res := autoCompleteService os ToLower sup s args tr in
  let status := Supervisor_Status os sup tr in
  let selected name :=
    s = EmptyString \/ HasPrefix (ToLower name) (ToLower s) = true in
  snd res = snd status /\
  match snd (fst status) with
  | Some _ => fst res = []
  | None =>
      fst res = map Service_Name
                    (filter (fun svc =>
                               String.eqb s "" ||
                               HasPrefix (ToLower (Service_Name svc)) (ToLower s))
                            (fst (fst status))) /\
      subseq (fst res) (map Service_Name (fst (fst status))) /\
      (forall name,
          In name (fst res) <->
          In name (map Service_Name (fst (fst status))) /\ selected name) /\
      (s = EmptyString -> fst res = map Service_Name (fst (fst status)))
  end.
Proof.
  intros os ToLower sup s args tr. cbv zeta.
  unfold autoCompleteService, bind, ret.
  destruct (Supervisor_Status os sup tr) as [[svcs [e|]] tr']; cbn [fst snd].
  - split; reflexivity.
  - split; [reflexivity|]. split; [reflexivity|].
    split; [apply subseq_map_filter|]. split.
    + intros name. rewrite !in_map_iff. split.
      * intros (svc & <- & Hsvc). apply filter_In in Hsvc as [Hin Hp].
        split; [eauto|].
        apply orb_true_iff in Hp as [Hp|Hp]; [left|now right].
        now apply String.eqb_eq in Hp.
      * intros ((svc & <- & Hin) & Hsel). exists svc. split; [reflexivity|].
        apply filter_In. split; [assumption|].
        apply orb_true_iff. destruct Hsel as [->|Hp]; [left; reflexivity|now right].
    + intros ->. cbn [String.eqb orb]. f_equal.
      clear. induction svcs as [|svc svcs IH]; cbn [filter]; [reflexivity|].
      now rewrite IH.
Qed.

(* ================================================================= *)
(** * The fields of a service *)

(** ** [strconv.Atoi] on digits *)

Lemma isDigit_digitVal : forall c, isDigit c = true -> 0 <= digitVal c <= 9.
Proof.
  intros c Hc. unfold isDigit in Hc. apply andb_true_iff in Hc as [Hlo Hhi].
  unfold digitVal. lia.
Qed.

Lemma parseUintLoop_digits : forall s n,
  regexp.allIn regexp.digit s = true -> 0 <= n <= strconv.maxUint64 ->
  strconv.parseUintLoop s n =
  if decimal s n <=? strconv.maxUint64 then (decimal s n, None)
  else (strconv.maxUint64, Some strconv.Range).
Proof.
  change strconv.maxUint64 with 18446744073709551615.
  induction s as [|c s IH]; intros n; cbn [regexp.allIn decimal strconv.parseUintLoop].
  - intros _ Hn. destruct (Z.leb_spec n 18446744073709551615); [reflexivity|lia].
  - rewrite inClass_digit. intros H Hn. apply andb_true_iff in H as [Hc Hs].
    rewrite Hc. cbn [negb].
    change strconv.maxUint64 with 18446744073709551615.
    change (18446744073709551615 / 10 + 1) with 1844674407370955162.
    pose proof (isDigit_digitVal c Hc) as Hv.
    pose proof (decimal_ge s (n * 10 + digitVal c) Hs) as Hge.
    destruct (Z.geb_spec n 1844674407370955162).
    + destruct (Z.leb_spec (decimal s (n * 10 + digitVal c)) 18446744073709551615);
        [lia|reflexivity].
    + destruct (Z.gtb_spec (n * 10 + digitVal c) 18446744073709551615).
      * destruct (Z.leb_spec (decimal s (n * 10 + digitVal c)) 18446744073709551615);
          [lia|reflexivity].
      * apply IH; [assumption|lia].
Qed.

(** [Atoi] on a run of digits: their decimal value, or the largest [int]
    with a range error when the value does not fit. *)
Lemma Atoi_digits : forall s,
  s <> EmptyString -> regexp.allIn regexp.digit s = true ->
  strconv.Atoi s =
  if decimal s 0 <=? strconv.maxInt64 then (decimal s 0, None)
  else (strconv.maxInt64, Some (strconv_NumError "Atoi" s strconv.ErrRange)).
Proof.
  intros [|c s] Hne Hdigits; [congruence|]. clear Hne.
  pose proof Hdigits as Hall.
  cbn [regexp.allIn] in Hdigits. rewrite inClass_digit in Hdigits.
  apply andb_true_iff in Hdigits as [Hc Hs].
  unfold strconv.Atoi, strconv.ParseInt.
  rewrite (isDigit_not c "-"), (isDigit_not c "+") by (assumption || reflexivity).
  cbn [orb negb andb]. unfold strconv.ParseUint.
  rewrite (parseUintLoop_digits (String c s) 0 Hall)
    by (change strconv.maxUint64 with 18446744073709551615; lia).
  change strconv.maxUint64 with 18446744073709551615.
  change strconv.maxInt64 with 9223372036854775807.
  change (2 ^ 63) with 9223372036854775808.
  destruct (Z.leb_spec (decimal (String c s) 0) 18446744073709551615).
  - destruct (Z.geb_spec (decimal (String c s) 0) 9223372036854775808);
      destruct (Z.leb_spec (decimal (String c s) 0) 9223372036854775807);
      try lia; reflexivity.
  - destruct (Z.leb_spec (decimal (String c s) 0) 9223372036854775807); [lia|].
    reflexivity.
Qed.

Ltac state_cases state :=
  repeat (match goal with
          | |- context [if String.eqb state ?x then _ else _] =>
              destruct (String.eqb state x) eqn:?
          end; cbv iota).

(** X11. The fields of a service the Runit loop makes of a status text.
    The text matches the pattern, with a state, pid digits (none when the
    pid group is absent) and seconds digits.  The name is the one the loop
    was given; the status is the one the [switch] gives the state, Unknown
    for any other state; the pid is the decimal value of the pid digits, 0
    without digits and the largest [int] when the value does not fit; the
    duration is the seconds, 0 when they do not fit a [time.Duration].  In
    debug mode the state is one of the four of the [switch] and both
    numbers fit. *)
Theorem Runit_parse_fields : forall o name raw svc,
  Status_parse (ofRunit o) name raw [] = Continue [svc] ->
  exists m0 state pid d,
    regexp.FindSubmatch runitStatusRegexp raw = [m0; state; pid; d ++ "s"] /\
    regexp.allIn regexp.digit pid = true /\
    d <> EmptyString /\ regexp.allIn regexp.digit d = true /\
    Service_Name svc = name /\
    Service_Status svc =
      (if String.eqb state "run" then StatusUp
       else if String.eqb state "down" then StatusDown
       else if String.eqb state "backoff" then StatusBackoff
       else if String.eqb state "disabled" then StatusDisabled
       else StatusUnknown) /\
    Service_Pid svc = Z.min (decimal pid 0) strconv.maxInt64 /\
    Service_Duration svc =
      (if decimal d 0 <=? 9223372036 then decimal d 0 * time.Second else 0) /\
    (Runit_DebugMode o = true ->
     In state ["run"; "down"; "backoff"; "disabled"] /\
     decimal pid 0 <= strconv.maxInt64 /\ decimal d 0 <= 9223372036).
Proof.
  intros o name raw svc. cbn [Status_parse]. unfold Runit_Status_parse.
  destruct (runitStatusRegexp_groups raw)
    as [->|(m0 & state & pid & d & -> & _ & _ & Hpid & Hne & Hdigits)].
  - cbn. destruct (Runit_DebugMode o); discriminate.
  - intros Hsvc. exists m0, state, pid, d.
    split; [reflexivity|]. do 3 (split; [assumption|]). revert Hsvc.
    cbn [List.length Nat.eqb negb at_ nth]. unfold andThen.
    replace (nonEmpty (d ++ "s")) with true by (destruct d; reflexivity).
    pose proof (ParseDuration_seconds d Hne Hdigits) as Hdur.
    destruct (time.ParseDuration (d ++ "s")) as [ns err].
    assert (Hatoi : pid <> EmptyString ->
                    strconv.Atoi pid =
                    if decimal pid 0 <=? strconv.maxInt64 then (decimal pid 0, None)
                    else (strconv.maxInt64,
                          Some (strconv_NumError "Atoi" pid strconv.ErrRange)))
      by (intros Hp; now apply Atoi_digits).
    pose proof (decimal_ge pid 0 Hpid (Z.le_refl 0)) as Hpos.
    destruct pid as [|c pid].
    + cbn [nonEmpty decimal]. change (Z.min 0 strconv.maxInt64) with 0.
      destruct (Z.leb_spec (decimal d 0) 9223372036); injection Hdur as -> ->;
        state_cases state;
        destruct (Runit_DebugMode o) eqn:?;
        cbn [isSome andb app]; intros Hsvc; inversion Hsvc;
        cbn [Service_Name Service_Status Service_Pid Service_Duration
             withStatus withPid withDuration];
        repeat match goal with H : String.eqb _ _ = true |- _ =>
                 apply String.eqb_eq in H; subst end;
        repeat split; try reflexivity; try discriminate;
        cbn [In]; try tauto; try (unfold strconv.maxInt64; lia); try lia.
    + cbn [nonEmpty]. rewrite Hatoi by discriminate. clear Hatoi.
      destruct (Z.leb_spec (decimal (String c pid) 0) strconv.maxInt64);
        [rewrite Z.min_l by assumption|rewrite Z.min_r by lia];
        (destruct (Z.leb_spec (decimal d 0) 9223372036); injection Hdur as -> ->;
        state_cases state;
        destruct (Runit_DebugMode o) eqn:?;
        cbn [isSome andb app]; intros Hsvc; inversion Hsvc;
        cbn [Service_Name Service_Status Service_Pid Service_Duration
             withStatus withPid withDuration];
        repeat match goal with H : String.eqb _ _ = true |- _ =>
                 apply String.eqb_eq in H; subst end;
        repeat split; try reflexivity; try discriminate;
        cbn [In]; try tauto; try lia).
Qed.

Lemma Runit_parse_fields_witness :
  exists m0 state pid d,
    regexp.FindSubmatch runitStatusRegexp "run: web: (pid 123) 45s" = [m0; state; pid; d ++ "s"] /\
    Z.min (decimal pid 0) strconv.maxInt64 = 123 /\
    (if decimal d 0 <=? 9223372036 then decimal d 0 * time.Second else 0) = 45000000000.
Proof.
  destruct (Runit_parse_fields (mkRunit "/service" true) "web" "run: web: (pid 123) 45s"
                               (mkService "web" StatusUp 123 45000000000) eq_refl)
    as (m0 & state & pid & d & Hm & _ & _ & _ & _ & _ & Hpid & Hdur & _).
  exists m0, state, pid, d. cbn [Service_Pid Service_Duration] in *. auto.
Defined.

(** ** The statuses [Status] reports *)

Lemma S6_parse_up_down : forall o name raw svc,
  Status_parse (ofS6 o) name raw [] = Continue [svc] ->
  Service_Status svc = StatusUp \/ Service_Status svc = StatusDown.
Proof.
  intros o name raw svc. cbn [Status_parse]. unfold S6_Status_parse.
  destruct (s6StatusRegexp_groups raw)
    as [->|(m0 & m1 & m2 & m3 & -> & Hstate & _)].
  - cbn. destruct (S6_DebugMode o); discriminate.
  - cbn [List.length Nat.eqb negb at_ nth]. unfold andThen.
    destruct Hstate as [-> | ->]; cbn [String.eqb Ascii.eqb Bool.eqb];
      parse_cases; cbn [app]; intros H; inversion H; cbn; auto.
Qed.

Lemma Runit_parse_statuses : forall o name raw svc,
  Status_parse (ofRunit o) name raw [] = Continue [svc] ->
  Service_Status svc <> StatusResetting /\
  (Runit_DebugMode o = true -> Service_Status svc <> StatusUnknown).
Proof.
  intros o name raw svc.
  cbn [Status_parse]. unfold Runit_Status_parse, andThen.
  generalize (regexp.FindSubmatch runitStatusRegexp raw); intros matches.
  parse_cases; cbn [app]; intros H; inversion H; subst; cbn;
    split; discriminate.
Qed.

(** X12. The statuses of the services [Status] returns.  No adapter ever
    reports Resetting.  The S6 adapter reports Up and Down only: its
    pattern lets no other state through, so the Unknown of its [switch] is
    never reached.  In debug mode the Runit adapter never reports
    Unknown. *)
Theorem Status_statuses : forall os sup tr,
  Forall (fun svc =>
            Service_Status svc <> StatusResetting /\
            (DebugMode sup = true -> Service_Status svc <> StatusUnknown) /\
            match sup with
            | ofS6 _ => Service_Status svc = StatusUp \/ Service_Status svc = StatusDown
            | ofRunit _ => True
            end)
         (fst (fst (Supervisor_Status os sup tr))).
Proof.
  intros os sup tr. apply (Status_services os sup tr). intros name raw svc Hsvc.
  destruct sup as [o|o].
  - destruct (Runit_parse_statuses o name raw svc Hsvc). cbn [DebugMode]. auto.
  - destruct (S6_parse_up_down o name raw svc Hsvc) as [H|H]; rewrite H;
      repeat split; try discriminate; auto.
Qed.

(** ** A well-formed line of [sv status] *)

(** The longest repetition is tried first: when the continuation accepts
    it, it is the match. *)
Lemma plus_greedy : forall (R : Type) cl w s pos (k : nat -> string -> option R) res,
  w <> EmptyString -> regexp.allIn cl w = true -> stopsAt cl s ->
  k (pos + String.length w)%nat s = Some res ->
  regexp.plus R cl pos (w ++ s) k = Some res.
Proof.
  intros R cl. induction w as [|c w IH]; intros s pos k res Hne Hall Hstop Hk;
    [congruence|].
  cbn [regexp.allIn] in Hall. apply andb_true_iff in Hall as [Hc Hw].
  cbn [append regexp.plus]. rewrite Hc.
  destruct w as [|c' w].
  - cbn [append String.length] in *.
    replace (regexp.plus R cl (S pos) s k) with (@None R).
    + rewrite <- Hk. f_equal. lia.
    + destruct s as [|d s]; cbn [regexp.plus]; [reflexivity|].
      cbn [stopsAt] in Hstop. now rewrite Hstop.
  - rewrite (IH s (S pos) k res); [reflexivity|discriminate|assumption|assumption|].
    rewrite <- Hk. f_equal. cbn [String.length]. lia.
Qed.

Lemma TrimPrefix_append : forall l s, TrimPrefix l (l ++ s) = Some s.
Proof.
  induction l as [|c l IH]; intros s; cbn [append TrimPrefix].
  - now destruct s.
  - unfold eqb_byte. now rewrite Ascii.eqb_refl.
Qed.

Lemma take_between : forall w s pos n,
  n = (pos + String.length w)%nat -> regexp.take (n - pos) (w ++ s) = w.
Proof.
  intros w s pos n ->. replace (pos + String.length w - pos)%nat with (String.length w) by lia.
  apply take_app.
Qed.

Section RunSteps.
Variable R : Type.
Variable k : nat -> string -> list string -> option R.

Lemma run_Cat : forall r1 r2 pos s caps,
  regexp.run R (regexp.Cat r1 r2) pos s caps k
  = regexp.run R r1 pos s caps (fun pos' s' caps' => regexp.run R r2 pos' s' caps' k).
Proof. reflexivity. Qed.

Lemma run_BeginText : forall s caps,
  regexp.run R regexp.BeginText 0 s caps k = k 0%nat s caps.
Proof. reflexivity. Qed.

Lemma run_Lit_append : forall l pos s caps,
  regexp.run R (regexp.Lit l) pos (l ++ s) caps k = k (pos + String.length l)%nat s caps.
Proof. intros. cbn [regexp.run]. now rewrite TrimPrefix_append. Qed.

Lemma run_Plus_greedy : forall cl w pos s caps res,
  w <> EmptyString -> regexp.allIn cl w = true -> stopsAt cl s ->
  k (pos + String.length w)%nat s caps = Some res ->
  regexp.run R (regexp.Plus cl) pos (w ++ s) caps k = Some res.
Proof. intros. cbn [regexp.run]. now apply plus_greedy. Qed.

Lemma run_Capture_Plus : forall i cl w pos s caps res,
  w <> EmptyString -> regexp.allIn cl w = true -> stopsAt cl s ->
  k (pos + String.length w)%nat s (regexp.setCap (i - 1) w caps) = Some res ->
  regexp.run R (regexp.Capture i (regexp.Plus cl)) pos (w ++ s) caps k = Some res.
Proof.
  intros i cl w pos s caps res Hne Hall Hstop Hk. cbn [regexp.run].
  apply plus_greedy; try assumption.
  now rewrite (take_between w s pos) by reflexivity.
Qed.

(** The group [(<digits>s)]. *)
Lemma run_Capture_seconds : forall i d pos rest caps res,
  d <> EmptyString -> regexp.allIn regexp.digit d = true ->
  k (pos + String.length d + 1)%nat rest (regexp.setCap (i - 1) (d ++ "s") caps) = Some res ->
  regexp.run R (regexp.Capture i (regexp.Cat (regexp.Plus regexp.digit) (regexp.Lit "s")))
             pos (d ++ "s" ++ rest) caps k = Some res.
Proof.
  intros i d pos rest caps res Hne Hall Hk. cbn [regexp.run].
  apply plus_greedy; [assumption|assumption|reflexivity|].
  rewrite TrimPrefix_append. cbn [String.length].
  rewrite <- (append_assoc d "s" rest).
  rewrite (take_between (d ++ "s") rest pos); [assumption|].
  rewrite length_append. cbn [String.length]. lia.
Qed.

Lemma run_Quest_take : forall r1 pos s caps res,
  regexp.run R r1 pos s caps k = Some res ->
  regexp.run R (regexp.Quest r1) pos s caps k = Some res.
Proof. intros r1 pos s caps res H. cbn [regexp.run]. now rewrite H. Qed.

Lemma run_Quest_skip : forall r1 pos s caps,
  regexp.run R r1 pos s caps k = None ->
  regexp.run R (regexp.Quest r1) pos s caps k = k pos s caps.
Proof. intros r1 pos s caps H. cbn [regexp.run]. now rewrite H. Qed.
End RunSteps.

Lemma findFrom_run : forall re pos s m,
  regexp.run (list string) re pos s (repeat EmptyString (regexp.NumSubexp re))
             (fun pos' _ caps => Some (regexp.take (pos' - pos) s :: caps)) = Some m ->
  regexp.findFrom re pos s = m.
Proof. intros re pos s m H. destruct s; cbn [regexp.findFrom]; now rewrite H. Qed.

Lemma digit_not_paren : forall d rest,
  d <> EmptyString -> regexp.allIn regexp.digit d = true ->
  TrimPrefix " (pid " (" " ++ d ++ rest) = None.
Proof.
  intros [|c d] rest Hne Hall; [congruence|].
  cbn [regexp.allIn] in Hall. rewrite inClass_digit in Hall.
  apply andb_true_iff in Hall as [Hc _].
  cbn [append TrimPrefix]. change (eqb_byte " " " ") with true. cbv iota.
  unfold eqb_byte. destruct (Ascii.eqb_spec "(" c) as [<-|]; [discriminate Hc|reflexivity].
Qed.

Lemma append_nil_l : forall s : string, EmptyString ++ s = s.
Proof. reflexivity. Qed.

(** The groups the Runit pattern finds in a line
    [<state>:<name>:[ (pid <digits>)] <digits>s...]. *)
Lemma runitStatusRegexp_line : forall state mid pid d rest,
  state <> EmptyString -> regexp.allIn (regexp.notByte ":") state = true ->
  mid <> EmptyString -> regexp.allIn (regexp.notByte ":") mid = true ->
  match pid with
  | Some p => p <> EmptyString /\ regexp.allIn regexp.digit p = true
  | None => True
  end ->
  d <> EmptyString -> regexp.allIn regexp.digit d = true ->
  exists m0,
    regexp.FindSubmatch runitStatusRegexp
      (state ++ ":" ++ mid ++ ":" ++ pidPart pid ++ " " ++ d ++ "s" ++ rest)
    = [m0; state; pidDigits pid; d ++ "s"].
Proof.
  intros state mid pid d rest Hs Hsc Hm Hmc Hp Hd Hdc.
  destruct pid as [p|]; cbn [pidPart pidDigits];
    eexists; unfold regexp.FindSubmatch; apply findFrom_run;
    unfold runitStatusRegexp; cbn [regexp.NumSubexp repeat Nat.add];
    rewrite run_Cat, run_BeginText, run_Cat;
    (apply run_Capture_Plus; [assumption|assumption|reflexivity|]);
    rewrite run_Cat, run_Lit_append, run_Cat;
    (apply run_Plus_greedy; [assumption|assumption|reflexivity|]);
    rewrite run_Cat, run_Lit_append, run_Cat.
  - destruct Hp as [Hpne Hpc]. apply run_Quest_take.
    rewrite !append_assoc, run_Cat, run_Lit_append, run_Cat.
    apply run_Capture_Plus; [assumption|assumption|reflexivity|].
    rewrite run_Lit_append, run_Cat, run_Lit_append.
    apply run_Capture_seconds; [assumption|assumption|].
    cbn [regexp.setCap Nat.sub]. reflexivity.
  - rewrite append_nil_l, run_Quest_skip
      by (rewrite run_Cat; cbn [regexp.run]; now rewrite digit_not_paren).
    rewrite run_Cat, run_Lit_append.
    apply run_Capture_seconds; [assumption|assumption|].
    cbn [regexp.setCap Nat.sub]. reflexivity.
Qed.

(** X13. A well-formed line of [sv status] is parsed into its fields.  The
    line is a state, a colon, a name part, a colon, an optional
    [ (pid <digits>)], a space, the seconds as [<digits>s], and anything
    after that; state and name part are not empty and hold no colon, and
    the numbers fit an [int] and a [time.Duration].  The Runit loop then
    adds exactly one service: the name it was given, the status the
    [switch] gives the state (Unknown for a state it does not name, which
    debug mode rejects), the pid of the digits (0 without the pid part)
    and the seconds as a duration. *)
Theorem Runit_parse_line : forall o name state mid pid d rest svcs,
  state <> EmptyString -> regexp.allIn (regexp.notByte ":") state = true ->
  mid <> EmptyString -> regexp.allIn (regexp.notByte ":") mid = true ->
  match pid with
  | Some p => p <> EmptyString /\ regexp.allIn regexp.digit p = true /\
              decimal p 0 <= strconv.maxInt64
  | None => True
  end ->
  d <> EmptyString -> regexp.allIn regexp.digit d = true ->
  decimal d 0 <= 9223372036 ->
  (Runit_DebugMode o = true -> In state ["run"; "down"; "backoff"; "disabled"]) ->
  Status_parse (ofRunit o) name
               (state ++ ":" ++ mid ++ ":" ++ pidPart pid ++ " " ++ d ++ "s" ++ rest) svcs
  = Continue (svcs ++ [mkService name
                         (if String.eqb state "run" then StatusUp
                          else if String.eqb state "down" then StatusDown
                          else if String.eqb state "backoff" then StatusBackoff
                          else if String.eqb state "disabled" then StatusDisabled
                          else StatusUnknown)
                         (decimal (pidDigits pid) 0)
                         (decimal d 0 * time.Second)])%list.
Proof.
  intros o name state mid pid d rest svcs Hs Hsc Hm Hmc Hp Hd Hdc Hfit Hknown.
  destruct (runitStatusRegexp_line state mid pid d rest) as (m0 & Hfind);
    try assumption.
  { destruct pid; tauto. }
  cbn [Status_parse]. unfold Runit_Status_parse. rewrite Hfind.
  cbn [List.length Nat.eqb negb at_ nth]. unfold andThen.
  replace (nonEmpty (d ++ "s")) with true by (destruct d; reflexivity).
  rewrite (ParseDuration_seconds d Hd Hdc).
  destruct (Z.leb_spec (decimal d 0) 9223372036); [|lia].
  assert (Hunknown : String.eqb state "run" = false -> String.eqb state "down" = false ->
                     String.eqb state "backoff" = false ->
                     String.eqb state "disabled" = false -> Runit_DebugMode o = false).
  { intros H1 H2 H3 H4. destruct (Runit_DebugMode o); [|reflexivity].
    destruct (Hknown eq_refl) as [<-|[<-|[<-|[<-|[]]]]]; discriminate. }
  destruct pid as [p|]; cbn [pidDigits].
  - destruct Hp as (Hpne & Hpc & Hpfit).
    replace (nonEmpty p) with true by (destruct p; [congruence|reflexivity]).
    rewrite (Atoi_digits p Hpne Hpc).
    destruct (Z.leb_spec (decimal p 0) strconv.maxInt64); [|lia].
    state_cases state; cbn [isSome andb withStatus withPid withDuration
                              Service_Name Service_Status Service_Pid Service_Duration];
      try reflexivity.
    rewrite Hunknown by reflexivity. reflexivity.
  - cbn [nonEmpty decimal].
    state_cases state; cbn [isSome andb withStatus withPid withDuration
                              Service_Name Service_Status Service_Pid Service_Duration];
      try reflexivity.
    rewrite Hunknown by reflexivity. reflexivity.
Qed.

Lemma Runit_parse_line_witness :
  Status_parse (ofRunit (mkRunit "/service" true)) "web"
               "run: web: (pid 123) 45s; log: (pid 124) 45s" []
  = Continue [mkService "web" StatusUp 123 45000000000].
Proof.
  apply (Runit_parse_line (mkRunit "/service" true) "web" "run" " web" (Some "123") "45"
                          "; log: (pid 124) 45s" []);
    try discriminate; try reflexivity.
  - repeat split; discriminate.
  - intros _. left. reflexivity.
Defined.

(* ================================================================= *)
(** * The log file and [Fg] *)

Lemma findLogFile_loop_noCurrent : forall os dir tr links,
  noCurrent os dir tr links ->
  forRange links (findLogFile_body os dir) tt tr
  = (Continue tt, (tr ++ linkEvents dir links)%list).
Proof.
  induction 1 as [tr|tr link links Hmode _ IH|tr link links target Hmode Hlink Hbase _ IH];
    unfold linkEvents in *; cbn [filter].
  - cbn. now rewrite app_nil_r.
  - rewrite forRange_cons, findLogFile_body_eq, Hmode. exact IH.
  - rewrite forRange_cons, findLogFile_body_eq, Hlink.
    apply Z.eqb_neq in Hmode. rewrite Hmode. cbn [negb map].
    apply String.eqb_neq in Hbase. rewrite Hbase, IH.
    now rewrite <- app_assoc.
Qed.

(** X14. [findLogFile] returns the first descriptor that leads to a file
    named [current].  The executable of the process is a known logger, and
    among its descriptors, in the order [ioutil.ReadDir] lists them, the
    links before [link] are resolved and lead elsewhere, while [link] is a
    symbolic link resolved to [target], a file named [current].  Then the
    result is [target] with a nil error, and no descriptor after [link] is
    looked at. *)
Theorem findLogFile_first_current : forall os pid tr exe pre link post target,
  let exePath := filepath.Join [procDir pid; "/exe"] in
  let fdPath := filepath.Join [procDir pid; "fd"] in
  let tr2 := (tr ++ [EvReadlink exePath; EvReadDir fdPath])%list in
  os_Readlink os tr exePath = (exe, None) ->
  isLogger (filepath.Base exe) = true ->
  ioutil_ReadDir os (tr ++ [EvReadlink exePath])%list fdPath
  = ((pre ++ link :: post)%list, None) ->
  noCurrent os (procDir pid) tr2 pre ->
  Z.land (fi_Mode link) ModeSymlink <> 0 ->
  os_Readlink os (tr2 ++ linkEvents (procDir pid) pre)%list
              (filepath.Join [procDir pid; "fd"; fi_Name link]) = (target, None) ->
  filepath.Base target = "current" ->
  findLogFile os pid tr
  = ((target, None),
     (tr2 ++ linkEvents (procDir pid) pre
          ++ [EvReadlink (filepath.Join [procDir pid; "fd"; fi_Name link])])%list).
Proof.
  intros os pid tr exe pre link post target. cbv zeta.
  intros Hexe Hlogger Hdir Hpre Hmode Hlink Hbase.
  rewrite findLogFile_eq, Hexe, Hlogger, Hdir. cbv zeta.
  rewrite forRange_app, (findLogFile_loop_noCurrent _ _ _ _ Hpre).
  rewrite forRange_cons, findLogFile_body_eq, Hlink.
  apply Z.eqb_neq in Hmode. rewrite Hmode. cbn [negb].
  apply String.eqb_eq in Hbase. rewrite Hbase. cbn [fst snd].
  now rewrite <- app_assoc.
Qed.

Lemma findLogFile_first_current_witness :
  fst (findLogFile currentOS 456 []) = ("/var/log/web/current", None) /\
  ~ In (EvReadlink "/proc/456/fd/4") (snd (findLogFile currentOS 456 [])).
Proof.
  rewrite (findLogFile_first_current currentOS 456 [] "/usr/bin/svlogd"
             [linkEntry "0"] (linkEntry "3") [linkEntry "4"] "/var/log/web/current").
  - split; [reflexivity|]. vm_compute. intros [H|[H|[H|[H|[]]]]]; discriminate H.
  - reflexivity.
  - reflexivity.
  - reflexivity.
  - eapply noCurrent_link; [vm_compute; discriminate|reflexivity|vm_compute; discriminate|].
    apply noCurrent_nil.
  - vm_compute. discriminate.
  - reflexivity.
  - reflexivity.
Defined.

(** X15. [findLogFile] launches no subprocess.  With an error it returns
    no file; without one, the file is empty or named [current].  When the
    executable of the process is none of [tinylog], [s6-log], [svlogd] and
    [multilog], it returns no file and no error, having done nothing but
    resolve the executable. *)
Theorem findLogFile_result : forall os pid tr,
  let res := findLogFile os pid tr in
  subprocesses (snd res) = subprocesses tr /\
  (snd (fst res) <> None -> fst (fst res) = EmptyString) /\
  (snd (fst res) = None ->
   fst (fst res) = EmptyString \/ filepath.Base (fst (fst res)) = "current") /\
  (forall exe,
      os_Readlink os tr (filepath.Join [procDir pid; "/exe"]) = (exe, None) ->
      isLogger (filepath.Base exe) = false ->
      res = ((EmptyString, None),
             (tr ++ [EvReadlink (filepath.Join [procDir pid; "/exe"])])%list)).
Proof.
  intros os pid tr. cbv zeta.
  destruct (findLogFile_spec os pid tr) as [Hsub Hfile].
  split; [exact Hsub|]. split; [|split; [exact Hfile|]].
  - rewrite findLogFile_eq.
    destruct (os_Readlink os tr (filepath.Join [procDir pid; "/exe"])) as [exe [e|]];
      [reflexivity|].
    destruct (isLogger (filepath.Base exe)); [|reflexivity].
    destruct (ioutil_ReadDir os _ (filepath.Join [procDir pid; "fd"])) as [links [e|]];
      [reflexivity|].
    cbv zeta. cbn [fst snd].
    destruct (findLogFile_loop os (procDir pid) links
                (tr ++ [EvReadlink (filepath.Join [procDir pid; "/exe"]);
                        EvReadDir (filepath.Join [procDir pid; "fd"])])%list)
      as [_ [->|[(target & -> & _)|(e & ->)]]]; cbn [fst snd]; congruence.
  - intros exe Hexe Hlogger. now rewrite findLogFile_eq, Hexe, Hlogger.
Qed.

(** X16. [Fg] returns nil only after it has followed a log: it has started
    [tail -f] on a file named [current], waited for it as the last thing it
    did, and [tail] has ended without an error or with one whose message
    begins with [signal:]. *)
Theorem Fg_nil_after_tail : forall os o svc tr,
  fst (Runit_Fg os o svc tr) = None ->
  exists file tr2,
    let cmd := mkCmd "tail" ["-f"; file] None in
    filepath.Base file = "current" /\
    snd (Runit_Fg os o svc tr) = (tr2 ++ [EvStart cmd; EvWait cmd])%list /\
    exec_Start os tr2 cmd = None /\
    match exec_Wait os (tr2 ++ [EvStart cmd])%list cmd with
    | Some msg => HasPrefix msg "signal:" = true
    | None => True
    end.
Proof.
  intros os o svc tr. rewrite Runit_Fg_eq. cbv zeta.
  destruct (exec_CombinedOutput os tr (Fg_statusCmd o svc)) as [txt [e|]];
    [discriminate|].
  destruct (negb (Nat.eqb (List.length (regexp.FindSubmatch runitLoggerRegexp txt)) 2));
    [discriminate|].
  destruct (strconv.Atoi (at_ (regexp.FindSubmatch runitLoggerRegexp txt) 1)) as [pid [e|]];
    [discriminate|].
  destruct (findLogFile_spec os pid (tr ++ [EvCombinedOutput (Fg_statusCmd o svc)])%list)
    as [_ Hfile].
  destruct (findLogFile os pid _) as [[file [e|]] tr2]; cbn [fst snd] in *;
    [discriminate|].
  destruct (String.eqb_spec file "") as [->|Hne]; [discriminate|].
  destruct (Hfile eq_refl) as [?|Hbase]; [contradiction|].
  destruct (exec_Start os tr2 (mkCmd "tail" ["-f"; file] None)) as [e|] eqn:Hstart;
    [discriminate|].
  cbn [fst snd]. intros Hnil. exists file, tr2. rewrite Hstart.
  repeat split; try assumption.
  destruct (exec_Wait os (tr2 ++ [EvStart (mkCmd "tail" ["-f"; file] None)])%list
                      (mkCmd "tail" ["-f"; file] None)) as [msg|]; [|exact I].
  destruct (HasPrefix msg "signal:"); [reflexivity|discriminate Hnil].
Qed.

Lemma Fg_nil_after_tail_witness :
  exists file tr2,
    filepath.Base file = "current" /\
    snd (Runit_Fg currentOS (mkRunit "/service" false) "web" [])
    = (tr2 ++ [EvStart (mkCmd "tail" ["-f"; file] None);
               EvWait (mkCmd "tail" ["-f"; file] None)])%list.
Proof.
  destruct (Fg_nil_after_tail currentOS (mkRunit "/service" false) "web" [] eq_refl)
    as (file & tr2 & Hbase & Htr & _).
  exists file, tr2. split; assumption.
Defined.

(** ** The pid [Fg] looks for *)

(** What [runitLoggerRegexp] finds: nothing, or the text
    [log: (pid <digits>)] and its digits. *)
Lemma runitLoggerRegexp_groups : forall txt,
  regexp.FindSubmatch runitLoggerRegexp txt = [] \/
  exists digits,
    regexp.FindSubmatch runitLoggerRegexp txt = ["log: (pid " ++ digits ++ ")"; digits] /\
    digits <> EmptyString /\ regexp.allIn regexp.digit digits = true.
Proof.
  intros txt.
  destruct (FindSubmatch_sound runitLoggerRegexp txt)
    as [Hnil|(pos & s & pos' & s' & caps & w & HM & Hs & Hfind)]; [now left|].
  right. rewrite Hfind. clear Hfind. unfold runitLoggerRegexp in HM.
  cbn [regexp.NumSubexp repeat Nat.add] in HM.
  matches_inv; subst; cbn [regexp.setCap Nat.sub].
  repeat match goal with
         | H : ?a ++ ?c = ?b ++ ?c |- _ => apply append_cancel_r in H; subst
         end.
  match goal with
  | H : _ ++ ?d ++ _ ++ ?s = ?w ++ ?s |- _ =>
      assert (Hw : w = "log: (pid " ++ d ++ ")")
        by (apply (append_cancel_r _ _ s); rewrite !append_assoc; symmetry; exact H);
      rewrite Hw; exists d
  end.
  auto.
Qed.

(** X17. The process [Fg] inspects is the logger the status text names.
    When the status query succeeds, either its text holds no
    [log: (pid <digits>)] and [Fg] fails on the text, wrapping a nil error,
    or [Fg] takes the digits of the first such part: it fails on the pid
    only when their value does not fit an [int], and otherwise the next
    thing it does is to resolve [/proc/<pid>/exe] for that value. *)
Theorem Fg_inspects_logger_pid : forall os o svc tr txt,
  exec_CombinedOutput os tr (Fg_statusCmd o svc) = (txt, None) ->
  let tr1 := (tr ++ [EvCombinedOutput (Fg_statusCmd o svc)])%list in
  (regexp.FindSubmatch runitLoggerRegexp txt = [] /\
   Runit_Fg os o svc tr
   = (Some (fmt_Errorf "failed parsing logger process status: %w" [ArgError None]), tr1)) \/
  exists digits,
    regexp.FindSubmatch runitLoggerRegexp txt = ["log: (pid " ++ digits ++ ")"; digits] /\
    digits <> EmptyString /\ regexp.allIn regexp.digit digits = true /\
    if decimal digits 0 <=? strconv.maxInt64 then
      exists rest,
        snd (Runit_Fg os o svc tr)
        = (tr1 ++ EvReadlink (filepath.Join [procDir (decimal digits 0); "/exe"]) :: rest)%list
    else
      Runit_Fg os o svc tr
      = (Some (fmt_Errorf "failed parsing logger process pid %q: %w"
                 [ArgBytes digits;
                  ArgError (Some (strconv_NumError "Atoi" digits strconv.ErrRange))]),
         tr1).
Proof.
  intros os o svc tr txt Hstatus. cbv zeta.
  rewrite Runit_Fg_eq. cbv zeta. rewrite Hstatus.
  destruct (runitLoggerRegexp_groups txt) as [->|(digits & -> & Hne & Hdigits)].
  - left. split; reflexivity.
  - right. exists digits. split; [reflexivity|]. split; [assumption|].
    split; [assumption|].
    cbn [List.length Nat.eqb negb at_ nth]. rewrite (Atoi_digits digits Hne Hdigits).
    destruct (decimal digits 0 <=? strconv.maxInt64); [|reflexivity].
    set (pid := decimal digits 0).
    set (tr1 := (tr ++ [EvCombinedOutput (Fg_statusCmd o svc)])%list).
    assert (Hfind : exists rest,
               snd (findLogFile os pid tr1)
               = (tr1 ++ EvReadlink (filepath.Join [procDir pid; "/exe"]) :: rest)%list).
    { rewrite findLogFile_eq.
      destruct (os_Readlink os tr1 (filepath.Join [procDir pid; "/exe"])) as [exe [e|]];
        [exists []; reflexivity|].
      destruct (isLogger (filepath.Base exe)); [|exists []; reflexivity].
      destruct (ioutil_ReadDir os _ (filepath.Join [procDir pid; "fd"])) as [links [e|]];
        [eexists; reflexivity|].
      cbv zeta. cbn [snd].
      assert (Hloop : forall links t, exists rest,
                 snd (forRange links (findLogFile_body os (procDir pid)) tt t)
                 = (t ++ rest)%list).
      { clear. induction links as [|link links IH]; intros t.
        - exists []. cbn. now rewrite app_nil_r.
        - rewrite forRange_cons, findLogFile_body_eq.
          destruct (negb (Z.land (fi_Mode link) ModeSymlink =? 0)); [|apply IH].
          destruct (os_Readlink os t _) as [target [e|]]; [eexists; reflexivity|].
          destruct (String.eqb (filepath.Base target) "current"); [eexists; reflexivity|].
          destruct (IH (t ++ [EvReadlink (filepath.Join [procDir pid; "fd"; fi_Name link])])%list)
            as (rest & ->).
          rewrite <- app_assoc. eexists. reflexivity. }
      destruct (Hloop links (tr1 ++ [EvReadlink (filepath.Join [procDir pid; "/exe"]);
                                     EvReadDir (filepath.Join [procDir pid; "fd"])])%list)
        as (rest & ->).
      rewrite <- app_assoc. cbn [app]. eexists. reflexivity. }
    destruct Hfind as (rest & Hrest).
    destruct (findLogFile os pid tr1) as [[file [e|]] tr2]; cbn [snd] in Hrest; subst tr2.
    + exists rest. reflexivity.
    + destruct (String.eqb file ""); [exists rest; reflexivity|].
      destruct (exec_Start os _ _) as [e|]; cbn [snd];
        rewrite <- app_assoc; cbn [app]; eexists; reflexivity.
Qed.

Lemma Fg_inspects_logger_pid_witness :
  exists rest,
    snd (Runit_Fg currentOS (mkRunit "/service" false) "web" [])
    = (EvCombinedOutput (Fg_statusCmd (mkRunit "/service" false) "web")
         :: EvReadlink "/proc/456/exe" :: rest).
Proof.
  destruct (Fg_inspects_logger_pid currentOS (mkRunit "/service" false) "web" []
              "run: /service/web: (pid 123) 45s; run: log: (pid 456) 45s" eq_refl)
    as [[H _]|(digits & H & _ & _ & Hpid)]; [discriminate H|].
  assert (Hd : digits = "456")
    by (apply (f_equal (fun l => nth 1 l EmptyString)) in H; symmetry; exact H).
  subst digits. exact Hpid.
Defined.

(* ================================================================= *)
(** * [serviceDirs] *)

(** X18. [serviceDirs] reads the directory once.  When the read fails it
    returns that error, wrapped, and no name.  Otherwise it returns the
    names of the entries that are directories, each as often as it is
    listed, sorted byte-wise, and nothing but them. *)
Theorem serviceDirs_sorted_directories : forall os baseDir tr,
  snd (serviceDirs os baseDir tr) = (tr ++ [EvReadDir baseDir])%list /\
  match ioutil_ReadDir os tr baseDir with
  | (_, Some e) =>
      fst (serviceDirs os baseDir tr)
      = ([], Some (fmt_Errorf "failed reading base directory %q: %w"
                              [ArgString baseDir; ArgError (Some e)]))
  | (files, None) =>
      exists dirs,
        fst (serviceDirs os baseDir tr) = (dirs, None) /\
        StronglySorted string_le dirs /\
        Permutation (map fi_Name (filter IsDir files)) dirs
  end.
Proof.
  intros os baseDir tr. unfold serviceDirs, bind, ReadDir, ret.
  destruct (ioutil_ReadDir os tr baseDir) as [files [e|]]; cbn [fst snd].
  - split; reflexivity.
  - split; [reflexivity|]. eexists. split; [reflexivity|].
    split; [apply Strings_Sorted|apply Strings_Permutation].
Qed.

(* ================================================================= *)
(** * The S6 adapter in debug mode *)

(** X21. In debug mode the S6 loop takes a status text only when its
    seconds are the single digit [0]: for every other text it returns an
    error and leaves the services as they are, because a number of seconds
    without a unit is no duration for [time.ParseDuration]. *)
Theorem S6_debug_mode_zero_seconds : forall o name raw svcs,
  S6_DebugMode o = true ->
  match Status_parse (ofS6 o) name raw svcs with
  | Continue _ =>
      exists m0 m1 m2, regexp.FindSubmatch s6StatusRegexp raw = [m0; m1; m2; "0"]
  | Return (l, err) => l = svcs /\ err <> None
  end.
Proof.
  intros o name raw svcs Hdebug. cbn [Status_parse]. unfold S6_Status_parse.
  rewrite Hdebug.
  destruct (s6StatusRegexp_groups raw)
    as [->|(m0 & m1 & m2 & m3 & -> & _ & _ & Hne & Hdigits)].
  - cbn. split; [reflexivity|discriminate].
  - cbn [List.length Nat.eqb negb at_ nth]. unfold andThen.
    destruct (ParseDuration_digits m3 Hne Hdigits) as [_ Herr].
    destruct (String.eqb_spec m3 "0") as [->|Hnz].
    + parse_cases; try (split; [reflexivity|discriminate]); eauto.
    + specialize (Herr Hnz).
      destruct (time.ParseDuration m3) as [d err]. cbn [snd] in Herr.
      replace (nonEmpty m3) with true by (destruct m3; [congruence|reflexivity]).
      destruct Herr as [-> | ->]; cbn [isSome andb];
        parse_cases; split; (reflexivity || discriminate).
Qed.

Lemma S6_debug_mode_zero_seconds_witness :
  (exists m0 m1 m2,
      regexp.FindSubmatch s6StatusRegexp "up (pid 123) 0/" = [m0; m1; m2; "0"]) /\
  exists e,
    Status_parse (ofS6 (mkS6 "/service" true)) "web" "up (pid 123) 45/" []
    = Return ([], Some e).
Proof.
  split.
  - apply (S6_debug_mode_zero_seconds (mkS6 "/service" true) "web" "up (pid 123) 0/" []).
    reflexivity.
  - eexists. reflexivity.
Defined.

(* ================================================================= *)
(** * Normal mode, once more *)

Lemma Status_normal_mode_services_witness :
  fst (Supervisor_Status (webDbOS "run: web: (pid 123) 45s" "no such service")
                         (withDebugMode (ofRunit (mkRunit "/service" true)) false) [])
  = ([mkService "web" StatusUp 123 (45 * time.Second)], None).
Proof.
  apply (Status_normal_mode_services
           (webDbOS "run: web: (pid 123) 45s" "no such service")
           (ofRunit (mkRunit "/service" true)) []
           [dirEntry "web"; fileEntry "README"; dirEntry "db"]
           ["no such service"; "run: web: (pid 123) 45s"]).
  - reflexivity.
  - repeat constructor.
Defined.

(* ================================================================= *)
(** * One malformed status text, suite by suite *)

Lemma statusRegexp_withDebugMode : forall sup b,
  statusRegexp (withDebugMode sup b) = statusRegexp sup.
Proof. now intros [o|o] b. Qed.

Lemma outputs_length : forall os cmdOf tr ds rs,
  outputs os cmdOf tr ds rs -> List.length ds = List.length rs.
Proof. induction 1; cbn [List.length]; congruence. Qed.

Lemma parsedServices_app : forall sup ds1 rs1 ds2 rs2,
  List.length rs1 = List.length ds1 ->
  parsedServices sup (ds1 ++ ds2) (rs1 ++ rs2)
  = (parsedServices sup ds1 rs1 ++ parsedServices sup ds2 rs2)%list.
Proof.
  induction ds1 as [|d ds1 IH]; intros [|r rs1] ds2 rs2 Hlen; try discriminate Hlen.
  - reflexivity.
  - cbn [app parsedServices]. injection Hlen as Hlen. rewrite (IH _ _ _ Hlen).
    now destruct (parseLine sup d r).
Qed.

Lemma parsedServices_names : forall sup ds rs,
  Forall2 (fun d r => parseLine sup d r <> None) ds rs ->
  map Service_Name (parsedServices sup ds rs) = map filepath.Base ds.
Proof.
  induction 1 as [|d r ds rs Hd _ IH]; cbn [parsedServices map]; [reflexivity|].
  unfold parseLine in *.
  destruct (Status_parse_cases sup (filepath.Base d) r)
    as [Hc|[(svc & Hc & Hname)|(_ & e & Hc)]]; rewrite Hc in *; try congruence.
  cbn [map]. now rewrite Hname, IH.
Qed.

Lemma Forall_Forall2 : forall (A B : Type) (P : B -> Prop) (ds : list A) (rs : list B),
  List.length ds = List.length rs -> Forall P rs -> Forall2 (fun _ r => P r) ds rs.
Proof.
  induction ds as [|d ds IH]; intros [|r rs] Hlen Hall; try discriminate Hlen;
    constructor; inversion Hall; subst; auto.
Qed.

Lemma Forall2_impl : forall (A B : Type) (P Q : A -> B -> Prop) ds rs,
  (forall d r, P d r -> Q d r) -> Forall2 P ds rs -> Forall2 Q ds rs.
Proof. induction 2; constructor; auto. Qed.

(** Normal mode makes a service of every text the pattern matches. *)
Lemma parseLine_normal_match : forall sup d r,
  regexp.FindSubmatch (statusRegexp sup) r <> [] ->
  parseLine (withDebugMode sup false) d r <> None.
Proof.
  intros [o|o] d r Hmatch; unfold parseLine; cbn [withDebugMode Status_parse statusRegexp] in *;
    [unfold Runit_Status_parse; destruct (FindSubmatch_length runitStatusRegexp r) as [H|H]
    |unfold S6_Status_parse; destruct (FindSubmatch_length s6StatusRegexp r) as [H|H]];
    try contradiction; rewrite H;
    cbn [regexp.NumSubexp runitStatusRegexp s6StatusRegexp Nat.add Nat.eqb negb
         Runit_DebugMode S6_DebugMode];
    unfold andThen;
    match goal with |- context [regexp.FindSubmatch ?re r] =>
      generalize (regexp.FindSubmatch re r); intros m end;
    parse_cases; cbn [app]; discriminate.
Qed.

(** The Runit loop makes a service of a line with nothing to report, in
    both modes. *)
Lemma parseLine_runitLine : forall o d r,
  runitLine r -> parseLine (ofRunit o) d r <> None.
Proof.
  intros o dir r (state & mid & pid & d & rest & -> & Hstate & Hm & Hmc & Hp & Hd & Hdc & Hfit).
  assert (Hs : state <> EmptyString /\ regexp.allIn (regexp.notByte ":") state = true).
  { destruct Hstate as [<-|[<-|[<-|[<-|[]]]]]; split; (discriminate || reflexivity). }
  destruct Hs as [Hs Hsc].
  destruct (runitStatusRegexp_line state mid pid d rest) as (m0 & Hfind);
    try assumption.
  { destruct pid; tauto. }
  unfold parseLine. cbn [Status_parse]. unfold Runit_Status_parse. rewrite Hfind.
  cbn [List.length Nat.eqb negb at_ nth]. unfold andThen.
  replace (nonEmpty (d ++ "s")) with true by (destruct d; reflexivity).
  rewrite (ParseDuration_seconds d Hd Hdc).
  destruct (Z.leb_spec (decimal d 0) 9223372036); [|lia].
  assert (Hpid : (if nonEmpty (pidDigits pid) then
                    snd (strconv.Atoi (pidDigits pid)) = None
                  else True)).
  { destruct pid as [p|]; cbn [pidDigits nonEmpty]; [|exact I].
    destruct Hp as (Hpne & Hpc & Hpfit).
    replace (nonEmpty p) with true by (destruct p; [congruence|reflexivity]).
    rewrite (Atoi_digits p Hpne Hpc).
    destruct (Z.leb_spec (decimal p 0) strconv.maxInt64); [reflexivity|lia]. }
  destruct (nonEmpty (pidDigits pid));
    [destruct (strconv.Atoi (pidDigits pid)) as [n err]; cbn [snd] in Hpid; subst err|];
    destruct Hstate as [<-|[<-|[<-|[<-|[]]]]];
    cbn [String.eqb Ascii.eqb Bool.eqb isSome andb app]; discriminate.
Qed.

(** In debug mode the S6 loop either takes a text the pattern matches,
    whose seconds then are [0], or returns an error, which is not the one
    of a text the pattern does not match. *)
Lemma S6_debug_parse_cases : forall o name r svcs,
  S6_DebugMode o = true ->
  regexp.FindSubmatch s6StatusRegexp r <> [] ->
  (exists svc,
      Status_parse (ofS6 o) name r svcs = Continue (svcs ++ [svc])%list /\
      at_ (regexp.FindSubmatch s6StatusRegexp r) 3 = "0") \/
  (exists e,
      Status_parse (ofS6 o) name r svcs = Return (svcs, Some e) /\
      forall n t, e <> fmt_Errorf "failed parsing %q status output: %q"
                                  [ArgString n; ArgBytes t]).
Proof.
  intros o name r svcs Hdebug Hmatch. cbn [Status_parse]. unfold S6_Status_parse.
  rewrite Hdebug.
  destruct (s6StatusRegexp_groups r)
    as [Hnil|(m0 & m1 & m2 & m3 & -> & _ & _ & Hne & Hdigits)]; [contradiction|].
  cbn [List.length Nat.eqb negb at_ nth]. unfold andThen.
  destruct (ParseDuration_digits m3 Hne Hdigits) as [_ Herr].
  destruct (String.eqb_spec m3 "0") as [->|Hnz].
  - parse_cases;
      solve [ left; eexists; split; reflexivity
            | right; eexists; split; [reflexivity|]; intros n t; discriminate ].
  - specialize (Herr Hnz).
    destruct (time.ParseDuration m3) as [d err]. cbn [snd] in Herr.
    replace (nonEmpty m3) with true by (destruct m3; [congruence|reflexivity]).
    destruct Herr as [-> | ->]; cbn [isSome andb];
      parse_cases; right; eexists; (split; [reflexivity|]); intros n t; discriminate.
Qed.

(** In debug mode the S6 loop does not get past a text the pattern matches
    whose seconds are not [0]. *)
Lemma S6_debug_loop_stops : forall os o ds rs ys svcs tr,
  S6_DebugMode o = true ->
  outputs os (statusCmd (ofS6 o)) tr ds rs ->
  Forall (fun r => regexp.FindSubmatch s6StatusRegexp r <> []) rs ->
  Exists (fun r => at_ (regexp.FindSubmatch s6StatusRegexp r) 3 <> "0") rs ->
  exists l e,
    fst (forRange (ds ++ ys)%list (Status_body os (ofS6 o)) svcs tr) = Return (l, Some e) /\
    (List.length l < List.length svcs + List.length ds)%nat /\
    forall n t, e <> fmt_Errorf "failed parsing %q status output: %q"
                                [ArgString n; ArgBytes t].
Proof.
  intros os o ds rs ys svcs tr Hdebug Hout. revert svcs.
  induction Hout as [tr|tr d ds r rs Hexec Hout IH]; intros svcs Hall Hex.
  - inversion Hex.
  - inversion Hall as [|? ? Hr Hrs]; subst.
    cbn [app]. rewrite forRange_cons, Status_body_eq, Hexec.
    destruct (S6_debug_parse_cases o (filepath.Base d) r svcs Hdebug Hr)
      as [(svc & -> & Hzero)|(e & -> & He)].
    + inversion Hex as [? ? Hhead|? ? Htail]; subst; [contradiction|].
      destruct (IH (svcs ++ [svc])%list Hrs Htail) as (l & e & Hres & Hlen & He).
      exists l, e. split; [exact Hres|]. split; [|exact He].
      rewrite length_app in Hlen. cbn [List.length] in *. lia.
    + exists svcs, e. cbn [fst List.length]. split; [reflexivity|]. split; [lia|exact He].
Qed.

(** Normal mode with one text the pattern does not match, the others being
    matched. *)
Lemma one_malformed_normal : forall os sup tr files ds1 dir ds2 rs1 raw rs2,
  ioutil_ReadDir os tr (BaseDir sup) = (files, None) ->
  dirsOf files = (ds1 ++ dir :: ds2)%list ->
  List.length rs1 = List.length ds1 ->
  outputs os (statusCmd sup) (tr ++ [EvReadDir (BaseDir sup)])%list
          (ds1 ++ dir :: ds2)%list (rs1 ++ raw :: rs2)%list ->
  regexp.FindSubmatch (statusRegexp sup) raw = [] ->
  Forall (fun r => regexp.FindSubmatch (statusRegexp sup) r <> []) (rs1 ++ rs2) ->
  fst (Supervisor_Status os (withDebugMode sup false) tr)
  = ((parsedServices (withDebugMode sup false) ds1 rs1 ++
      parsedServices (withDebugMode sup false) ds2 rs2)%list, None) /\
  map Service_Name (parsedServices (withDebugMode sup false) ds1 rs1)
  = map filepath.Base ds1 /\
  map Service_Name (parsedServices (withDebugMode sup false) ds2 rs2)
  = map filepath.Base ds2.
Proof.
  intros os sup tr files ds1 dir ds2 rs1 raw rs2 Hread Hdirs Hlen Hout Hbad Hall.
  apply Forall_app in Hall as [Hall1 Hall2].
  assert (Hlen2 : List.length ds2 = List.length rs2).
  { apply outputs_length in Hout. rewrite !length_app in Hout.
    cbn [List.length] in Hout. lia. }
  split; [|split].
  - rewrite Supervisor_Status_eq, BaseDir_withDebugMode, Hread, Hdirs.
    rewrite (Status_loop_normal os sup _ _ [] _ Hout). cbn [fst app].
    rewrite parsedServices_app by assumption. cbn [parsedServices].
    rewrite parseLine_malformed by now rewrite statusRegexp_withDebugMode.
    reflexivity.
  - apply parsedServices_names.
    apply (Forall2_impl _ _ (fun _ r => regexp.FindSubmatch (statusRegexp sup) r <> [])).
    + intros d r. apply parseLine_normal_match.
    + apply Forall_Forall2; [now symmetry|assumption].
  - apply parsedServices_names.
    apply (Forall2_impl _ _ (fun _ r => regexp.FindSubmatch (statusRegexp sup) r <> [])).
    + intros d r. apply parseLine_normal_match.
    + apply Forall_Forall2; assumption.
Qed.

Lemma runitLine_match : forall r,
  runitLine r -> regexp.FindSubmatch runitStatusRegexp r <> [].
Proof.
  intros r Hline Hnil.
  apply (parseLine_runitLine (mkRunit EmptyString false) EmptyString r Hline).
  now apply (parseLine_malformed (ofRunit (mkRunit EmptyString false))).
Qed.

(** C4, on the code.  The status commands of the sorted service
    directories succeed, and the text [raw] of one directory [dir] is
    malformed: the suite's pattern does not match it.

    1. In normal mode, for Runit and for S6, when the pattern matches the
    other texts, [Status] returns no error and exactly one service for
    each of the other N-1 directories, in their order.

    2. For Runit, when the other texts are lines with nothing to report
    ([runitLine]), debug mode returns the error that carries the name of
    [dir] and the raw text, together with the services of the directories
    before [dir], which are the services normal mode returns for them.

    3. For S6, debug mode does not get that far: when the pattern matches
    the texts before [dir] and the seconds of one of them are not [0],
    [Status] returns fewer services than there are directories before
    [dir], and an error that is not the one of the malformed text.  It is
    the error of an earlier, well-formed text, whose seconds
    [time.ParseDuration] rejects for want of a unit.

    4. So for the S6 texts [up (pid 77) 3/] of [cache], [garbage] of [db]
    and [down (exitcode 0) 12/] of [web], normal mode returns [cache] and
    [web], and debug mode returns no service and the error of the duration
    [3] of [cache], in which the text [garbage] does not occur.

    5. For the Runit texts [run: cache: (pid 77) 3s] of [cache], a warning
    of [db] and [down: web: 12s] of [web], normal mode returns [cache] and
    [web], and debug mode returns [cache] and the error with the
    warning. *)
Theorem one_malformed_status_text :
  (forall os sup tr files ds1 dir ds2 rs1 raw rs2,
      ioutil_ReadDir os tr (BaseDir sup) = (files, None) ->
      dirsOf files = (ds1 ++ dir :: ds2)%list ->
      List.length rs1 = List.length ds1 ->
      outputs os (statusCmd sup) (tr ++ [EvReadDir (BaseDir sup)])%list
              (ds1 ++ dir :: ds2)%list (rs1 ++ raw :: rs2)%list ->
      regexp.FindSubmatch (statusRegexp sup) raw = [] ->
      Forall (fun r => regexp.FindSubmatch (statusRegexp sup) r <> []) (rs1 ++ rs2) ->
      exists svcs,
        fst (Supervisor_Status os (withDebugMode sup false) tr) = (svcs, None) /\
        map Service_Name svcs = map filepath.Base (ds1 ++ ds2)) /\
  (forall os o tr files ds1 dir ds2 rs1 raw rs2,
      ioutil_ReadDir os tr (Runit_BaseDir o) = (files, None) ->
      dirsOf files = (ds1 ++ dir :: ds2)%list ->
      List.length rs1 = List.length ds1 ->
      outputs os (statusCmd (ofRunit o)) (tr ++ [EvReadDir (Runit_BaseDir o)])%list
              (ds1 ++ dir :: ds2)%list (rs1 ++ raw :: rs2)%list ->
      regexp.FindSubmatch runitStatusRegexp raw = [] ->
      Forall runitLine (rs1 ++ rs2) ->
      exists svcs1 svcs2,
        map Service_Name svcs1 = map filepath.Base ds1 /\
        map Service_Name svcs2 = map filepath.Base ds2 /\
        fst (Runit_Status os (mkRunit (Runit_BaseDir o) false) tr)
        = ((svcs1 ++ svcs2)%list, None) /\
        fst (Runit_Status os (mkRunit (Runit_BaseDir o) true) tr)
        = (svcs1, Some (fmt_Errorf "failed parsing %q status output: %q"
                                   [ArgString (filepath.Base dir); ArgBytes raw]))) /\
  (forall os o tr files ds1 dir ds2 rs1 raw rs2,
      ioutil_ReadDir os tr (S6_BaseDir o) = (files, None) ->
      dirsOf files = (ds1 ++ dir :: ds2)%list ->
      List.length rs1 = List.length ds1 ->
      outputs os (statusCmd (ofS6 o)) (tr ++ [EvReadDir (S6_BaseDir o)])%list
              (ds1 ++ dir :: ds2)%list (rs1 ++ raw :: rs2)%list ->
      regexp.FindSubmatch s6StatusRegexp raw = [] ->
      Forall (fun r => regexp.FindSubmatch s6StatusRegexp r <> []) rs1 ->
      Exists (fun r => at_ (regexp.FindSubmatch s6StatusRegexp r) 3 <> "0") rs1 ->
      exists svcs e,
        fst (S6_Status os (mkS6 (S6_BaseDir o) true) tr) = (svcs, Some e) /\
        (List.length svcs < List.length ds1)%nat /\
        e <> fmt_Errorf "failed parsing %q status output: %q"
                        [ArgString (filepath.Base dir); ArgBytes raw]) /\
  (let os := cacheDbWebOS "up (pid 77) 3/" "garbage" "down (exitcode 0) 12/" in
   regexp.FindSubmatch s6StatusRegexp "garbage" = [] /\
   fst (S6_Status os (mkS6 "/service" false) [])
   = ([mkService "cache" StatusUp 77 0; mkService "web" StatusDown 0 0], None) /\
   fst (S6_Status os (mkS6 "/service" true) [])
   = ([], Some (fmt_Errorf "failed parsing %q duration %q: %s"
                           [ArgString "cache"; ArgBytes "3";
                            ArgError (Some (time.missingUnit "3"))]))) /\
  (let warning := "warning: db: unable to open supervise/ok: file does not exist" in
   let os := cacheDbWebOS "run: cache: (pid 77) 3s" warning "down: web: 12s" in
   regexp.FindSubmatch runitStatusRegexp warning = [] /\
   fst (Runit_Status os (mkRunit "/service" false) [])
   = ([mkService "cache" StatusUp 77 (3 * time.Second);
       mkService "web" StatusDown 0 (12 * time.Second)], None) /\
   fst (Runit_Status os (mkRunit "/service" true) [])
   = ([mkService "cache" StatusUp 77 (3 * time.Second)],
      Some (fmt_Errorf "failed parsing %q status output: %q"
                       [ArgString "db"; ArgBytes warning]))).
Proof.
  split; [|split; [|split; [|split]]].
  - intros os sup tr files ds1 dir ds2 rs1 raw rs2 Hread Hdirs Hlen Hout Hbad Hall.
    destruct (one_malformed_normal os sup tr files ds1 dir ds2 rs1 raw rs2)
      as (Hnormal & Hn1 & Hn2); try assumption.
    eexists. split; [exact Hnormal|]. now rewrite !map_app, Hn1, Hn2.
  - intros os o tr files ds1 dir ds2 rs1 raw rs2 Hread Hdirs Hlen Hout Hbad Hall.
    assert (Hmatch : Forall (fun r => regexp.FindSubmatch runitStatusRegexp r <> [])
                            (rs1 ++ rs2)).
    { eapply Forall_impl; [|exact Hall]. intros r. apply runitLine_match. }
    destruct (one_malformed_normal os (ofRunit o) tr files ds1 dir ds2 rs1 raw rs2)
      as (Hnormal & Hn1 & Hn2); try assumption.
    apply Forall_app in Hall as [Hall1 Hall2].
    assert (Hlen2 : List.length ds2 = List.length rs2).
    { apply outputs_length in Hout. rewrite !length_app in Hout.
      cbn [List.length] in Hout. lia. }
    assert (Hacc : forall ds rs, List.length ds = List.length rs -> Forall runitLine rs ->
                   Forall2 (fun d r => parseLine (withDebugMode (ofRunit o) true) d r <> None)
                           ds rs).
    { intros ds rs Hl Hf.
      apply (Forall2_impl _ _ (fun _ r => runitLine r)); [|now apply Forall_Forall2].
      intros d r. apply parseLine_runitLine. }
    destruct (one_malformed_accepted os (ofRunit o) tr files ds1 dir ds2 rs1 raw rs2
                Hread Hdirs Hout Hbad (Hacc _ _ (eq_sym Hlen) Hall1) (Hacc _ _ Hlen2 Hall2))
      as (_ & _ & Hdebug & E1 & _).
    exists (parsedServices (withDebugMode (ofRunit o) false) ds1 rs1),
           (parsedServices (withDebugMode (ofRunit o) false) ds2 rs2).
    split; [exact Hn1|]. split; [exact Hn2|]. split; [exact Hnormal|].
    rewrite <- E1. exact Hdebug.
  - intros os o tr files ds1 dir ds2 rs1 raw rs2 Hread Hdirs Hlen Hout Hbad Hall Hex.
    destruct (outputs_app _ _ _ _ _ _ _ (eq_sym Hlen) Hout) as [Ho1 _].
    destruct (S6_debug_loop_stops os (mkS6 (S6_BaseDir o) true) ds1 rs1 (dir :: ds2) []
                (tr ++ [EvReadDir (S6_BaseDir o)])%list eq_refl Ho1 Hall Hex)
      as (l & e & Hres & Hl & He).
    exists l, e.
    change (S6_Status os (mkS6 (S6_BaseDir o) true) tr)
      with (Supervisor_Status os (ofS6 (mkS6 (S6_BaseDir o) true)) tr).
    rewrite Supervisor_Status_eq. cbn [BaseDir S6_BaseDir]. rewrite Hread, Hdirs.
    destruct (forRange (ds1 ++ dir :: ds2)%list _ [] _) as [f tr'].
    cbn [fst] in *. subst f. split; [reflexivity|]. split; [exact Hl|apply He].
  - cbv zeta. repeat split; reflexivity.
  - cbv zeta. repeat split; reflexivity.
Qed.
